(** * InsightLens: the CSV analysis engine ([DataAnalyzer])

    A shallow embedding of the class [DataAnalyzer] (the service that
    [App.tsx] imports from [./services/dataAnalyzer]), of the
    JavaScript built-ins it calls and of the state of [App] around an
    upload, followed by the properties of the engine that the design
    document states and by further properties read off the code.

    Conventions of the embedding.
    - A JavaScript string is a [string]: a sequence of code units, here
      restricted to the units below 256.
    - A JavaScript number is a [num]: [NaN], the two infinities, or a
      rational in lowest terms.  The operators [+], [-], [*] and [/] and
      the numeric literals round their exact result to the nearest
      binary64 number, ties to even, with gradual underflow and overflow
      to an infinity ([Num.double]).  The lengths of arrays are natural
      numbers; the comparison of a count with a share of a total and the
      completeness percentage are computed on them exactly.  The sign
      of zero is not tracked: every division by zero in the engine
      divides by a difference of a larger and a smaller number, or by
      the quotient of one, which is [+0].
    - A JavaScript object used as a dictionary is its own properties, an
      association list in insertion order ([Obj.t]), under the prototype
      [Object.prototype]: reading a name that is no own property finds
      the member of [Object.prototype] of that name, and the assignment
      of a string or a number to [__proto__] is ignored.
    - An exception is a value of [exn]; code that can throw returns an
      [outcome].
    - [Date.parse] and [toLocaleString] depend on the engine and on the
      locale: they are the fields of an [Engine] that every definition
      using them takes as an argument. *)

From Stdlib Require Import ZArith QArith Qround Qabs Ascii DecimalString Lia Lqa Sorted.
From stdpp Require Import base list strings sorting.

Local Open Scope Z_scope.

(** ** Strings *)

Module Str.

Definition code (c : ascii) : N := N_of_ascii c.

Definition char_eqb (a b : ascii) : bool := Ascii.eqb a b.

Definition quote : ascii := "034"%char.
Definition comma : ascii := ","%char.
Definition newline : ascii := "010"%char.

(** White space and line terminators, as [String.prototype.trim]
    removes them (the code units below 256). *)
Definition is_ws (c : ascii) : bool :=
  match code c with
  | 9 | 10 | 11 | 12 | 13 | 32 | 160 => true
  | _ => false
  end%N.

Definition is_empty (s : string) : bool :=
  match s with EmptyString => true | _ => false end.

Fixpoint trimStart (s : string) : string :=
  match s with
  | String c r => if is_ws c then trimStart r else s
  | EmptyString => EmptyString
  end.

Fixpoint trimEnd (s : string) : string :=
  match s with
  | String c r =>
      let r' := trimEnd r in
      if is_ws c && is_empty r' then EmptyString else String c r'
  | EmptyString => EmptyString
  end.

(** [s.trim()] *)
Definition trim (s : string) : string := trimEnd (trimStart s).

(** [s.split(sep)] for a one-character separator: never empty, and
    [[""]] on the empty string. *)
Fixpoint split (sep : ascii) (s : string) : list string :=
  match s with
  | EmptyString => [EmptyString]
  | String c r =>
      if char_eqb c sep then EmptyString :: split sep r
      else match split sep r with
           | h :: t => String c h :: t
           | [] => [String c EmptyString]
           end
  end.

(** [s.replace(/c/g, '')] *)
Fixpoint remove (c : ascii) (s : string) : string :=
  match s with
  | EmptyString => EmptyString
  | String a r => if char_eqb a c then remove c r else String a (remove c r)
  end.

Definition lower_char (c : ascii) : ascii :=
  let n := code c in
  if ((65 <=? n) && (n <=? 90))%N then ascii_of_N (n + 32)
  else if ((192 <=? n) && (n <=? 222) && negb (n =? 215))%N
       then ascii_of_N (n + 32)
  else c.

(** [s.toLowerCase()] *)
Fixpoint toLowerCase (s : string) : string :=
  match s with
  | EmptyString => EmptyString
  | String c r => String (lower_char c) (toLowerCase r)
  end.

(** [/^(w1|w2|...)/.test(s)] for literal alternatives. *)
Definition test_prefix (alts : list string) (s : string) : bool :=
  existsb (fun w => String.prefix w s) alts.

Fixpoint count (c : ascii) (s : string) : nat :=
  match s with
  | EmptyString => 0%nat
  | String a r => ((if char_eqb a c then 1 else 0) + count c r)%nat
  end.

Fixpoint mem (c : ascii) (s : string) : bool :=
  match s with
  | EmptyString => false
  | String a r => char_eqb a c || mem c r
  end.

(** Code-unit order, the default order of [Array.prototype.sort]. *)
Fixpoint ltb (a b : string) : bool :=
  match a, b with
  | EmptyString, EmptyString => false
  | EmptyString, String _ _ => true
  | String _ _, EmptyString => false
  | String x a', String y b' =>
      if (code x <? code y)%N then true
      else if (code y <? code x)%N then false
      else ltb a' b'
  end.

Definition leb (a b : string) : bool := negb (ltb b a).

End Str.

(** ** Exceptions *)

Inductive exn : Type :=
| Error (message : string)
| RangeError (message : string).

Inductive outcome (A : Type) : Type :=
| Ok (a : A)
| Throw (e : exn).
Arguments Ok {A} a.
Arguments Throw {A} e.

#[global] Instance exn_eq_dec : EqDecision exn.
Proof. solve_decision. Defined.

#[global] Instance outcome_eq_dec {A} `{EqDecision A} : EqDecision (outcome A).
Proof. solve_decision. Defined.

#[global] Instance outcome_ret : MRet outcome := fun A a => Ok a.

#[global] Instance outcome_bind : MBind outcome := fun A B k m =>
  match m with
  | Ok a => k a
  | Throw e => Throw e
  end.

(** [xs.forEach(f)] for a body that can throw: runs left to right and
    stops at the first exception. *)
Fixpoint forEachM {A S} (f : S -> A -> outcome S) (xs : list A) (s : S)
  : outcome S :=
  match xs with
  | [] => Ok s
  | x :: r => s' ← f s x; forEachM f r s'
  end.

(** ** Numbers *)

Inductive num : Type :=
| NaN
| Inf (negative : bool)
| Fin (q : Q).

Module Num.

(** Finite values are kept in lowest terms, so that equal numbers are
    equal terms. *)
Definition fin (q : Q) : num := Fin (Qred q).

(** *** Exact operations

    [add], [sub], [mul] and [div] give the exact result on finite
    numbers.  The operators of JavaScript round it: they are [plus],
    [minus], [times] and [over] below. *)
Definition of_Z (z : Z) : num := Fin (inject_Z z).
Definition of_nat (n : nat) : num := of_Z (Z.of_nat n).
Definition zero : num := of_Z 0.

Definition isNaN (x : num) : bool :=
  match x with NaN => true | _ => false end.

Definition is_neg (q : Q) : bool := Qnum q <? 0.
Definition is_zero (q : Q) : bool := Qnum q =? 0.

Definition neg (x : num) : num :=
  match x with
  | NaN => NaN
  | Inf b => Inf (negb b)
  | Fin q => fin (- q)
  end.

Definition add (x y : num) : num :=
  match x, y with
  | NaN, _ | _, NaN => NaN
  | Inf a, Inf b => if Bool.eqb a b then Inf a else NaN
  | Inf a, Fin _ | Fin _, Inf a => Inf a
  | Fin p, Fin q => fin (p + q)
  end.

Definition sub (x y : num) : num := add x (neg y).

Definition mul (x y : num) : num :=
  match x, y with
  | NaN, _ | _, NaN => NaN
  | Inf a, Inf b => Inf (xorb a b)
  | Inf a, Fin q | Fin q, Inf a =>
      if is_zero q then NaN else Inf (xorb a (is_neg q))
  | Fin p, Fin q => fin (p * q)
  end.

Definition div (x y : num) : num :=
  match x, y with
  | NaN, _ | _, NaN => NaN
  | Inf _, Inf _ => NaN
  | Inf a, Fin q => Inf (xorb a (is_neg q))
  | Fin _, Inf _ => zero
  | Fin p, Fin q =>
      if is_zero q then (if is_zero p then NaN else Inf (is_neg p))
      else fin (p / q)
  end.

(** *** Binary64 *)

(** [a / b] rounded to the nearest integer, a tie to the even one, for
    [0 <= a] and [0 < b]. *)
Definition nearest_even (a b : Z) : Z :=
  let q := a / b in
  let r := a mod b in
  if 2 * r <? b then q
  else if b <? 2 * r then q + 1
  else if Z.even q then q else q + 1.

(** The binary64 number nearest to [n / d], for positive [n] and [d].
    [e] is the exponent of [n / d], [2 ^ e <= n / d < 2 ^ (e + 1)]; the
    unit in the last place is [2 ^ (e - 52)], and [2 ^ -1074] below the
    normal range; the quotient by the unit is rounded to an integer, a
    tie to the even one; from [2 ^ 1024] on the result is infinite. *)
Definition double_pos (n d : Z) : num :=
  let e0 := Z.log2 n - Z.log2 d in
  let reaches :=
    if 0 <=? e0 then d * 2 ^ e0 <=? n else d <=? n * 2 ^ (- e0) in
  let e := if reaches then e0 else e0 - 1 in
  let ulp := Z.max (e - 52) (-1074) in
  let m := if 0 <=? ulp then nearest_even n (d * 2 ^ ulp)
           else nearest_even (n * 2 ^ (- ulp)) d in
  if 2 ^ (1024 - ulp) <=? m then Inf false
  else if 0 <=? ulp then Fin (inject_Z (m * 2 ^ ulp))
  else fin (m # Z.to_pos (2 ^ (- ulp))).

(** The rounding of a result to binary64. *)
Definition double (x : num) : num :=
  match x with
  | Fin q =>
      match Qnum q with
      | Z0 => zero
      | Zpos n => double_pos (Zpos n) (Zpos (Qden q))
      | Zneg n => neg (double_pos (Zpos n) (Zpos (Qden q)))
      end
  | _ => x
  end.

(** [x + y], [x - y], [x * y] and [x / y] *)
Definition plus (x y : num) : num := double (add x y).
Definition minus (x y : num) : num := double (sub x y).
Definition times (x y : num) : num := double (mul x y).
Definition over (x y : num) : num := double (div x y).

(** [x < y]; false as soon as one side is [NaN]. *)
Definition ltb (x y : num) : bool :=
  match x, y with
  | NaN, _ | _, NaN => false
  | Inf a, Inf b => a && negb b
  | Inf a, Fin _ => a
  | Fin _, Inf b => negb b
  | Fin p, Fin q => negb (Qle_bool q p)
  end.

(** [x > y] *)
Definition gtb (x y : num) : bool := ltb y x.

Definition floor (x : num) : num :=
  match x with
  | Fin q => of_Z (Qfloor q)
  | _ => x
  end.

(** [Math.round]: the nearest integer, ties towards +Infinity. *)
Definition round (x : num) : num :=
  match x with
  | Fin q => of_Z (Qfloor (q + (1 # 2)))
  | _ => x
  end.

(** [Math.min(x, y)] and [Math.max(x, y)] *)
Definition min2 (x y : num) : num :=
  match x, y with
  | NaN, _ | _, NaN => NaN
  | _, _ => if ltb y x then y else x
  end.

Definition max2 (x y : num) : num :=
  match x, y with
  | NaN, _ | _, NaN => NaN
  | _, _ => if ltb x y then y else x
  end.

(** [Math.min(...values)] and [Math.max(...values)]: on no argument
    they are [Infinity] and [-Infinity]. *)
Definition min (values : list num) : num :=
  fold_left min2 values (Inf false).

Definition max (values : list num) : num :=
  fold_left max2 values (Inf true).

(** [values.reduce((sum, val) => sum + val, 0)] *)
Definition sum (values : list num) : num :=
  fold_left plus values zero.

Definition digits (n : Z) : string :=
  NilZero.string_of_uint (N.to_uint (Z.to_N n)).

(** Whether [s * scale] is rounded to the integer [x]. *)
Definition rounds_to (x s scale : Z) : bool :=
  match double (of_Z (s * scale)) with
  | Fin q => Qeq_bool q (inject_Z x)
  | _ => false
  end.

(** The digits of [Number::toString] for an integer [x] of [n] digits:
    the least number of digits [k], from the given one on, for which
    some [s] of [k] digits has [s * 10 ^ (n - k)] rounded to [x], with
    the [s] nearest to [x] when there are two.  The result is [s] and
    the number of digits before the point. *)
Fixpoint shortest (fuel k : nat) (x n : Z) : option (Z * Z) :=
  match fuel with
  | O => None
  | S fuel' =>
      let scale := 10 ^ (n - Z.of_nat k) in
      let lo := x / scale in
      let hi := lo + 1 in
      let lo_ok := rounds_to x lo scale in
      let hi_ok := rounds_to x hi scale in
      if hi_ok && (negb lo_ok || (hi * scale - x <? x - lo * scale)) then
        if hi =? 10 ^ Z.of_nat k then Some (1, n + 1) else Some (hi, n)
      else if lo_ok then Some (lo, n)
      else shortest fuel' (S k) x n
  end.

(** [String(x)] for an integer [x] of 1e21 or more: the shortest digits,
    a point after the first one, and the exponent.  A binary64 number
    has such digits, 17 at most; the digits of [x] are written out for
    an [x] that is none. *)
Definition exponent_form (x : Z) : string :=
  match shortest 17 1 x (Z.of_nat (String.length (digits x))) with
  | Some (s, n) =>
      match digits s with
      | String d EmptyString => String d EmptyString
      | String d rest => String d ("." +:+ rest)
      | EmptyString => EmptyString
      end +:+ "e+" +:+ digits (n - 1)
  | None => digits x
  end.

(** [x.toFixed(0)]: the nearest integer, the larger of two, and
    [String(x)] from 1e21 on, where a binary64 number is an integer. *)
Definition toFixed0 (x : num) : string :=
  match x with
  | NaN => "NaN"
  | Inf false => "Infinity"
  | Inf true => "-Infinity"
  | Fin q =>
      let a := if is_neg q then (- q)%Q else q in
      (if is_neg q then "-" else EmptyString)
      +:+ (if Qle_bool (inject_Z (10 ^ 21)) a then exponent_form (Qfloor a)
           else digits (Qfloor (a + (1 # 2))))
  end.

(** The array index an expression denotes, when it is one. *)
Definition to_index (x : num) : option nat :=
  match x with
  | Fin q =>
      if (Zpos (Qden q) =? 1) && (0 <=? Qnum q) then Some (Z.to_nat (Qnum q))
      else None
  | _ => None
  end.

(** *** Numeric literals *)

Definition digit_of (c : ascii) : option Z :=
  let n := Z.of_N (Str.code c) in
  if (48 <=? n) && (n <=? 57) then Some (n - 48) else None.

(** The longest run of decimal digits at the head of [s]: its value,
    its length, and what follows. *)
Fixpoint read_digits (s : string) (acc : Z) (len : nat)
  : Z * nat * string :=
  match s with
  | EmptyString => (acc, len, s)
  | String c r =>
      match digit_of c with
      | Some d => read_digits r (10 * acc + d) (S len)
      | None => (acc, len, s)
      end
  end.

Definition read_sign (s : string) : bool * string :=
  match s with
  | String "-" r => (true, r)
  | String "+" r => (false, r)
  | _ => (false, s)
  end.

Definition strip_prefix (p s : string) : option string :=
  if String.prefix p s
  then Some (String.substring (String.length p)
               (String.length s - String.length p) s)
  else None.

(** [ExponentPart]: when absent or ill-formed the exponent is 0 and
    nothing is consumed. *)
Definition read_exponent (s : string) : Z * string :=
  match s with
  | String c r =>
      if Str.char_eqb c "e" || Str.char_eqb c "E" then
        let '(sg, r1) := read_sign r in
        let '(e, n, r2) := read_digits r1 0 0%nat in
        match n with
        | O => (0, s)
        | _ => (if sg then - e else e, r2)
        end
      else (0, s)
  | EmptyString => (0, s)
  end.

Definition pow10 (e : Z) : Q :=
  if e <? 0 then 1 # Z.to_pos (10 ^ (- e)) else inject_Z (10 ^ e).

(** The longest prefix of [s] that is a [StrDecimalLiteral], with its
    value, the binary64 number nearest to the literal, and the rest of
    [s]. *)
Definition read_decimal (s : string) : option (num * string) :=
  let '(sg, r0) := read_sign s in
  match strip_prefix "Infinity" r0 with
  | Some r => Some (Inf sg, r)
  | None =>
      let '(ip, ni, r1) := read_digits r0 0 0%nat in
      let '(fp, nf, r2) :=
        match r1 with
        | String "." r => read_digits r ip 0%nat
        | _ => (ip, 0%nat, r1)
        end in
      match ni, nf with
      | O, O => None
      | _, _ =>
          let '(e, r3) := read_exponent r2 in
          let q := (inject_Z fp * pow10 (e - Z.of_nat nf))%Q in
          Some (double (fin (if sg then - q else q)), r3)
      end
  end.

(** [parseFloat(s)] *)
Definition parseFloat (s : string) : num :=
  match read_decimal (Str.trimStart s) with
  | Some (x, _) => x
  | None => NaN
  end.

Definition radix_digit (radix : Z) (c : ascii) : option Z :=
  let n := Z.of_N (Str.code (Str.lower_char c)) in
  let d := if (48 <=? n) && (n <=? 57) then n - 48
           else if (97 <=? n) && (n <=? 102) then n - 87
           else radix in
  if d <? radix then Some d else None.

Fixpoint read_radix (radix : Z) (s : string) (acc : Z) : option Z :=
  match s with
  | EmptyString => Some acc
  | String c r =>
      match radix_digit radix c with
      | Some d => read_radix radix r (radix * acc + d)
      | None => None
      end
  end.

(** [NonDecimalIntegerLiteral]: 0x, 0o and 0b, in either case. *)
Definition read_nondecimal (s : string) : option num :=
  match s with
  | String "0" (String c (String d r)) =>
      let body := String d r in
      let lc := Str.lower_char c in
      let radix := if Str.char_eqb lc "x" then Some 16
                   else if Str.char_eqb lc "o" then Some 8
                   else if Str.char_eqb lc "b" then Some 2
                   else None in
      match radix with
      | Some b =>
          option_map (fun z => double (of_Z z)) (read_radix b body 0)
      | None => None
      end
  | _ => None
  end.

(** [Number(s)], the conversion [isFinite] and [isNaN] apply to a
    string: the whole trimmed string has to be one literal. *)
Definition Number (s : string) : num :=
  let t := Str.trim s in
  if Str.is_empty t then zero
  else match read_nondecimal t with
       | Some x => x
       | None =>
           match read_decimal t with
           | Some (x, EmptyString) => x
           | _ => NaN
           end
       end.

(** [isFinite(s)] on a string. *)
Definition isFinite (s : string) : bool :=
  match Number s with
  | Fin _ => true
  | _ => false
  end.

End Num.

(** ** Objects used as dictionaries *)

Module Obj.

(** An object made by [{}]: its own properties, in the order of their
    creation.  Its prototype is [Object.prototype]. *)
Definition t (V : Type) : Type := list (string * V).

Definition empty {V} : t V := [].

(** The names of the properties of [Object.prototype]. *)
Definition members : list string :=
  ["constructor"; "__defineGetter__"; "__defineSetter__"; "hasOwnProperty";
   "__lookupGetter__"; "__lookupSetter__"; "isPrototypeOf";
   "propertyIsEnumerable"; "toString"; "valueOf"; "__proto__";
   "toLocaleString"].

Definition inherited (k : string) : bool := existsb (String.eqb k) members.

(** The property through which an object reads and sets its
    prototype. *)
Definition proto : string := "__proto__".

(** The own property [k] of [o]. *)
Fixpoint own {V} (o : t V) (k : string) : option V :=
  match o with
  | [] => None
  | (k', v) :: r => if String.eqb k' k then Some v else own r k
  end.

(** What [o[k]] finds: an own property, a member of [Object.prototype],
    or nothing ([undefined]). *)
Inductive slot (V : Type) : Type :=
| Own (v : V)
| Inherited
| Absent.
Arguments Own {V} v.
Arguments Inherited {V}.
Arguments Absent {V}.

(** [o[k]] *)
Definition get {V} (o : t V) (k : string) : slot V :=
  match own o k with
  | Some v => Own v
  | None => if inherited k then Inherited else Absent
  end.

(** The creation or the update of the own property [k]: an existing
    key keeps its place. *)
Fixpoint put {V} (o : t V) (k : string) (v : V) : t V :=
  match o with
  | [] => [(k, v)]
  | (k', v') :: r =>
      if String.eqb k' k then (k', v) :: r else (k', v') :: put r k v
  end.

(** [o[k] = v] for a string or a number [v].  The other members of
    [Object.prototype] are writable data properties, which the
    assignment shadows by an own property; [__proto__] is a setter,
    which ignores a value that is not an object. *)
Definition set {V} (o : t V) (k : string) (v : V) : t V :=
  if String.eqb k proto then o else put o k v.

(** The text of a member of [Object.prototype], as [String] and the
    operator [+] convert it: the prototype itself for [__proto__], a
    built-in function otherwise, named [Object] for [constructor] and
    as the property for the others.  The white space of the text of a
    function is the one V8 and JavaScriptCore write. *)
Definition source (k : string) : string :=
  if String.eqb k proto then "[object Object]"
  else "function " +:+ (if String.eqb k "constructor" then "Object" else k)
       +:+ "() { [native code] }".

(** An array index: the canonical decimal form of an integer below
    2^32 - 1. *)
Definition array_index (k : string) : option Z :=
  match k with
  | EmptyString => None
  | String c r =>
      if Str.char_eqb c "0" && negb (Str.is_empty r) then None
      else
        match Num.read_digits k 0 0%nat with
        | (z, _, EmptyString) => if z <? 2 ^ 32 - 1 then Some z else None
        | _ => None
        end
  end.

Definition is_index (k : string) : bool :=
  match array_index k with
  | Some _ => true
  | None => false
  end.

Fixpoint insert_index {V} (i : Z) (e : string * V)
    (l : list (Z * (string * V))) : list (Z * (string * V)) :=
  match l with
  | [] => [(i, e)]
  | (j, e') :: r =>
      if i <? j then (i, e) :: l else (j, e') :: insert_index i e r
  end.

Definition indexed {V} (o : t V) : list (Z * (string * V)) :=
  foldr (fun e acc =>
           match array_index (fst e) with
           | Some i => insert_index i e acc
           | None => acc
           end) [] o.

(** [Object.entries(o)]: the array-index keys in ascending order, then
    the other keys in insertion order. *)
Definition entries {V} (o : t V) : list (string * V) :=
  map snd (indexed o)
  ++ List.filter (fun e => negb (is_index (fst e))) o.

(** [Object.keys(o)] *)
Definition keys {V} (o : t V) : list string := map fst (entries o).

End Obj.

(** ** Values read from a row

    A row holds strings.  Reading a name from it gives a string of the
    file, a member of [Object.prototype] when the row has no such
    property of its own, or [undefined]. *)

Inductive value : Type :=
| Text (s : string)
| Member (name : string).

#[global] Instance value_eq_dec : EqDecision value.
Proof. solve_decision. Defined.

(** The conversion of what is read to a string, for [parseFloat],
    [isFinite], [Date.parse], [new Date] and a property key. *)
Definition ToString (v : option value) : string :=
  match v with
  | Some (Text s) => s
  | Some (Member k) => Obj.source k
  | None => "undefined"
  end.

(** ** Dates and the engine *)

(** What the analysis takes from its host: the date parser, whose
    grammar beyond the ISO format is left to the implementation, and the
    locale's number formatting.  [Date_parse] gives the time value in
    milliseconds, or [None] where JavaScript gives [NaN]. *)
Record Engine : Type := {
  Date_parse : string -> option Z;
  toLocaleString : num -> string
}.

Module JSDate.

(** A [Date] object is its time value; [None] is the invalid date. *)
Definition t : Type := option Z.

Definition TimeClip (tv : Z) : option Z :=
  if Z.abs tv <=? 8640000000000000 then Some tv else None.

(** [new Date(v)] on what a row gives: [undefined] gives the invalid
    date, a string is parsed, and an object is converted to a string
    and parsed. *)
Definition new (E : Engine) (v : option value) : t :=
  match v with
  | Some v => tv ← Date_parse E (ToString (Some v)); TimeClip tv
  | None => None
  end.

Definition msPerDay : Z := 86400000.

(** Year, month and day of a day number counted from 1970-01-01. *)
Definition civil (day : Z) : Z * Z * Z :=
  let z := day + 719468 in
  let era := z / 146097 in
  let doe := z - era * 146097 in
  let yoe := (doe - doe / 1460 + doe / 36524 - doe / 146096) / 365 in
  let doy := doe - (365 * yoe + yoe / 4 - yoe / 100) in
  let mp := (5 * doy + 2) / 153 in
  let d := doy - (153 * mp + 2) / 5 + 1 in
  let m := if mp <? 10 then mp + 3 else mp - 9 in
  let y := yoe + era * 400 + (if m <=? 2 then 1 else 0) in
  (y, m, d).

(** Day number of a year, month and day. *)
Definition days_from_civil (y m d : Z) : Z :=
  let y' := if m <=? 2 then y - 1 else y in
  let era := y' / 400 in
  let yoe := y' - era * 400 in
  let mp := if m <=? 2 then m + 9 else m - 3 in
  let doy := (153 * mp + 2) / 5 + d - 1 in
  let doe := yoe * 365 + yoe / 4 - yoe / 100 + doy in
  era * 146097 + doe - 719468.

Fixpoint zeros (n : nat) : string :=
  match n with
  | O => EmptyString
  | S k => String "0" (zeros k)
  end.

Definition pad (width : nat) (n : Z) : string :=
  let ds := NilEmpty.string_of_uint (N.to_uint (Z.to_N n)) in
  zeros (width - String.length ds) +:+ ds.

Definition year_string (y : Z) : string :=
  if (0 <=? y) && (y <=? 9999) then pad 4 y
  else if y <? 0 then "-" +:+ pad 6 (- y)
  else "+" +:+ pad 6 y.

Definition invalid_time : exn := RangeError "Invalid time value".

(** [d.toISOString()]: throws on the invalid date. *)
Definition toISOString (d : t) : outcome string :=
  match d with
  | None => Throw invalid_time
  | Some tv =>
      let '(y, m, dd) := civil (tv / msPerDay) in
      let ms := tv mod msPerDay in
      Ok (year_string y +:+ "-" +:+ pad 2 m +:+ "-" +:+ pad 2 dd
          +:+ "T" +:+ pad 2 (ms / 3600000)
          +:+ ":" +:+ pad 2 (ms / 60000 mod 60)
          +:+ ":" +:+ pad 2 (ms / 1000 mod 60)
          +:+ "." +:+ pad 3 (ms mod 1000) +:+ "Z")
  end.

End JSDate.

(** ** The tokenizer *)

Definition row : Type := Obj.t string.

Record DataAnalyzer : Type := {
  data : list row;
  columns : list string;
  rawData : string
}.

Definition strip_field (current : string) : string :=
  Str.remove Str.quote (Str.trim current).

(** The loop of [parseCSVLine], over the characters still to read. *)
Fixpoint parseCSVLine_loop (line : string) (result : list string)
    (current : string) (inQuotes : bool) : list string :=
  match line with
  | EmptyString => result ++ [strip_field current]
  | String char rest =>
      if Str.char_eqb char Str.quote then
        parseCSVLine_loop rest result current (negb inQuotes)
      else if Str.char_eqb char Str.comma && negb inQuotes then
        parseCSVLine_loop rest (result ++ [strip_field current])
          EmptyString inQuotes
      else
        parseCSVLine_loop rest result
          (current +:+ String char EmptyString) inQuotes
  end.

Definition parseCSVLine (line : string) : list string :=
  parseCSVLine_loop line [] EmptyString false.

(** [values[index] || '']: [undefined] and the empty string both give
    the empty string. *)
Definition or_empty (v : option string) : string :=
  match v with
  | Some s => s
  | None => EmptyString
  end.

(** The row built by [columns.forEach((col, index) => row[col] = ...)],
    from the column at position [index] on. *)
Fixpoint fill_row (cols : list string) (index : nat) (values : list string)
    (r : row) : row :=
  match cols with
  | [] => r
  | col :: rest =>
      fill_row rest (S index) values
        (Obj.set r col (or_empty (values !! index)))
  end.

Definition make_row (cols : list string) (line : string) : row :=
  fill_row cols 0 (parseCSVLine line) Obj.empty.

Definition header_columns (line : string) : list string :=
  map (fun col => Str.remove Str.quote (Str.trim col))
      (Str.split Str.comma line).

Definition malformed : exn :=
  Error "CSV file must have at least header and one data row".

(** [new DataAnalyzer(csvData)]: the constructor runs [parseCSV]. *)
Definition parseCSV (csvData : string) : outcome DataAnalyzer :=
  let lines := Str.split Str.newline (Str.trim csvData) in
  if (length lines <? 2)%nat then Throw malformed
  else
    match lines with
    | [] => Throw malformed
    | header :: rest =>
        let cols := header_columns header in
        Ok {| data := map (make_row cols) rest;
              columns := cols;
              rawData := csvData |}
    end.

(** ** The column classifier *)

Inductive columnType : Type := numeric | categorical | datetime.

Inductive businessRole : Type := revenue | customer | date | category | quantity.

#[global] Instance columnType_eq_dec : EqDecision columnType.
Proof. solve_decision. Defined.

#[global] Instance businessRole_eq_dec : EqDecision businessRole.
Proof. solve_decision. Defined.

Module ColumnInfo.
Record t : Type := mk {
  name : string;
  type : columnType;
  uniqueValues : nat;
  nullCount : nat;
  isBusinessRelevant : bool;
  businessType : option businessRole
}.
End ColumnInfo.

Definition relevant_prefixes : list string :=
  ["amount"; "price"; "cost"; "revenue"; "sales"; "total"; "customer";
   "client"; "user"; "id"; "date"; "time"; "created"; "updated"].

Definition revenue_prefixes : list string :=
  ["amount"; "price"; "cost"; "revenue"; "sales"; "total"; "value"].

Definition customer_prefixes : list string :=
  ["customer"; "client"; "user"; "id"].

Definition date_prefixes : list string :=
  ["date"; "time"; "created"; "updated"].

(** [row[col]]: [None] is [undefined]. *)
Definition cell (r : row) (col : string) : option value :=
  match Obj.get r col with
  | Obj.Own s => Some (Text s)
  | Obj.Inherited => Some (Member col)
  | Obj.Absent => None
  end.

(** [values.filter(v => v !== '' && v != null)] *)
Fixpoint nonEmpty (values : list (option value)) : list value :=
  match values with
  | [] => []
  | Some (Text s) :: rest =>
      if Str.is_empty s then nonEmpty rest else Text s :: nonEmpty rest
  | Some v :: rest => v :: nonEmpty rest
  | None :: rest => nonEmpty rest
  end.

(** [!isNaN(parseFloat(v)) && isFinite(v)]: both convert [v] to a
    string first, [isFinite] by way of [valueOf], which gives an object
    back. *)
Definition is_numeric_value (v : value) : bool :=
  negb (Num.isNaN (Num.parseFloat (ToString (Some v))))
  && Num.isFinite (ToString (Some v)).

(** [!isNaN(Date.parse(v))] *)
Definition is_date_value (E : Engine) (v : value) : bool :=
  bool_decide (is_Some (Date_parse E (ToString (Some v)))).

(** [count > total * share], on array lengths.  The shares 0.8, 0.5,
    0.1 and 0.05 of the source are read as the fractions they denote. *)
Definition exceeds (count total : nat) (share : Q) : bool :=
  Num.gtb (Num.of_nat count) (Num.mul (Num.of_nat total) (Num.fin share)).

(** [uniqueValues < total * share] *)
Definition below (count total : nat) (share : Q) : bool :=
  Num.ltb (Num.of_nat count) (Num.mul (Num.of_nat total) (Num.fin share)).

Definition detectColumnType (E : Engine) (columnName : string)
    (values : list (option value)) : ColumnInfo.t :=
  let nonEmptyValues := nonEmpty values in
  let uniqueValues := length (remove_dups nonEmptyValues) in
  let nullCount := (length values - length nonEmptyValues)%nat in
  let numericValues := filter (fun v => is_numeric_value v = true) nonEmptyValues in
  let isNumeric := exceeds (length numericValues) (length nonEmptyValues) (8 # 10) in
  let dateValues := filter (fun v => is_date_value E v = true) nonEmptyValues in
  let isDateTime := exceeds (length dateValues) (length nonEmptyValues) (8 # 10) in
  let lowerName := Str.toLowerCase columnName in
  let isBusinessRelevant := Str.test_prefix relevant_prefixes lowerName in
  let businessType :=
    if Str.test_prefix revenue_prefixes lowerName then Some revenue
    else if Str.test_prefix customer_prefixes lowerName then Some customer
    else if Str.test_prefix date_prefixes lowerName then Some date
    else if negb isNumeric && below uniqueValues (length nonEmptyValues) (5 # 10)
         then Some category
    else if isNumeric && negb (Str.test_prefix revenue_prefixes lowerName)
         then Some quantity
    else None in
  {| ColumnInfo.name := columnName;
     ColumnInfo.type := if isNumeric then numeric
                        else if isDateTime then datetime else categorical;
     ColumnInfo.uniqueValues := uniqueValues;
     ColumnInfo.nullCount := nullCount;
     ColumnInfo.isBusinessRelevant := isBusinessRelevant;
     ColumnInfo.businessType := businessType |}.

(** ** The overview *)

Module DataOverview.
Record t : Type := mk {
  totalRows : nat;
  totalColumns : nat;
  columns : list ColumnInfo.t;
  missingValues : nat;
  duplicateRows : nat;
  memoryUsage : string
}.
End DataOverview.

Module JSON.

Definition hex_digit (n : N) : ascii :=
  if (n <? 10)%N then ascii_of_N (48 + n) else ascii_of_N (87 + n).

Definition escape (c : ascii) : string :=
  match Str.code c with
  | 8 => "\b" | 9 => "\t" | 10 => "\n" | 12 => "\f" | 13 => "\r"
  | 34 => String "\" (String Str.quote EmptyString)
  | 92 => "\\"
  | n => if (n <? 32)%N
         then "\u00" +:+ String (hex_digit (n / 16))
                           (String (hex_digit (n mod 16)) EmptyString)
         else String c EmptyString
  end%N.

Fixpoint escape_all (s : string) : string :=
  match s with
  | EmptyString => EmptyString
  | String c r => escape c +:+ escape_all r
  end.

Definition quoted (s : string) : string :=
  String Str.quote (escape_all s) +:+ String Str.quote EmptyString.

Fixpoint join (sep : string) (l : list string) : string :=
  match l with
  | [] => EmptyString
  | [x] => x
  | x :: r => x +:+ sep +:+ join sep r
  end.

(** [JSON.stringify(row)] for an object whose values are strings. *)
Definition stringify (r : row) : string :=
  "{" +:+ join "," (map (fun e => quoted (fst e) +:+ ":" +:+ quoted (snd e))
                        (Obj.entries r)) +:+ "}".

End JSON.

Definition column_values (this : DataAnalyzer) (col : string)
  : list (option value) :=
  map (fun r => cell r col) (data this).

Definition getDataOverview (E : Engine) (this : DataAnalyzer) : DataOverview.t :=
  let cols := map (fun col => detectColumnType E col (column_values this col))
                  (columns this) in
  let totalMissingValues :=
    fold_left (fun sum col => (sum + ColumnInfo.nullCount col)%nat) cols 0%nat in
  let duplicateRows :=
    (length (data this)
     - length (remove_dups (map JSON.stringify (data this))))%nat in
  {| DataOverview.totalRows := length (data this);
     DataOverview.totalColumns := length (columns this);
     DataOverview.columns := cols;
     DataOverview.missingValues := totalMissingValues;
     DataOverview.duplicateRows := duplicateRows;
     DataOverview.memoryUsage :=
       Num.toFixed0
         (Num.round (Num.over (Num.of_nat (String.length (rawData this)))
                              (Num.of_Z 1024))) +:+ " KB" |}.

(** ** Metrics *)

Inductive trendKind : Type := up | down | neutral.
Inductive formatKind : Type := currency | percentage | number.

Module Metric.
(** [change] is never set by the engine and is left out. *)
Record t : Type := mk {
  label : string;
  value : num;
  format : option formatKind;
  trend : option trendKind
}.
End Metric.

(** The filter behind [revenueColumns] in [generateMetrics] and
    [generateCharts]. *)
Definition is_revenue_column (col : ColumnInfo.t) : bool :=
  bool_decide (ColumnInfo.businessType col = Some revenue)
  || (bool_decide (ColumnInfo.type col = numeric)
      && Str.test_prefix revenue_prefixes (Str.toLowerCase (ColumnInfo.name col))).

(** [data.map(row => parseFloat(row[name])).filter(v => !isNaN(v))] *)
Definition parsed_values (this : DataAnalyzer) (name : string) : list num :=
  filter (fun v => Num.isNaN v = false)
    (map (fun r => Num.parseFloat (ToString (cell r name))) (data this)).

(** The percentage of [generateMetrics] and [generateInsights], on the
    counts of rows, columns and missing values.  It is taken exactly: in
    binary64 the product can fall just below a half that the exact
    percentage reaches, and [Math.round] then gives the integer
    below. *)
Definition completeness (this : DataAnalyzer) (overview : DataOverview.t) : num :=
  let cells := Num.mul (Num.of_nat (length (data this)))
                       (Num.of_nat (length (columns this))) in
  Num.round
    (Num.mul
       (Num.div (Num.sub cells (Num.of_nat (DataOverview.missingValues overview)))
                cells)
       (Num.of_Z 100)).

Definition generateMetrics (E : Engine) (this : DataAnalyzer) : list Metric.t :=
  let overview := getDataOverview E this in
  let metrics :=
    [ Metric.mk "Total Records" (Num.of_nat (length (data this))) (Some number) None;
      Metric.mk "Data Columns" (Num.of_nat (length (columns this))) (Some number) None ] in
  let revenueColumns := List.filter is_revenue_column (DataOverview.columns overview) in
  let metrics :=
    match revenueColumns with
    | revenueCol :: _ =>
        let values := parsed_values this (ColumnInfo.name revenueCol) in
        let totalRevenue := Num.sum values in
        let avgRevenue :=
          if (0 <? length values)%nat
          then Num.over totalRevenue (Num.of_nat (length values))
          else Num.zero in
        metrics
        ++ [ Metric.mk "Total Revenue" totalRevenue (Some currency) (Some up);
             Metric.mk "Average Order Value" avgRevenue (Some currency) None ]
    | [] => metrics
    end in
  if (0 <? DataOverview.missingValues overview)%nat then
    metrics
    ++ [ Metric.mk "Data Completeness" (completeness this overview)
           (Some percentage)
           (Some (if exceeds (DataOverview.missingValues overview)
                            (length (data this)) (1 # 10)
                  then down else neutral)) ]
  else metrics.

(** ** Charts *)

Inductive chartType : Type := bar | line | pie | doughnut | scatter.

(** What a dataset holds for a point: a number, or a text where the
    counting of [generateCharts] has made one. *)
Inductive datum : Type :=
| Numeric (x : num)
| Textual (s : string).

Module Dataset.
Record t : Type := mk {
  label : option string;
  data : list datum;
  backgroundColor : list string;
  borderColor : option string;
  borderWidth : option nat;
  fill : option bool;
  tension : option num
}.
End Dataset.

Module ChartData.
Record t : Type := mk {
  type : chartType;
  title : string;
  labels : list string;
  datasets : list Dataset.t
}.
End ChartData.

(** [bins[binIndex]++]: an index outside the array names a property
    beside the counts, and leaves them as they are. *)
Definition increment (bins : list nat) (binIndex : num) : list nat :=
  match Num.to_index binIndex with
  | Some i => alter S i bins
  | None => bins
  end.

(** [Math.min(Math.floor((value - min) / binSize), binCount - 1)] *)
Definition bin_of (min binSize : num) (binCount : nat) (value : num) : num :=
  Num.min2 (Num.floor (Num.over (Num.minus value min) binSize))
           (Num.minus (Num.of_nat binCount) (Num.of_Z 1)).

Definition createHistogramBins (values : list num) (binCount : nat)
  : list string * list nat :=
  let min := Num.min values in
  let max := Num.max values in
  let binSize := Num.over (Num.minus max min) (Num.of_nat binCount) in
  let labels :=
    map (fun i =>
           let binStart := Num.plus min (Num.times (Num.of_nat i) binSize) in
           let binEnd :=
             Num.plus min (Num.times (Num.of_nat (i + 1)) binSize) in
           Num.toFixed0 binStart +:+ "-" +:+ Num.toFixed0 binEnd)
        (seq 0 binCount) in
  let bins :=
    fold_left
      (fun bins value =>
         let binIndex := bin_of min binSize binCount value in
         increment bins binIndex)
      values (replicate binCount 0%nat) in
  (labels, bins).

(** [x || 0] on a number that may be [undefined]. *)
Definition or_zero (x : option num) : num :=
  match x with
  | Some (Fin q) => if Num.is_zero q then Num.zero else Fin q
  | Some (Inf b) => Inf b
  | Some NaN | None => Num.zero
  end.

(** What [categoryCounts] holds for a value: the number of rows counted
    so far, or a text.  A count is below the length of an array, where
    adding 1 is exact. *)
Inductive count : Type :=
| Tally (n : nat)
| Junk (text : string).

(** [(categoryCounts[value] || 0) + 1], from what [categoryCounts[value]]
    finds.  A member of [Object.prototype] is an object: it stands, and
    [+] joins its text and the text of 1. *)
Definition counted_once (key : string) (found : Obj.slot count) : count :=
  match found with
  | Obj.Own (Tally n) => Tally (n + 1)
  | Obj.Own (Junk text) =>
      if Str.is_empty text then Tally 1 else Junk (text +:+ "1")
  | Obj.Inherited => Junk (Obj.source key +:+ "1")
  | Obj.Absent => Tally 1
  end.

(** A count as a number, for [b - a], and as a point of the chart. *)
Definition count_number (c : count) : num :=
  match c with
  | Tally n => Num.of_nat n
  | Junk text => Num.Number text
  end.

Definition count_datum (c : count) : datum :=
  match c with
  | Tally n => Numeric (Num.of_nat n)
  | Junk text => Textual text
  end.

(** A stable sort by insertion: [foldr] puts each element in front of
    the later ones it does not have to follow. *)
Fixpoint insert_sorted {A} (before : A -> A -> bool) (x : A) (l : list A) : list A :=
  match l with
  | [] => [x]
  | y :: r => if before x y then x :: l else y :: insert_sorted before x r
  end.

Definition stable_sort {A} (before : A -> A -> bool) (l : list A) : list A :=
  foldr (insert_sorted before) [] l.

(** [entries.sort(([,a], [,b]) => b - a)]: an entry stays in front of a
    later one unless the comparison is positive; a comparison that is
    [NaN] counts as 0.  With a text among the counts the comparison is
    not an order, and an engine may arrange the entries otherwise than
    the insertion does. *)
Definition by_count_desc (x y : string * count) : bool :=
  negb (Num.gtb (Num.minus (count_number (snd y)) (count_number (snd x)))
                Num.zero).

(** [keys.sort()] *)
Definition sort_keys (l : list string) : list string := stable_sort Str.leb l.

Definition palette : list string :=
  ["#3B82F6"; "#10B981"; "#F59E0B"; "#EF4444"; "#8B5CF6"; "#06B6D4";
   "#84CC16"; "#F97316"; "#EC4899"; "#6366F1"].

Definition is_category_column (col : ColumnInfo.t) : bool :=
  bool_decide (ColumnInfo.type col = categorical)
  && (ColumnInfo.uniqueValues col <? 20)%nat.

Definition is_date_column (col : ColumnInfo.t) : bool :=
  bool_decide (ColumnInfo.businessType col = Some date)
  || bool_decide (ColumnInfo.type col = datetime).

Definition revenue_chart (this : DataAnalyzer) (revenueCol : ColumnInfo.t)
  : ChartData.t :=
  let values := parsed_values this (ColumnInfo.name revenueCol) in
  let bins := createHistogramBins values 10 in
  {| ChartData.type := bar;
     ChartData.title := ColumnInfo.name revenueCol +:+ " Distribution";
     ChartData.labels := fst bins;
     ChartData.datasets :=
       [ {| Dataset.label := Some (ColumnInfo.name revenueCol);
            Dataset.data := map (fun n => Numeric (Num.of_nat n)) (snd bins);
            Dataset.backgroundColor := ["rgba(59, 130, 246, 0.8)"];
            Dataset.borderColor := Some "rgba(59, 130, 246, 1)";
            Dataset.borderWidth := Some 1%nat;
            Dataset.fill := None;
            Dataset.tension := None |} ] |}.

Definition category_chart (this : DataAnalyzer) (categoryCol : ColumnInfo.t)
  : ChartData.t :=
  let categoryCounts :=
    fold_left
      (fun counts r =>
         let value := ToString (cell r (ColumnInfo.name categoryCol)) in
         Obj.set counts value (counted_once value (Obj.get counts value)))
      (data this) Obj.empty in
  let sortedCategories :=
    take 10 (stable_sort by_count_desc (Obj.entries categoryCounts)) in
  {| ChartData.type := doughnut;
     ChartData.title := ColumnInfo.name categoryCol +:+ " Distribution";
     ChartData.labels := map fst sortedCategories;
     ChartData.datasets :=
       [ {| Dataset.label := None;
            Dataset.data := map (fun e => count_datum (snd e)) sortedCategories;
            Dataset.backgroundColor := palette;
            Dataset.borderColor := None;
            Dataset.borderWidth := None;
            Dataset.fill := None;
            Dataset.tension := None |} ] |}.

(** [new Date(row[dateCol.name]).toISOString().split('T')[0]] *)
Definition day_key (E : Engine) (dateCol : ColumnInfo.t) (r : row)
  : outcome string :=
  iso ← JSDate.toISOString (JSDate.new E (cell r (ColumnInfo.name dateCol)));
  Ok (default EmptyString (Str.split "T" iso !! 0%nat)).

(** [parseFloat(row[revenueCol.name])] *)
Definition revenue_of (revenueCol : ColumnInfo.t) (r : row) : num :=
  Num.parseFloat (ToString (cell r (ColumnInfo.name revenueCol))).

(** The body of the [forEach] that fills [timeData]: the date is
    normalised before the revenue is looked at.  A day starts with a
    digit or a sign and names no member of [Object.prototype]:
    [timeData[date]] is an own property or [undefined]. *)
Definition add_to_day (E : Engine) (dateCol revenueCol : ColumnInfo.t)
    (timeData : Obj.t num) (r : row) : outcome (Obj.t num) :=
  date ← day_key E dateCol r;
  let revenue := revenue_of revenueCol r in
  if negb (Num.isNaN revenue)
  then Ok (Obj.set timeData date
             (Num.plus (or_zero (Obj.own timeData date)) revenue))
  else Ok timeData.

Definition trend_chart (E : Engine) (this : DataAnalyzer)
    (dateCol revenueCol : ColumnInfo.t) : outcome ChartData.t :=
  timeData ← forEachM (add_to_day E dateCol revenueCol) (data this) Obj.empty;
  let sortedDates := sort_keys (Obj.keys timeData) in
  Ok {| ChartData.type := line;
        ChartData.title := "Revenue Trend Over Time";
        ChartData.labels := sortedDates;
        ChartData.datasets :=
          [ {| Dataset.label := Some "Daily Revenue";
               Dataset.data :=
                 map (fun date => Numeric (default NaN (Obj.own timeData date)))
                     sortedDates;
               Dataset.backgroundColor := ["rgba(59, 130, 246, 0.1)"];
               Dataset.borderColor := Some "rgba(59, 130, 246, 1)";
               Dataset.borderWidth := None;
               Dataset.fill := Some true;
               Dataset.tension := Some (Num.double (Num.fin (4 # 10))) |} ] |}.

Definition generateCharts (E : Engine) (this : DataAnalyzer)
  : outcome (list ChartData.t) :=
  let overview := getDataOverview E this in
  let revenueColumns := List.filter is_revenue_column (DataOverview.columns overview) in
  let charts :=
    match revenueColumns with
    | revenueCol :: _ => [revenue_chart this revenueCol]
    | [] => []
    end in
  let categoryColumns := List.filter is_category_column (DataOverview.columns overview) in
  let charts :=
    match categoryColumns with
    | categoryCol :: _ => charts ++ [category_chart this categoryCol]
    | [] => charts
    end in
  let dateColumns := List.filter is_date_column (DataOverview.columns overview) in
  match dateColumns, revenueColumns with
  | dateCol :: _, revenueCol :: _ =>
      chart ← trend_chart E this dateCol revenueCol;
      Ok (charts ++ [chart])
  | _, _ => Ok charts
  end.

(** ** Insights and recommendations *)

Definition nat_string (n : nat) : string := Num.toFixed0 (Num.of_nat n).

Definition has_role (role : businessRole) (col : ColumnInfo.t) : bool :=
  bool_decide (ColumnInfo.businessType col = Some role).

Definition generateInsights (E : Engine) (this : DataAnalyzer) : list string :=
  let overview := getDataOverview E this in
  let insights :=
    [ "Dataset contains " +:+ toLocaleString E (Num.of_nat (length (data this)))
      +:+ " records across " +:+ nat_string (length (columns this))
      +:+ " columns" ] in
  let insights :=
    if (0 <? DataOverview.missingValues overview)%nat then
      insights
      ++ [ "Data completeness is "
           +:+ Num.toFixed0 (completeness this overview) +:+ "% with "
           +:+ nat_string (DataOverview.missingValues overview)
           +:+ " missing values" ]
    else insights in
  let insights :=
    if (0 <? DataOverview.duplicateRows overview)%nat then
      insights
      ++ [ "Found " +:+ nat_string (DataOverview.duplicateRows overview)
           +:+ " duplicate records that may need attention" ]
    else insights in
  let insights :=
    match List.filter (has_role revenue) (DataOverview.columns overview) with
    | revenueCol :: _ =>
        let values := parsed_values this (ColumnInfo.name revenueCol) in
        let totalRevenue := Num.sum values in
        insights
        ++ [ "Total revenue across all records is $"
             +:+ toLocaleString E totalRevenue ]
    | [] => insights
    end in
  match List.filter (has_role customer) (DataOverview.columns overview) with
  | customerCol :: _ =>
      let uniqueCustomers :=
        length (remove_dups (column_values this (ColumnInfo.name customerCol))) in
      insights
      ++ [ "Dataset includes " +:+ toLocaleString E (Num.of_nat uniqueCustomers)
           +:+ " unique customers" ]
  | [] => insights
  end.

Definition generateRecommendations (E : Engine) (this : DataAnalyzer)
  : list string :=
  let overview := getDataOverview E this in
  let recommendations :=
    if exceeds (DataOverview.missingValues overview) (length (data this)) (5 # 100)
    then ["Consider data cleaning to address missing values before analysis"]
    else [] in
  let recommendations :=
    if (0 <? DataOverview.duplicateRows overview)%nat
    then recommendations ++ ["Remove duplicate records to improve data quality"]
    else recommendations in
  let revenueColumns := List.filter (has_role revenue) (DataOverview.columns overview) in
  let dateColumns := List.filter (has_role date) (DataOverview.columns overview) in
  let recommendations :=
    match revenueColumns, dateColumns with
    | _ :: _, _ :: _ =>
        recommendations
        ++ ["Analyze revenue trends over time to identify seasonal patterns"]
    | _, _ => recommendations
    end in
  let recommendations :=
    match List.filter is_category_column (DataOverview.columns overview) with
    | _ :: _ =>
        recommendations
        ++ ["Segment analysis by categories could reveal growth opportunities"]
    | [] => recommendations
    end in
  match revenueColumns with
  | _ :: _ =>
      recommendations
      ++ ["Focus on high-value transactions to maximize revenue impact"]
  | [] => recommendations
  end.

(** ** The orchestrator *)

Module AnalysisResult.
Record t : Type := mk {
  overview : DataOverview.t;
  metrics : list Metric.t;
  charts : list ChartData.t;
  insights : list string;
  recommendations : list string
}.
End AnalysisResult.

(** What a run can observe of its host beside the [Engine]: the clock
    and the stream [Math.random] draws from. *)
Record World : Type := {
  now : Z;
  entropy : list Z
}.

(** [await new Promise(resolve => setTimeout(resolve, 2000))]: the run
    resumes no sooner than 2000 ms later; [lateness] is what the event
    loop adds. *)
Definition sleep (ms lateness : Z) (w : World) : World :=
  {| now := now w + ms + Z.max 0 lateness; entropy := entropy w |}.

(** The methods read [this] and never assign to it, so they are
    functions of it. *)
Definition performCompleteAnalysis (E : Engine) (this : DataAnalyzer)
    (lateness : Z) (w : World) : outcome AnalysisResult.t * World :=
  let w := sleep 2000 lateness w in
  let overview := getDataOverview E this in
  let metrics := generateMetrics E this in
  (charts ← generateCharts E this;
   let insights := generateInsights E this in
   let recommendations := generateRecommendations E this in
   Ok {| AnalysisResult.overview := overview;
         AnalysisResult.metrics := metrics;
         AnalysisResult.charts := charts;
         AnalysisResult.insights := insights;
         AnalysisResult.recommendations := recommendations |},
   w).

(** [analyze(rawText)]: what [App.handleFileUpload] does with the text
    of the file, [new DataAnalyzer(text)] and then
    [performCompleteAnalysis()]. *)
Definition analyze_in (E : Engine) (rawText : string) (lateness : Z) (w : World)
  : outcome AnalysisResult.t * World :=
  match parseCSV rawText with
  | Ok analyzer => performCompleteAnalysis E analyzer lateness w
  | Throw e => (Throw e, w)
  end.

Definition start : World := {| now := 0; entropy := [] |}.

Definition analyze (E : Engine) (rawText : string) : outcome AnalysisResult.t :=
  fst (analyze_in E rawText 0 start).

(** ** A sample engine *)

Module Sample.

(** A parser for the date-only forms of the ISO format, [YYYY],
    [YYYY-MM] and [YYYY-MM-DD], which every engine reads as UTC;
    nothing else parses. *)
Definition field (width : nat) (s : string) : option (Z * string) :=
  match Num.read_digits (String.substring 0 width s) 0 0%nat with
  | (z, n, EmptyString) =>
      if (n =? width)%nat
      then Some (z, String.substring width (String.length s - width) s)
      else None
  | _ => None
  end.

Definition dash_field (s : string) : option (Z * string) :=
  match s with
  | String "-" r => field 2 r
  | _ => None
  end.

Definition in_range (lo hi x : Z) : bool := (lo <=? x) && (x <=? hi).

Definition parse_date (s : string) : option Z :=
  '(y, r) ← field 4 s;
  if Str.is_empty r then Some (JSDate.days_from_civil y 1 1 * JSDate.msPerDay)
  else
    '(m, r) ← dash_field r;
    if negb (in_range 1 12 m) then None
    else if Str.is_empty r
    then Some (JSDate.days_from_civil y m 1 * JSDate.msPerDay)
    else
      '(d, r) ← dash_field r;
      if in_range 1 31 d && Str.is_empty r
      then Some (JSDate.days_from_civil y m d * JSDate.msPerDay)
      else None.

Fixpoint group3 (ds : list ascii) : list ascii :=
  match ds with
  | a :: b :: c :: (_ :: _) as r => a :: b :: c :: ","%char :: group3 r
  | _ => ds
  end.

Definition grouped (n : Z) : string :=
  String.string_of_list_ascii
    (rev (group3 (rev (String.list_ascii_of_string (Num.digits n))))).

(** Grouping of the integer part by thousands and at most three
    fraction digits, as in the [en-US] locale.  The sign for
    infinity is outside the modelled code units and spelled out. *)
Definition format_number (x : num) : string :=
  match x with
  | NaN => "NaN"
  | Inf false => "Infinity"
  | Inf true => "-Infinity"
  | Fin q =>
      let m := Qfloor (Qabs q * inject_Z 1000 + (1 # 2)) in
      let frac := m mod 1000 in
      (if Num.is_neg q then "-" else "")
      +:+ grouped (m / 1000)
      +:+ (if frac =? 0 then ""
           else "." +:+ (if frac mod 100 =? 0 then JSDate.pad 1 (frac / 100)
                         else if frac mod 10 =? 0 then JSDate.pad 2 (frac / 10)
                         else JSDate.pad 3 frac))
  end.

Definition engine : Engine :=
  {| Date_parse := parse_date; toLocaleString := format_number |}.

End Sample.

(** ** The tokenizing rule of the design document

    "A double-quote character toggles an inside-quotes mode; commas
    inside quotes are not field separators; all emitted fields have
    surrounding quotes stripped and are trimmed."  [raw_fields] cuts a
    line at the commas met outside quotes and keeps every character of
    each piece; [spec_fields] then strips and trims each piece. *)

Module TokenizerSpec.

Fixpoint raw_fields (inQuotes : bool) (line : string) : list string :=
  match line with
  | EmptyString => [EmptyString]
  | String c rest =>
      if Str.char_eqb c Str.comma && negb inQuotes
      then EmptyString :: raw_fields inQuotes rest
      else
        let inQuotes' :=
          if Str.char_eqb c Str.quote then negb inQuotes else inQuotes in
        match raw_fields inQuotes' rest with
        | piece :: pieces => String c piece :: pieces
        | [] => [String c EmptyString]
        end
  end.

Definition clean (piece : string) : string :=
  Str.trim (Str.remove Str.quote piece).

(** Whether every comma of [line] is inside quotes. *)
Fixpoint commas_quoted (inQuotes : bool) (line : string) : bool :=
  match line with
  | EmptyString => true
  | String c rest =>
      if Str.char_eqb c Str.comma then inQuotes && commas_quoted inQuotes rest
      else commas_quoted
             (if Str.char_eqb c Str.quote then negb inQuotes else inQuotes)
             rest
  end.

Definition spec_fields (line : string) : list string :=
  map clean (raw_fields false line).

End TokenizerSpec.

(** ** Notions used in the statements *)

(** A string that does not start with white space. *)
Definition starts_clean (s : string) : Prop :=
  match s with
  | EmptyString => True
  | String c _ => Str.is_ws c = false
  end.

(** How many non-empty values of a column are numbers, and how many
    parse as dates. *)
Definition numericCount (values : list (option value)) : nat :=
  length (filter (fun v => is_numeric_value v = true) (nonEmpty values)).

Definition dateCount (E : Engine) (values : list (option value)) : nat :=
  length (filter (fun v => is_date_value E v = true) (nonEmpty values)).

(** [parseFloat(row[name])] *)
Definition revenue_of_name (name : string) (r : row) : num :=
  Num.parseFloat (ToString (cell r name)).

(** A finite number and the rational it stands for. *)
Definition finite (x : num) : Prop :=
  match x with Fin _ => True | _ => False end.

Definition value_of (x : num) : Q :=
  match x with Fin q => q | _ => 0%Q end.

(** A number that is 0 or more, [Infinity] included. *)
Definition nonneg (x : num) : Prop :=
  match x with
  | Fin q => (0 <= q)%Q
  | Inf negative => negative = false
  | NaN => False
  end.

(** The width of the bins. *)
Definition width (values : list num) : num :=
  Num.over (Num.minus (Num.max values) (Num.min values)) (Num.of_nat 10).

(** Whether a row counts for the day [d]: its date is normalised to [d]
    and its revenue parses. *)
Definition counted (E : Engine) (dateCol revenueCol : ColumnInfo.t)
    (d : string) (r : row) : bool :=
  bool_decide (day_key E dateCol r = Ok d)
  && negb (Num.isNaN (revenue_of revenueCol r)).

(** The revenues of the rows that count for the day [d], in the order
    of the rows. *)
Definition day_revenues (E : Engine) (dateCol revenueCol : ColumnInfo.t)
    (d : string) (rows : list row) : list num :=
  map (revenue_of revenueCol)
      (List.filter (counted E dateCol revenueCol d) rows).

(** The total of the day [d] as the loop accumulates it, from the
    total [start] before the rows: each row that counts adds its
    revenue to [total || 0]. *)
Definition day_total (E : Engine) (dateCol revenueCol : ColumnInfo.t)
    (d : string) (rows : list row) (start : option num) : option num :=
  fold_left
    (fun total r =>
       if counted E dateCol revenueCol d r
       then Some (Num.plus (or_zero total) (revenue_of revenueCol r))
       else total)
    rows start.

(** ** Inputs used as examples *)

Module Example.

Definition nl : string := String Str.newline EmptyString.

(** The text whose lines are [l]. *)
Definition text (l : list string) : string := JSON.join nl l.

Definition in_quotes (s : string) : string :=
  String Str.quote s +:+ String Str.quote EmptyString.

(** The table of the design document. *)
Definition sales : string :=
  text ["amount,date"; "10,2024-01-01"; "20,2024-01-01"; "30,2024-01-02"].

(** What [parseCSV] makes of it. *)
Definition sales_table : DataAnalyzer :=
  {| data := [ [("amount", "10"); ("date", "2024-01-01")];
               [("amount", "20"); ("date", "2024-01-01")];
               [("amount", "30"); ("date", "2024-01-02")] ];
     columns := ["amount"; "date"];
     rawData := sales |}.

(** A column in which four of the five values are numbers. *)
Definition scores : list (option value) :=
  [Some (Text "1"); Some (Text "2"); Some (Text "3"); Some (Text "4");
   Some (Text "n/a")].

(** A column of dates that repeat. *)
Definition visits : list (option value) :=
  [Some (Text "2024-01-01"); Some (Text "2024-01-01"); Some (Text "2024-01-01")].

(** A revenue column in which nothing parses. *)
Definition unpriced : string := text ["price"; "abc"].

Definition unpriced_table : DataAnalyzer :=
  {| data := [ [("price", "abc")] ];
     columns := ["price"];
     rawData := unpriced |}.

(** A revenue column with a value that is no binary64 number. *)
Definition large : string := text ["amount"; "9007199254740993"; "1"].

Definition large_table : DataAnalyzer :=
  {| data := [ [("amount", "9007199254740993")]; [("amount", "1")] ];
     columns := ["amount"];
     rawData := large |}.

(** A revenue column whose values are all the same. *)
Definition flat : string := text ["amount"; "5"; "5"].

Definition flat_table : DataAnalyzer :=
  {| data := [ [("amount", "5")]; [("amount", "5")] ];
     columns := ["amount"];
     rawData := flat |}.

(** A table whose second row has no date. *)
Definition undated : string :=
  text ["amount,date"; "10,2024-01-01"; "20,"].

Definition undated_table : DataAnalyzer :=
  {| data := [ [("amount", "10"); ("date", "2024-01-01")];
               [("amount", "20"); ("date", "")] ];
     columns := ["amount"; "date"];
     rawData := undated |}.

(** A quoted field that holds a comma, alone and inside a line. *)
Definition city : string := in_quotes "New York, NY".
Definition city_line : string := "7," +:+ city +:+ ", 12".

(** A header with a column named [__proto__], and a row that ends
    before it. *)
Definition unkeyed : string := text ["id,__proto__"; "7"].

Definition unkeyed_table : DataAnalyzer :=
  {| data := [ [("id", "7")] ];
     columns := ["id"; "__proto__"];
     rawData := unkeyed |}.

(** A table of one column, and the same with a field of 600 characters
    past the header in its row. *)
Fixpoint xs (n : nat) : string :=
  match n with
  | O => EmptyString
  | S k => String "x" (xs k)
  end.

Definition narrow : string := text ["a"; "1"].
Definition wide : string := text ["a"; "1," +:+ xs 600].

End Example.

(** ** The application *)

Module DataFile.
Record t : Type := mk {
  name : string;
  size : nat;
  type : string;
  data : string
}.
End DataFile.

Module App.

(** The four state variables of [App]. *)
Record state : Type := {
  isLoading : bool;
  analysisResult : option AnalysisResult.t;
  error : option string;
  uploadedFile : option DataFile.t
}.

Definition initial : state :=
  {| isLoading := false; analysisResult := None; error := None;
     uploadedFile := None |}.

(** [err instanceof Error ? err.message : '...']: both exceptions of
    the engine are instances of [Error]. *)
Definition message (e : exn) : string :=
  match e with
  | Error m => m
  | RangeError m => m
  end.

(** [handleFileUpload(file)], to the end of its [finally]: [file] holds
    the name, size and type of the file and the text [file.text()]
    resolves to. *)
Definition handleFileUpload (E : Engine) (file : DataFile.t) (s : state)
  : state :=
  (* setIsLoading(true); setError(null) *)
  let s := {| isLoading := true; analysisResult := analysisResult s;
              error := None; uploadedFile := uploadedFile s |} in
  (* try: setUploadedFile(dataFile) *)
  let s := {| isLoading := isLoading s; analysisResult := analysisResult s;
              error := error s; uploadedFile := Some file |} in
  let s :=
    match analyze E (DataFile.data file) with
    | Ok result =>
        {| isLoading := isLoading s; analysisResult := Some result;
           error := error s; uploadedFile := uploadedFile s |}
    | Throw e =>
        (* catch *)
        {| isLoading := isLoading s; analysisResult := analysisResult s;
           error := Some (message e); uploadedFile := uploadedFile s |}
    end in
  (* finally *)
  {| isLoading := false; analysisResult := analysisResult s;
     error := error s; uploadedFile := uploadedFile s |}.

Definition handleReset (s : state) : state :=
  {| isLoading := isLoading s; analysisResult := None; error := None;
     uploadedFile := None |}.

(** What [App] renders: the loading screen, the upload form or the
    dashboard, the last two under the error banner when there is one. *)
Inductive view : Type :=
| LoadingScreen
| FileUpload (banner : option string)
| Dashboard (banner : option string) (result : AnalysisResult.t)
    (fileName : string).

(** [{error && ...}]: the banner shows a message that is not empty. *)
Definition banner (s : state) : option string :=
  match error s with
  | Some m => if Str.is_empty m then None else Some m
  | None => None
  end.

Definition render (s : state) : view :=
  if isLoading s then LoadingScreen
  else
    match analysisResult s with
    | None => FileUpload (banner s)
    | Some result =>
        Dashboard (banner s) result
          (match uploadedFile s with
           | Some file =>
               if Str.is_empty (DataFile.name file) then "Unknown"
               else DataFile.name file
           | None => "Unknown"
           end)
    end.

End App.

(** ** Notions used in the further properties *)

(** [fields.map(f => '"' + f + '"').join(',')]: a line written with
    every field in quotes; and [fields.join(',')]. *)
Definition quoted_line (fields : list string) : string :=
  JSON.join "," (map Example.in_quotes fields).

Definition plain_line (fields : list string) : string :=
  JSON.join "," fields.

(** [pieces] with [c] added at the end of the last one. *)
Fixpoint extend_last (c : ascii) (pieces : list string) : list string :=
  match pieces with
  | [] => []
  | [p] => [p +:+ String c EmptyString]
  | p :: rest => p :: extend_last c rest
  end.

(** How many rows hold [v] in the column [col]. *)
Definition occurrences (col v : string) (rows : list row) : nat :=
  length (List.filter (fun r => String.eqb (ToString (cell r col)) v) rows).

(** The loop that fills [categoryCounts], from the counts so far. *)
Definition tally (col : string) (rows : list row) (counts : Obj.t count)
  : Obj.t count :=
  fold_left
    (fun counts r =>
       let value := ToString (cell r col) in
       Obj.set counts value (counted_once value (Obj.get counts value)))
    rows counts.

(** The number under a key of [categoryCounts], 0 when it holds none. *)
Definition tallied (found : option count) : nat :=
  match found with
  | Some (Tally n) => n
  | _ => 0
  end.

(** An entry of [categoryCounts] with its count as a number, and back. *)
Definition entry_number (e : string * count) : string * nat :=
  (fst e, tallied (Some (snd e))).

Definition entry_tally (e : string * nat) : string * count :=
  (fst e, Tally (snd e)).

(** The order of [b - a] on the counts that are numbers. *)
Definition by_number_desc (x y : string * nat) : bool :=
  (snd y <=? snd x)%nat.

(** Reading back what [JSON.escape] writes: the character at the head
    of an escaped string, and what follows it. *)
Definition hex_value (c : ascii) : N :=
  let n := Str.code c in
  if (n <? 58)%N then (n - 48)%N else (n - 87)%N.

Definition unescape (s : string) : option (ascii * string) :=
  match s with
  | String "\" (String "u" (String _ (String _ (String x (String y r))))) =>
      Some (ascii_of_N (16 * hex_value x + hex_value y), r)
  | String "\" (String "b" r) => Some ("008"%char, r)
  | String "\" (String "t" r) => Some ("009"%char, r)
  | String "\" (String "n" r) => Some ("010"%char, r)
  | String "\" (String "f" r) => Some ("012"%char, r)
  | String "\" (String "r" r) => Some ("013"%char, r)
  | String "\" (String c r) => Some (c, r)
  | String c r => Some (c, r)
  | EmptyString => None
  end.

(** One entry in the text of an object. *)
Definition encode (e : string * string) : string :=
  JSON.quoted (fst e) +:+ ":" +:+ JSON.quoted (snd e).

(** What follows the first entry in the text of an object. *)
Definition rest_of (entries : list (string * string)) : string :=
  match entries with
  | [] => "}"
  | _ => "," +:+ JSON.join "," (map encode entries) +:+ "}"
  end.

(** Further inputs on which the properties are read. *)
Module Cases.

(** Eleven regions, each on one row, and the first once more. *)
Definition regions : string :=
  Example.text ["region"; "a"; "b"; "c"; "d"; "e"; "f"; "g"; "h"; "i"; "j";
                "k"; "a"].

Definition regions_table : DataAnalyzer :=
  {| data := map (fun v => [("region", v)])
               ["a"; "b"; "c"; "d"; "e"; "f"; "g"; "h"; "i"; "j"; "k"; "a"];
     columns := ["region"];
     rawData := regions |}.

Definition region : ColumnInfo.t :=
  ColumnInfo.mk "region" categorical 11 0 false None.

(** Two lines that differ in the field of the column [__proto__]
    only. *)
Definition shadowed : string := Example.text ["__proto__,b"; "1,2"; "3,2"].

Definition shadowed_table : DataAnalyzer :=
  {| data := [ [("b", "2")]; [("b", "2")] ];
     columns := ["__proto__"; "b"];
     rawData := shadowed |}.

(** A column in which a cell names a member of [Object.prototype]. *)
Definition kinds_table : DataAnalyzer :=
  {| data := map (fun v => [("kind", v)]) ["constructor"; "a"; "constructor"];
     columns := ["kind"];
     rawData := Example.text ["kind"; "constructor"; "a"; "constructor"] |}.

Definition kind : ColumnInfo.t :=
  ColumnInfo.mk "kind" categorical 2 0 false None.

(** Orders of which one names no customer. *)
Definition orders : string :=
  Example.text ["customer_id,amount"; "C1,10"; ",20"; "C1,5"].

Definition orders_table : DataAnalyzer :=
  {| data := [ [("customer_id", "C1"); ("amount", "10")];
               [("customer_id", ""); ("amount", "20")];
               [("customer_id", "C1"); ("amount", "5")] ];
     columns := ["customer_id"; "amount"];
     rawData := orders |}.

Definition customer_id : ColumnInfo.t :=
  ColumnInfo.mk "customer_id" categorical 1 1 true (Some customer).

Definition amount : ColumnInfo.t :=
  ColumnInfo.mk "amount" numeric 3 0 true (Some revenue).

Definition date : ColumnInfo.t :=
  ColumnInfo.mk "date" datetime 2 0 true (Some date).

End Cases.

(** * Properties *)

Local Close Scope Z_scope.
Local Open Scope nat_scope.

(** ** Strings *)

Section StringFacts.

Lemma append_nil (t : string) : EmptyString +:+ t = t.
Proof. reflexivity. Qed.

Lemma append_cons (c : ascii) (s t : string) :
  String c s +:+ t = String c (s +:+ t).
Proof. reflexivity. Qed.

Lemma append_empty_r (s : string) : s +:+ EmptyString = s.
Proof.
  induction s as [|c s IH]; [reflexivity|].
  now rewrite append_cons, IH.
Qed.

Lemma append_assoc (a b c : string) : (a +:+ b) +:+ c = a +:+ (b +:+ c).
Proof.
  induction a as [|x a IH]; [reflexivity|].
  now rewrite !append_cons, IH.
Qed.

Lemma mem_append (c : ascii) (a b : string) :
  Str.mem c (a +:+ b) = Str.mem c a || Str.mem c b.
Proof.
  induction a as [|x a IH]; [reflexivity|].
  rewrite append_cons. simpl. rewrite IH. now rewrite orb_assoc.
Qed.

Lemma mem_remove (c : ascii) (s : string) : Str.mem c (Str.remove c s) = false.
Proof.
  induction s as [|x s IH]; simpl; [reflexivity|].
  destruct (Str.char_eqb x c) eqn:Hx; simpl; [assumption|].
  now rewrite Hx.
Qed.

Lemma remove_absent (c : ascii) (s : string) :
  Str.mem c s = false -> Str.remove c s = s.
Proof.
  induction s as [|x s IH]; simpl; [reflexivity|].
  intros H. apply orb_false_elim in H as [Hx Hs].
  rewrite Hx. now rewrite IH.
Qed.

Lemma remove_append (c : ascii) (a b : string) :
  Str.remove c (a +:+ b) = Str.remove c a +:+ Str.remove c b.
Proof.
  induction a as [|x a IH]; [reflexivity|].
  rewrite append_cons. simpl.
  destruct (Str.char_eqb x c); rewrite ?append_cons; now rewrite IH.
Qed.

Lemma mem_trimStart (c : ascii) (s : string) :
  Str.mem c s = false -> Str.mem c (Str.trimStart s) = false.
Proof.
  induction s as [|x s IH]; simpl; [reflexivity|].
  intros H. destruct (Str.is_ws x); [|exact H].
  apply orb_false_elim in H as [_ Hs]. auto.
Qed.

Lemma mem_trimEnd (c : ascii) (s : string) :
  Str.mem c s = false -> Str.mem c (Str.trimEnd s) = false.
Proof.
  induction s as [|x s IH]; simpl; [reflexivity|].
  intros H. apply orb_false_elim in H as [Hx Hs].
  destruct (Str.is_ws x && Str.is_empty (Str.trimEnd s)); simpl;
    [reflexivity|].
  rewrite Hx. auto.
Qed.

Lemma mem_trim (c : ascii) (s : string) :
  Str.mem c s = false -> Str.mem c (Str.trim s) = false.
Proof. intros H. apply mem_trimEnd, mem_trimStart, H. Qed.

Lemma trimEnd_idem (s : string) : Str.trimEnd (Str.trimEnd s) = Str.trimEnd s.
Proof.
  induction s as [|x s IH]; simpl; [reflexivity|].
  destruct (Str.is_ws x && Str.is_empty (Str.trimEnd s)) eqn:Hc; simpl;
    [reflexivity|].
  rewrite IH, Hc. reflexivity.
Qed.

Lemma trimStart_clean (s : string) : starts_clean (Str.trimStart s).
Proof.
  induction s as [|x s IH]; simpl; [exact I|].
  destruct (Str.is_ws x) eqn:Hx; [exact IH | exact Hx].
Qed.

Lemma trimStart_of_clean (s : string) : starts_clean s -> Str.trimStart s = s.
Proof. destruct s as [|x s]; simpl; [reflexivity|]. now intros ->. Qed.

Lemma trimEnd_clean (s : string) : starts_clean s -> starts_clean (Str.trimEnd s).
Proof.
  destruct s as [|x s]; simpl; [trivial|].
  intros Hx. rewrite Hx. simpl. exact Hx.
Qed.

Lemma trim_idem (s : string) : Str.trim (Str.trim s) = Str.trim s.
Proof.
  unfold Str.trim.
  rewrite (trimStart_of_clean (Str.trimEnd (Str.trimStart s))).
  - apply trimEnd_idem.
  - apply trimEnd_clean, trimStart_clean.
Qed.

End StringFacts.

(** ** The tokenizer *)

Section Tokenizer.

Import TokenizerSpec.

Lemma raw_fields_nonempty (q : bool) (line : string) : raw_fields q line <> [].
Proof.
  destruct line as [|c rest]; simpl; [discriminate|].
  destruct (Str.char_eqb c Str.comma && negb q); [discriminate|].
  destruct (raw_fields _ rest); discriminate.
Qed.

Lemma strip_field_clean (current : string) :
  Str.mem Str.quote current = false -> strip_field current = Str.trim current.
Proof. intros H. unfold strip_field. apply remove_absent, mem_trim, H. Qed.

(** What the loop returns from any of its states: [current] is the
    part of the running field read so far, already free of quotes. *)
Lemma parseCSVLine_loop_spec (line : string) :
  forall (result : list string) (current : string) (inQuotes : bool),
    Str.mem Str.quote current = false ->
    parseCSVLine_loop line result current inQuotes
    = result
      ++ match raw_fields inQuotes line with
         | piece :: pieces =>
             Str.trim (current +:+ Str.remove Str.quote piece)
             :: map clean pieces
         | [] => []
         end.
Proof.
  induction line as [|c rest IH]; intros result current q Hcur; simpl.
  - rewrite append_empty_r. now rewrite strip_field_clean.
  - destruct (Str.char_eqb c Str.quote) eqn:Hq.
    + assert (Str.char_eqb c Str.comma = false) as ->.
      { apply Ascii.eqb_eq in Hq. subst c. reflexivity. }
      simpl. rewrite (IH _ _ _ Hcur).
      pose proof (raw_fields_nonempty (negb q) rest) as Hne.
      destruct (raw_fields (negb q) rest) as [|p ps]; [congruence|].
      simpl. rewrite Hq. reflexivity.
    + destruct (Str.char_eqb c Str.comma && negb q) eqn:Hc.
      * rewrite IH by reflexivity.
        pose proof (raw_fields_nonempty q rest) as Hne.
        destruct (raw_fields q rest) as [|p ps]; [congruence|].
        rewrite strip_field_clean by assumption.
        simpl. rewrite append_empty_r, <- app_assoc. reflexivity.
      * rewrite IH.
        2:{ rewrite mem_append, Hcur. simpl. now rewrite Hq. }
        pose proof (raw_fields_nonempty q rest) as Hne.
        destruct (raw_fields q rest) as [|p ps]; [congruence|].
        simpl. rewrite Hq, append_assoc. reflexivity.
Qed.

Lemma parseCSVLine_spec (line : string) : parseCSVLine line = spec_fields line.
Proof.
  unfold parseCSVLine, spec_fields.
  rewrite parseCSVLine_loop_spec by reflexivity.
  pose proof (raw_fields_nonempty false line) as Hne.
  destruct (raw_fields false line); [congruence | reflexivity].
Qed.

Lemma clean_no_quote (piece : string) : Str.mem Str.quote (clean piece) = false.
Proof. apply mem_trim, mem_remove. Qed.

Lemma clean_trimmed (piece : string) : Str.trim (clean piece) = clean piece.
Proof. apply trim_idem. Qed.

(** Without a comma outside quotes the line is a single field. *)
Lemma raw_fields_single (q : bool) (line : string) :
  (forall pre post : string,
      line = pre +:+ String Str.comma post ->
      Nat.odd (Str.count Str.quote pre) = negb q) ->
  raw_fields q line = [line].
Proof.
  revert q. induction line as [|c rest IH]; intros q H; simpl; [reflexivity|].
  destruct (Str.char_eqb c Str.comma && negb q) eqn:Hsep.
  - apply andb_true_iff in Hsep as [Hc Hq].
    apply Ascii.eqb_eq in Hc. subst c.
    pose proof (H EmptyString rest eq_refl) as H0.
    simpl in H0. rewrite <- H0 in Hq. discriminate.
  - rewrite IH; [reflexivity|].
    intros pre post ->.
    pose proof (H (String c pre) post eq_refl) as H0.
    simpl in H0.
    destruct (Str.char_eqb c Str.quote); simpl in H0; [|exact H0].
    rewrite Nat.odd_succ, <- Nat.negb_odd in H0.
    destruct (Nat.odd (Str.count Str.quote pre)), q; simpl in *; congruence.
Qed.

Lemma commas_quoted_parity (line : string) :
  forall (q : bool) (pre post : string),
    commas_quoted q line = true ->
    line = pre +:+ String Str.comma post ->
    Nat.odd (Str.count Str.quote pre) = negb q.
Proof.
  induction line as [|c rest IH]; intros q pre post Hq Heq.
  - destruct pre; discriminate Heq.
  - simpl in Hq. destruct pre as [|x pre].
    + injection Heq as -> ->. simpl in Hq.
      apply andb_true_iff in Hq as [-> _]. reflexivity.
    + rewrite append_cons in Heq. injection Heq as <- Heq. simpl.
      destruct (Str.char_eqb c Str.comma) eqn:Hc.
      * apply andb_true_iff in Hq as [-> Hq].
        assert (Str.char_eqb c Str.quote = false) as ->.
        { apply Ascii.eqb_eq in Hc. subst c. reflexivity. }
        apply (IH true pre post Hq Heq).
      * destruct (Str.char_eqb c Str.quote).
        -- simpl. rewrite Nat.odd_succ, <- Nat.negb_odd.
           rewrite (IH _ pre post Hq Heq). now destruct q.
        -- apply (IH q pre post Hq Heq).
Qed.

End Tokenizer.

(** ** Rows *)

Section Rows.

Context {V : Type}.
Implicit Types (o : Obj.t V) (k : string) (v : V).

Lemma own_put_eq o k v : Obj.own (Obj.put o k v) k = Some v.
Proof.
  induction o as [|[k' v'] o IH]; simpl.
  - now rewrite String.eqb_refl.
  - destruct (String.eqb k' k) eqn:Hk; simpl; now rewrite Hk.
Qed.

Lemma own_put_ne o k k' v : k <> k' -> Obj.own (Obj.put o k v) k' = Obj.own o k'.
Proof.
  intros Hne. induction o as [|[k0 v0] o IH]; simpl.
  - destruct (String.eqb k k') eqn:Hk; [|reflexivity].
    apply String.eqb_eq in Hk. contradiction.
  - destruct (String.eqb k0 k) eqn:Hk; simpl; [|now rewrite IH].
    apply String.eqb_eq in Hk. subst k0.
    destruct (String.eqb k k') eqn:Hk'; [|reflexivity].
    apply String.eqb_eq in Hk'. contradiction.
Qed.

Lemma elem_of_keys_put o k v k' :
  k' ∈ map fst (Obj.put o k v) <-> k' = k \/ k' ∈ map fst o.
Proof.
  induction o as [|[k0 v0] o IH]; simpl.
  - rewrite list_elem_of_singleton. rewrite elem_of_nil. tauto.
  - destruct (String.eqb k0 k) eqn:Hk; simpl.
    + apply String.eqb_eq in Hk. subst k0.
      rewrite !elem_of_cons. tauto.
    + rewrite !elem_of_cons, IH. tauto.
Qed.

(** An assignment to [__proto__] leaves the object as it is. *)
Lemma set_proto o v : Obj.set o Obj.proto v = o.
Proof. reflexivity. Qed.

Lemma set_put o k v : k <> Obj.proto -> Obj.set o k v = Obj.put o k v.
Proof.
  intros Hk. unfold Obj.set.
  destruct (String.eqb k Obj.proto) eqn:Heq; [|reflexivity].
  apply String.eqb_eq in Heq. contradiction.
Qed.

Lemma own_set_eq o k v : k <> Obj.proto -> Obj.own (Obj.set o k v) k = Some v.
Proof. intros Hk. rewrite set_put by assumption. apply own_put_eq. Qed.

Lemma own_set_ne o k k' v : k <> k' -> Obj.own (Obj.set o k v) k' = Obj.own o k'.
Proof.
  intros Hne. unfold Obj.set.
  destruct (String.eqb k Obj.proto); [reflexivity | now apply own_put_ne].
Qed.

Lemma get_set_eq o k v : k <> Obj.proto -> Obj.get (Obj.set o k v) k = Obj.Own v.
Proof. intros Hk. unfold Obj.get. now rewrite own_set_eq. Qed.

Lemma get_set_ne o k k' v : k <> k' -> Obj.get (Obj.set o k v) k' = Obj.get o k'.
Proof. intros Hne. unfold Obj.get. now rewrite own_set_ne. Qed.

Lemma elem_of_keys_set o k v k' :
  k' ∈ map fst (Obj.set o k v)
  <-> (k' = k /\ k <> Obj.proto) \/ k' ∈ map fst o.
Proof.
  unfold Obj.set. destruct (String.eqb k Obj.proto) eqn:Heq.
  - apply String.eqb_eq in Heq. tauto.
  - apply String.eqb_neq in Heq. rewrite elem_of_keys_put. tauto.
Qed.

Lemma own_elem_of o k v : Obj.own o k = Some v -> k ∈ map fst o.
Proof.
  induction o as [|[k0 v0] o IH]; simpl; [discriminate|].
  destruct (String.eqb k0 k) eqn:Hk.
  - apply String.eqb_eq in Hk. subst k0. intros _. apply list_elem_of_here.
  - intros H. apply list_elem_of_further, IH, H.
Qed.

End Rows.

Section FillRow.

Lemma fill_row_own_other (cols : list string) :
  forall (index : nat) (values : list string) (r : row) (col : string),
    col ∉ cols -> Obj.own (fill_row cols index values r) col = Obj.own r col.
Proof.
  induction cols as [|c cols IH]; intros index values r col Hnot; simpl;
    [reflexivity|].
  rewrite not_elem_of_cons in Hnot. destruct Hnot as [Hne Hnot].
  rewrite IH by assumption.
  apply own_set_ne. congruence.
Qed.

Lemma fill_row_other (cols : list string) :
  forall (index : nat) (values : list string) (r : row) (col : string),
    col ∉ cols -> cell (fill_row cols index values r) col = cell r col.
Proof.
  intros index values r col Hnot. unfold cell, Obj.get.
  now rewrite fill_row_own_other.
Qed.

(** A row never holds [__proto__], unless it did before it was
    filled. *)
Lemma fill_row_own_proto (cols : list string) :
  forall (index : nat) (values : list string) (r : row),
    Obj.own (fill_row cols index values r) Obj.proto = Obj.own r Obj.proto.
Proof.
  induction cols as [|c cols IH]; intros index values r; simpl; [reflexivity|].
  rewrite IH. destruct (decide (c = Obj.proto)) as [->|Hc]; [reflexivity|].
  now apply own_set_ne.
Qed.

(** The column at a position reads the field at that position, or the
    empty string when the line has no field there, unless its name
    comes again later in the header or is [__proto__]. *)
Lemma fill_row_own_last (cols : list string) :
  forall (index : nat) (values : list string) (r : row) (i : nat) (col : string),
    cols !! i = Some col -> col ∉ drop (S i) cols -> col <> Obj.proto ->
    Obj.own (fill_row cols index values r) col
    = Some (or_empty (values !! (index + i))).
Proof.
  induction cols as [|c cols IH]; intros index values r i col Hi Hlast Hp;
    [discriminate|].
  simpl. destruct i as [|i]; simpl in Hi, Hlast.
  - injection Hi as ->. rewrite drop_0 in Hlast.
    rewrite fill_row_own_other by assumption.
    rewrite own_set_eq by assumption. now rewrite Nat.add_0_r.
  - rewrite (IH _ _ _ i col Hi Hlast Hp).
    now replace (S index + i) with (index + S i) by lia.
Qed.

(** A column whose position has no field reads as the empty string,
    wherever else the name occurs in the header, unless it is
    [__proto__]. *)
Lemma fill_row_own_pad (cols : list string) :
  forall (index : nat) (values : list string) (r : row) (col : string) (j : nat),
    cols !! j = Some col -> col <> Obj.proto -> length values <= index + j ->
    Obj.own (fill_row cols index values r) col = Some EmptyString.
Proof.
  induction cols as [|c cols IH]; intros index values r col j Hj Hp Hlen;
    [discriminate|].
  simpl. destruct j as [|j]; simpl in Hj.
  - injection Hj as ->.
    destruct (decide (col ∈ cols)) as [Hin|Hnot].
    + apply list_elem_of_lookup in Hin as [j' Hj'].
      apply (IH _ _ _ _ j' Hj' Hp). lia.
    + rewrite fill_row_own_other by assumption.
      rewrite own_set_eq by assumption.
      rewrite (lookup_ge_None_2 values index) by lia. reflexivity.
  - apply (IH _ _ _ _ j Hj Hp). lia.
Qed.

Lemma cell_own (r : row) (col s : string) :
  Obj.own r col = Some s -> cell r col = Some (Text s).
Proof. intros H. unfold cell, Obj.get. now rewrite H. Qed.

Lemma fill_row_pad (cols : list string) :
  forall (index : nat) (values : list string) (r : row) (col : string) (j : nat),
    cols !! j = Some col -> col <> Obj.proto -> length values <= index + j ->
    cell (fill_row cols index values r) col = Some (Text EmptyString).
Proof.
  intros index values r col j Hj Hp Hlen.
  apply cell_own, (fill_row_own_pad cols index values r col j Hj Hp Hlen).
Qed.

(** Only the fields at the header's positions are read. *)
Lemma fill_row_ext (cols : list string) :
  forall (index : nat) (values values' : list string) (r : row),
    (forall j, j < length cols -> values !! (index + j) = values' !! (index + j)) ->
    fill_row cols index values r = fill_row cols index values' r.
Proof.
  induction cols as [|c cols IH]; intros index values values' r H; simpl;
    [reflexivity|].
  pose proof (H 0 ltac:(simpl; lia)) as H0. rewrite Nat.add_0_r in H0.
  rewrite H0. apply IH.
  intros j Hj. specialize (H (S j) ltac:(simpl; lia)).
  now replace (S index + j) with (index + S j) by lia.
Qed.

Lemma fill_row_keys (cols : list string) :
  forall (index : nat) (values : list string) (r : row) (k : string),
    k ∈ map fst (fill_row cols index values r)
    <-> (k ∈ cols /\ k <> Obj.proto) \/ k ∈ map fst r.
Proof.
  induction cols as [|c cols IH]; intros index values r k; simpl.
  - rewrite elem_of_nil. tauto.
  - rewrite IH, elem_of_keys_set, elem_of_cons.
    split.
    + intros [H|[[-> H]|H]]; tauto.
    + intros [[[->|H] Hp]|H]; tauto.
Qed.

(** Every header name other than [__proto__] is a property of every
    row. *)
Lemma fill_row_own_defined (cols : list string) :
  forall (index : nat) (values : list string) (r : row) (col : string),
    col ∈ cols -> col <> Obj.proto ->
    is_Some (Obj.own (fill_row cols index values r) col).
Proof.
  induction cols as [|c cols IH]; intros index values r col Hin Hp; simpl.
  - now apply elem_of_nil in Hin.
  - destruct (decide (col ∈ cols)) as [Hc|Hc]; [now apply IH|].
    apply elem_of_cons in Hin as [->|Hin]; [|contradiction].
    rewrite fill_row_own_other by assumption.
    rewrite own_set_eq by assumption. eauto.
Qed.

(** Every header name reads as something in every row: [__proto__] as
    the prototype, the others as a string. *)
Lemma fill_row_defined (cols : list string) :
  forall (index : nat) (values : list string) (r : row) (col : string),
    col ∈ cols -> is_Some (cell (fill_row cols index values r) col).
Proof.
  intros index values r col Hin.
  destruct (decide (col = Obj.proto)) as [->|Hp].
  - unfold cell, Obj.get.
    destruct (Obj.own _ Obj.proto); [eauto|]. simpl. eauto.
  - destruct (fill_row_own_defined cols index values r col Hin Hp) as [s Hs].
    rewrite (cell_own _ _ _ Hs). eauto.
Qed.

End FillRow.

Section Reads.

Variable E : Engine.

(** The analysis reads the rows, the header and the length of the raw
    text, and nothing else of the raw text. *)
Lemma getDataOverview_reads (this this' : DataAnalyzer) :
  data this = data this' -> columns this = columns this' ->
  String.length (rawData this) = String.length (rawData this') ->
  getDataOverview E this = getDataOverview E this'.
Proof.
  destruct this as [d c r], this' as [d' c' r']; simpl.
  intros -> -> Hlen. unfold getDataOverview; simpl. now rewrite Hlen.
Qed.

Lemma analysis_reads (this this' : DataAnalyzer) (lateness : Z) (w : World) :
  data this = data this' -> columns this = columns this' ->
  String.length (rawData this) = String.length (rawData this') ->
  performCompleteAnalysis E this lateness w
  = performCompleteAnalysis E this' lateness w.
Proof.
  intros Hd Hc Hr.
  pose proof (getDataOverview_reads this this' Hd Hc Hr) as Ho.
  destruct this as [d c r], this' as [d' c' r']; simpl in Hd, Hc. subst d' c'.
  unfold performCompleteAnalysis, generateMetrics, generateCharts,
    generateInsights, generateRecommendations.
  rewrite Ho. reflexivity.
Qed.

(** Of the raw text, only [memoryUsage] is computed: the rest of the
    overview, the metrics, the charts, the insights and the
    recommendations are those of the rows and the header. *)
Lemma overview_of_rows (this this' : DataAnalyzer) :
  data this = data this' -> columns this = columns this' ->
  let o := getDataOverview E this in
  let o' := getDataOverview E this' in
  DataOverview.totalRows o = DataOverview.totalRows o'
  /\ DataOverview.totalColumns o = DataOverview.totalColumns o'
  /\ DataOverview.columns o = DataOverview.columns o'
  /\ DataOverview.missingValues o = DataOverview.missingValues o'
  /\ DataOverview.duplicateRows o = DataOverview.duplicateRows o'.
Proof.
  destruct this as [d c r], this' as [d' c' r']; simpl.
  intros -> ->. repeat split.
Qed.

Lemma analysis_of_rows (this this' : DataAnalyzer) :
  data this = data this' -> columns this = columns this' ->
  generateMetrics E this = generateMetrics E this'
  /\ generateCharts E this = generateCharts E this'
  /\ generateInsights E this = generateInsights E this'
  /\ generateRecommendations E this = generateRecommendations E this'.
Proof.
  destruct this as [d c r], this' as [d' c' r']; simpl.
  intros -> ->. repeat split.
Qed.

End Reads.

(** C8.  The tokenizer follows the quoting rule: [parseCSVLine] cuts a
    line exactly at the commas outside quotes, a quote only toggling the
    mode, and emits each piece with its quotes stripped and trimmed; no
    emitted field holds a quote or has white space at either end; a line
    whose commas are all inside quotes is one field; and the quoted
    field ["New York, NY"] is one field.  A row reads, for a column
    whose name does not come again in the header, the field at the
    column's position, and the empty string at a position past the end
    of the line, provided the column is not named [__proto__].  For
    that name the padding fails: the assignment stores nothing, and on
    [Example.unkeyed] the row reads its prototype where the design
    document has the empty string. *)
Theorem tokenizer_quote_rule :
  (forall line : string, parseCSVLine line = TokenizerSpec.spec_fields line)
  /\ (forall (line field : string),
        field ∈ parseCSVLine line ->
        Str.mem Str.quote field = false /\ Str.trim field = field)
  /\ (forall line : string,
        (forall pre post : string,
            line = pre +:+ String Str.comma post ->
            Nat.odd (Str.count Str.quote pre) = true) ->
        parseCSVLine line = [TokenizerSpec.clean line])
  /\ (forall (cols : list string) (line : string) (i : nat) (col : string),
        cols !! i = Some col -> col ∉ drop (S i) cols -> col <> Obj.proto ->
        cell (make_row cols line) col
        = Some (Text (or_empty (parseCSVLine line !! i))))
  /\ (forall (cols : list string) (line : string) (i : nat) (col : string),
        cols !! i = Some col -> col <> Obj.proto ->
        length (parseCSVLine line) <= i ->
        cell (make_row cols line) col = Some (Text EmptyString))
  /\ parseCSVLine Example.city = ["New York, NY"]
  /\ parseCSVLine Example.city_line = ["7"; "New York, NY"; "12"]
  /\ parseCSV Example.unkeyed = Ok Example.unkeyed_table
  /\ (forall r : row,
        r ∈ data Example.unkeyed_table ->
        r = [("id", "7")]
        /\ cell r "__proto__" = Some (Member "__proto__")
        /\ cell r "__proto__" <> Some (Text EmptyString)).
Proof.
  split; [exact parseCSVLine_spec|].
  split.
  { intros line field. rewrite parseCSVLine_spec. unfold TokenizerSpec.spec_fields.
    intros Hin. apply list_elem_of_fmap in Hin as (piece & -> & _).
    split; [apply clean_no_quote | apply clean_trimmed]. }
  split.
  { intros line H. rewrite parseCSVLine_spec. unfold TokenizerSpec.spec_fields.
    now rewrite (raw_fields_single false line H). }
  split.
  { intros cols line i col Hi Hlast Hp. unfold make_row.
    apply cell_own. apply (fill_row_own_last cols 0 _ _ i col Hi Hlast Hp). }
  split.
  { intros cols line i col Hi Hp Hlen. unfold make_row.
    apply (fill_row_pad cols 0 _ _ col i Hi Hp). simpl. exact Hlen. }
  split; [reflexivity|]. split; [reflexivity|]. split; [reflexivity|].
  intros r Hin. apply list_elem_of_singleton in Hin. subst r.
  split; [reflexivity|]. split; [reflexivity | discriminate].
Qed.

Lemma tokenizer_quote_rule_witness :
  (Str.mem Str.quote "New York, NY" = false
   /\ Str.trim "New York, NY" = "New York, NY")
  /\ parseCSVLine Example.city = [TokenizerSpec.clean Example.city]
  /\ cell (make_row ["id"; "city"; "zip"] Example.city_line) "city"
     = Some (Text "New York, NY")
  /\ cell (make_row ["city"; "state"; "zip"] "Boston,MA") "zip"
     = Some (Text EmptyString).
Proof.
  destruct tokenizer_quote_rule as (_ & Hfield & Hone & Hread & Hpad & _).
  split; [|split; [|split]].
  - apply (Hfield Example.city). vm_compute. apply list_elem_of_here.
  - apply Hone. intros pre post.
    apply (commas_quoted_parity Example.city false). reflexivity.
  - apply (Hread ["id"; "city"; "zip"] Example.city_line 1 "city");
      [reflexivity | | discriminate].
    simpl. intros Hin. apply list_elem_of_singleton in Hin. discriminate Hin.
  - apply (Hpad ["city"; "state"; "zip"] "Boston,MA" 2 "zip");
      [reflexivity | discriminate |].
    vm_compute. lia.
Defined.

(** C10, as the code has it.  Fields past the header's length are
    stored nowhere: a row is built from the first [length columns]
    fields only, so trailing extras change no row, and the keys of a row
    are names of the header.  The metrics, the charts, the insights, the
    recommendations and the overview but for [memoryUsage] are those of
    the rows and the header; [memoryUsage] is computed from the length
    of the raw text, extra fields included. *)
Theorem extra_fields_discarded :
  (forall (cols : list string) (line : string),
      make_row cols line
      = fill_row cols 0 (take (length cols) (parseCSVLine line)) Obj.empty)
  /\ (forall (cols values extra : list string),
        length cols <= length values ->
        fill_row cols 0 (values ++ extra) Obj.empty
        = fill_row cols 0 values Obj.empty)
  /\ (forall (cols : list string) (line k : string),
        k <> Obj.proto ->
        (k ∈ map fst (make_row cols line) <-> k ∈ cols))
  /\ (forall (E : Engine) (this this' : DataAnalyzer),
        data this = data this' -> columns this = columns this' ->
        let o := getDataOverview E this in
        let o' := getDataOverview E this' in
        generateMetrics E this = generateMetrics E this'
        /\ generateCharts E this = generateCharts E this'
        /\ generateInsights E this = generateInsights E this'
        /\ generateRecommendations E this = generateRecommendations E this'
        /\ DataOverview.totalRows o = DataOverview.totalRows o'
        /\ DataOverview.totalColumns o = DataOverview.totalColumns o'
        /\ DataOverview.columns o = DataOverview.columns o'
        /\ DataOverview.missingValues o = DataOverview.missingValues o'
        /\ DataOverview.duplicateRows o = DataOverview.duplicateRows o'
        /\ (String.length (rawData this) = String.length (rawData this') ->
            DataOverview.memoryUsage o = DataOverview.memoryUsage o')).
Proof.
  split; [|split; [|split]].
  - intros cols line. unfold make_row. apply fill_row_ext.
    intros j Hj. simpl. now rewrite lookup_take_lt.
  - intros cols values extra Hlen. apply fill_row_ext.
    intros j Hj. simpl. apply lookup_app_l. lia.
  - intros cols line k Hp. unfold make_row. rewrite fill_row_keys.
    unfold Obj.empty. simpl. rewrite elem_of_nil. tauto.
  - intros E this this' Hd Hc o o'.
    destruct (analysis_of_rows E this this' Hd Hc) as (Hm & Hch & Hi & Hr).
    destruct (overview_of_rows E this this' Hd Hc) as (H1 & H2 & H3 & H4 & H5).
    repeat (split; [assumption|]).
    intros Hlen. subst o o'.
    now rewrite (getDataOverview_reads E this this' Hd Hc Hlen).
Qed.

Lemma extra_fields_discarded_witness :
  fill_row ["a"; "b"] 0 (["1"; "2"] ++ ["3"; "4"]) Obj.empty
  = fill_row ["a"; "b"] 0 ["1"; "2"] Obj.empty
  /\ ("a" ∈ map fst (make_row ["a"; "b"] "1,2,3,4") <-> "a" ∈ ["a"; "b"]).
Proof.
  destruct extra_fields_discarded as (_ & Hdrop & Hkeys & _).
  split; [apply Hdrop; simpl; lia | apply Hkeys; discriminate].
Defined.

(** C10 as stated fails: the field past the header in the row of
    [Example.wide] is in no row, and the two tables have the same rows
    and the same header, but it is counted in [memoryUsage], and the two
    analyses differ. *)
Lemma extra_field_in_memory_usage :
  (exists this this',
      parseCSV Example.narrow = Ok this /\ parseCSV Example.wide = Ok this'
      /\ data this = data this' /\ columns this = columns this'
      /\ DataOverview.memoryUsage (getDataOverview Sample.engine this) = "0 KB"
      /\ DataOverview.memoryUsage (getDataOverview Sample.engine this') = "1 KB")
  /\ analyze Sample.engine Example.narrow <> analyze Sample.engine Example.wide.
Proof.
  split.
  - eexists _, _. split; [reflexivity|]. split; [reflexivity|].
    repeat split.
  - vm_compute. discriminate.
Qed.

(** ** The overview *)

Section Overview.

Lemma length_remove_dups_le {A} `{EqDecision A} (l : list A) :
  length (remove_dups l) <= length l.
Proof.
  induction l as [|x l IH]; simpl; [lia|].
  destruct (decide_rel elem_of x l); simpl; lia.
Qed.

Lemma remove_dups_nonempty {A} `{EqDecision A} (l : list A) :
  l <> [] -> 1 <= length (remove_dups l).
Proof.
  destruct l as [|x l]; [congruence|]. intros _.
  assert (x ∈ remove_dups (x :: l)) as Hin
      by (apply elem_of_remove_dups, list_elem_of_here).
  destruct (remove_dups (x :: l)); [now apply elem_of_nil in Hin | simpl; lia].
Qed.

Lemma fold_left_sum {A} (f : A -> nat) (l : list A) (acc : nat) :
  fold_left (fun sum x => sum + f x) l acc = acc + sum_list (map f l).
Proof.
  revert acc. induction l as [|x l IH]; intros acc; simpl; [lia|].
  rewrite IH. lia.
Qed.

Lemma length_nonEmpty (values : list (option value)) :
  length (nonEmpty values) <= length values.
Proof.
  induction values as [|v values IH]; simpl; [lia|].
  destruct v as [[s|k]|]; [destruct (Str.is_empty s)| |]; simpl; lia.
Qed.

Lemma split_nonempty (sep : ascii) (s : string) : Str.split sep s <> [].
Proof.
  destruct s as [|c s]; simpl; [discriminate|].
  destruct (Str.char_eqb c sep); [discriminate|].
  destruct (Str.split sep s); discriminate.
Qed.

(** What [parseCSV] returns when it returns. *)
Lemma parseCSV_Ok (text : string) (this : DataAnalyzer) :
  parseCSV text = Ok this ->
  exists header rest,
    Str.split Str.newline (Str.trim text) = header :: rest
    /\ rest <> []
    /\ this = {| data := map (make_row (header_columns header)) rest;
                 columns := header_columns header;
                 rawData := text |}.
Proof.
  unfold parseCSV.
  destruct (Str.split Str.newline (Str.trim text)) as [|header rest] eqn:Hs.
  - simpl. discriminate.
  - destruct (length (header :: rest) <? 2) eqn:Hlen; [discriminate|].
    intros [= <-]. exists header, rest. split; [reflexivity|]. split; [|reflexivity].
    apply Nat.ltb_ge in Hlen. destruct rest; [simpl in Hlen; lia | discriminate].
Qed.

Lemma parseCSV_rows (text : string) (this : DataAnalyzer) :
  parseCSV text = Ok this -> data this <> [].
Proof.
  intros H. apply parseCSV_Ok in H as (header & rest & _ & Hrest & ->).
  simpl. destruct rest; [congruence | discriminate].
Qed.

End Overview.

(** C6.  For every table that parses, the overview's [missingValues] is
    the sum of the columns' [nullCount], and [duplicateRows] is the row
    count less the number of distinct row signatures, which lies
    between 0 and [totalRows - 1]. *)
Theorem overview_invariants (E : Engine) (text : string) (this : DataAnalyzer) :
  parseCSV text = Ok this ->
  let overview := getDataOverview E this in
  DataOverview.missingValues overview
  = sum_list (map ColumnInfo.nullCount (DataOverview.columns overview))
  /\ DataOverview.duplicateRows overview
     + length (remove_dups (map JSON.stringify (data this)))
     = DataOverview.totalRows overview
  /\ (0 <= Z.of_nat (DataOverview.duplicateRows overview)
      <= Z.of_nat (DataOverview.totalRows overview) - 1)%Z.
Proof.
  intros Hparse. apply parseCSV_rows in Hparse.
  unfold getDataOverview. simpl.
  pose proof (length_remove_dups_le (map JSON.stringify (data this))) as Hle.
  assert (1 <= length (remove_dups (map JSON.stringify (data this)))) as Hpos.
  { apply remove_dups_nonempty. destruct (data this); [congruence | discriminate]. }
  rewrite length_map in Hle.
  split; [|split].
  - now rewrite fold_left_sum.
  - lia.
  - lia.
Qed.

Lemma overview_invariants_witness :
  let overview := getDataOverview Sample.engine Example.sales_table in
  DataOverview.missingValues overview
  = sum_list (map ColumnInfo.nullCount (DataOverview.columns overview))
  /\ DataOverview.duplicateRows overview
     + length (remove_dups (map JSON.stringify (data Example.sales_table)))
     = DataOverview.totalRows overview
  /\ (0 <= Z.of_nat (DataOverview.duplicateRows overview)
      <= Z.of_nat (DataOverview.totalRows overview) - 1)%Z.
Proof.
  apply (overview_invariants Sample.engine Example.sales). reflexivity.
Defined.

(** ** Thresholds *)

Section Thresholds.

Lemma threshold_Qle (k n : nat) (a : Z) (b : positive) :
  (inject_Z (Z.of_nat k) <= Qred (inject_Z (Z.of_nat n) * Qred (a # b)))%Q
  <-> (Z.of_nat k * Z.pos b <= Z.of_nat n * a)%Z.
Proof.
  rewrite !Qred_correct. unfold Qle. simpl. lia.
Qed.

Lemma threshold_Qle' (k n : nat) (a : Z) (b : positive) :
  (Qred (inject_Z (Z.of_nat n) * Qred (a # b)) <= inject_Z (Z.of_nat k))%Q
  <-> (Z.of_nat n * a <= Z.of_nat k * Z.pos b)%Z.
Proof.
  rewrite !Qred_correct. unfold Qle. simpl. lia.
Qed.

(** [count > total * (a / b)] on exact numbers. *)
Lemma exceeds_spec (k n : nat) (a : Z) (b : positive) :
  exceeds k n (a # b) = (Z.of_nat n * a <? Z.of_nat k * Z.pos b)%Z.
Proof.
  unfold exceeds, Num.gtb, Num.ltb, Num.mul, Num.of_nat, Num.of_Z, Num.fin.
  apply eq_true_iff_eq.
  rewrite negb_true_iff, Z.ltb_lt, <- not_true_iff_false, Qle_bool_iff.
  rewrite threshold_Qle. lia.
Qed.

(** [count < total * (a / b)] on exact numbers. *)
Lemma below_spec (k n : nat) (a : Z) (b : positive) :
  below k n (a # b) = (Z.of_nat k * Z.pos b <? Z.of_nat n * a)%Z.
Proof.
  unfold below, Num.ltb, Num.mul, Num.of_nat, Num.of_Z, Num.fin.
  apply eq_true_iff_eq.
  rewrite negb_true_iff, Z.ltb_lt, <- not_true_iff_false, Qle_bool_iff.
  rewrite threshold_Qle'. lia.
Qed.

Lemma exceeds_80 (k n : nat) : exceeds k n (8 # 10) = (4 * n <? 5 * k).
Proof.
  rewrite exceeds_spec. apply eq_true_iff_eq.
  rewrite Z.ltb_lt, Nat.ltb_lt. lia.
Qed.

Lemma below_50 (k n : nat) : below k n (5 # 10) = (2 * k <? n).
Proof.
  rewrite below_spec. apply eq_true_iff_eq.
  rewrite Z.ltb_lt, Nat.ltb_lt. lia.
Qed.

End Thresholds.

(** ** The column classifier *)

Section Classifier.

Variable E : Engine.

Lemma detect_type (name : string) (values : list (option value)) :
  ColumnInfo.type (detectColumnType E name values)
  = if 4 * length (nonEmpty values) <? 5 * numericCount values then numeric
    else if 4 * length (nonEmpty values) <? 5 * dateCount E values then datetime
    else categorical.
Proof.
  unfold detectColumnType, numericCount, dateCount. simpl.
  now rewrite !exceeds_80.
Qed.

Lemma detect_numeric (name : string) (values : list (option value)) :
  bool_decide (ColumnInfo.type (detectColumnType E name values) = numeric)
  = (4 * length (nonEmpty values) <? 5 * numericCount values).
Proof.
  rewrite detect_type.
  destruct (4 * length (nonEmpty values) <? 5 * numericCount values);
    [reflexivity|].
  destruct (4 * length (nonEmpty values) <? 5 * dateCount E values); reflexivity.
Qed.

End Classifier.

(** C3, as the code has it.  A column is [numeric] when strictly more
    than 80% of its non-empty values are numbers; otherwise [datetime]
    when strictly more than 80% of them parse as dates; otherwise
    [categorical].  A column in which exactly 80% of the non-empty values
    are numbers is not [numeric]. *)
Theorem column_type_thresholds :
  (forall (E : Engine) (name : string) (values : list (option value)),
      ColumnInfo.type (detectColumnType E name values)
      = if 4 * length (nonEmpty values) <? 5 * numericCount values then numeric
        else if 4 * length (nonEmpty values) <? 5 * dateCount E values then datetime
        else categorical)
  /\ (forall (E : Engine) (name : string) (values : list (option value)),
        5 * numericCount values = 4 * length (nonEmpty values) ->
        ColumnInfo.type (detectColumnType E name values) <> numeric).
Proof.
  split; [exact detect_type|].
  intros E name values Heq. rewrite detect_type.
  assert ((4 * length (nonEmpty values) <? 5 * numericCount values) = false)
    as -> by (apply Nat.ltb_ge; lia).
  destruct (4 * length (nonEmpty values) <? 5 * dateCount E values); discriminate.
Qed.

Lemma column_type_thresholds_witness :
  ColumnInfo.type (detectColumnType Sample.engine "score" Example.scores) <> numeric.
Proof.
  destruct column_type_thresholds as [_ H]. apply H. reflexivity.
Defined.

(** C3 as stated fails: four of the five values of [Example.scores] are
    numbers, which is 80% of them, and the column is [categorical]. *)
Lemma column_type_at_80_percent :
  length (nonEmpty Example.scores) = 5
  /\ numericCount Example.scores = 4
  /\ ColumnInfo.type (detectColumnType Sample.engine "score" Example.scores)
     = categorical.
Proof. repeat split. Qed.

(** C4, as the code has it.  The role is the first that applies of:
    [revenue], [customer] and [date] by the prefix of the lower-cased
    name; [category] when the column is not [numeric] and its distinct
    values are fewer than half of its non-empty values; [quantity] when
    the column is [numeric]; none.  A column whose name starts with a
    revenue prefix has role [revenue] whatever its values. *)
Theorem business_role_priority :
  (forall (E : Engine) (name : string) (values : list (option value)),
      let info := detectColumnType E name values in
      let lowerName := Str.toLowerCase name in
      let isNumeric := bool_decide (ColumnInfo.type info = numeric) in
      ColumnInfo.businessType info
      = if Str.test_prefix revenue_prefixes lowerName then Some revenue
        else if Str.test_prefix customer_prefixes lowerName then Some customer
        else if Str.test_prefix date_prefixes lowerName then Some date
        else if negb isNumeric
                && (2 * ColumnInfo.uniqueValues info <? length (nonEmpty values))
             then Some category
        else if isNumeric then Some quantity
        else None)
  /\ (forall (E : Engine) (name : string) (values : list (option value)),
        Str.test_prefix revenue_prefixes (Str.toLowerCase name) = true ->
        ColumnInfo.businessType (detectColumnType E name values) = Some revenue)
  /\ (forall (E : Engine) (values : list (option value)),
        ColumnInfo.businessType (detectColumnType E "revenue" values)
        = Some revenue).
Proof.
  assert (Hrev : forall E name values,
             Str.test_prefix revenue_prefixes (Str.toLowerCase name) = true ->
             ColumnInfo.businessType (detectColumnType E name values)
             = Some revenue).
  { intros E name values H. unfold detectColumnType.
    cbn [ColumnInfo.businessType]. now rewrite H. }
  split; [|split].
  - intros E name values info lowerName isNumeric.
    subst isNumeric info. rewrite detect_numeric.
    unfold detectColumnType, numericCount.
    cbn [ColumnInfo.businessType ColumnInfo.uniqueValues].
    rewrite exceeds_80, below_50. fold lowerName.
    destruct (Str.test_prefix revenue_prefixes lowerName); [reflexivity|].
    rewrite andb_true_r. reflexivity.
  - exact Hrev.
  - intros E values. now apply Hrev.
Qed.

Lemma business_role_priority_witness :
  ColumnInfo.businessType
    (detectColumnType Sample.engine "Sales_Total" Example.scores)
  = Some revenue.
Proof.
  destruct business_role_priority as (_ & H & _). apply H. reflexivity.
Defined.

(** C4 as stated fails: the column [Example.visits] is [datetime], not
    [categorical], and its role is [category]. *)
Lemma datetime_column_with_role_category :
  let info := detectColumnType Sample.engine "when" Example.visits in
  ColumnInfo.type info = datetime
  /\ ColumnInfo.businessType info = Some category.
Proof. split; reflexivity. Qed.

(** ** Metrics *)

Section Metrics.

Lemma parsed_values_rows (this : DataAnalyzer) (name : string) :
  parsed_values this name
  = map (fun r => Num.parseFloat (ToString (cell r name)))
      (filter (fun r => Num.isNaN (Num.parseFloat (ToString (cell r name))) = false)
         (data this)).
Proof.
  unfold parsed_values. induction (data this) as [|r rows IH]; [reflexivity|].
  rewrite map_cons, !filter_cons. simpl.
  destruct (decide (Num.isNaN (Num.parseFloat (ToString (cell r name))) = false));
    simpl; now rewrite IH.
Qed.

(** The parsed values of a table are those of its rows, one after the
    other: a row whose cell does not parse gives none, a row whose cell
    parses gives its value. *)
Lemma parsed_values_app (rows rows' : list row) (cols : list string)
    (raw name : string) :
  parsed_values {| data := rows ++ rows'; columns := cols; rawData := raw |} name
  = parsed_values {| data := rows; columns := cols; rawData := raw |} name
    ++ parsed_values {| data := rows'; columns := cols; rawData := raw |} name.
Proof.
  unfold parsed_values. cbn [data]. now rewrite map_app, filter_app.
Qed.

Lemma parsed_values_one (r : row) (cols : list string) (raw name : string) :
  parsed_values {| data := [r]; columns := cols; rawData := raw |} name
  = if Num.isNaN (revenue_of_name name r) then []
    else [revenue_of_name name r].
Proof.
  unfold parsed_values, revenue_of_name. cbn [data map].
  rewrite filter_cons, filter_nil.
  destruct (decide (Num.isNaN (Num.parseFloat (ToString (cell r name))) = false))
    as [H|H].
  - now rewrite H.
  - apply not_false_is_true in H. now rewrite H.
Qed.

End Metrics.

(** C7, as the code has it.  When a revenue column exists, the metrics
    hold, for the first one in column order, "Total Revenue" (currency,
    trend up), the sum of the values of the column that parse, and
    "Average Order Value" (currency), that sum divided by how many
    parse, or 0 when none does.  A row whose cell does not parse adds to
    neither the sum nor the count: the values are those of the table
    without it; a row whose cell parses adds its value, at its place
    among the rows.  The sum is the one of JavaScript, which adds in
    binary64 from the first row on.  On the table of the design document
    Total Revenue is 60. *)
Theorem revenue_metrics :
  (forall (E : Engine) (this : DataAnalyzer) (col : ColumnInfo.t)
          (others : list ColumnInfo.t),
      List.filter is_revenue_column (DataOverview.columns (getDataOverview E this))
      = col :: others ->
      let values := parsed_values this (ColumnInfo.name col) in
      Metric.mk "Total Revenue" (Num.sum values) (Some currency) (Some up)
        ∈ generateMetrics E this
      /\ Metric.mk "Average Order Value"
           (if 0 <? length values
            then Num.over (Num.sum values) (Num.of_nat (length values))
            else Num.zero)
           (Some currency) None
           ∈ generateMetrics E this)
  /\ (forall (before after : list row) (r : row) (cols : list string)
             (raw name : string),
        let table rows := {| data := rows; columns := cols; rawData := raw |} in
        parsed_values (table (before ++ r :: after)) name
        = parsed_values (table before) name
          ++ (if Num.isNaN (revenue_of_name name r) then []
              else [revenue_of_name name r])
          ++ parsed_values (table after) name)
  /\ Metric.mk "Total Revenue" (Num.of_Z 60) (Some currency) (Some up)
       ∈ generateMetrics Sample.engine Example.sales_table
  /\ Metric.mk "Total Revenue" (Num.of_Z 9007199254740992) (Some currency)
       (Some up)
       ∈ generateMetrics Sample.engine Example.large_table.
Proof.
  split; [|split; [|split]].
  - intros E this col others Hcols values. unfold generateMetrics.
    rewrite Hcols. fold values.
    destruct (0 <? DataOverview.missingValues (getDataOverview E this));
      rewrite ?elem_of_app, !elem_of_cons; tauto.
  - intros before after r cols raw name table. subst table. cbn beta.
    pose proof (parsed_values_app [r] after cols raw name) as Hr.
    cbn [app] in Hr.
    now rewrite parsed_values_app, Hr, parsed_values_one.
  - vm_compute. do 2 apply list_elem_of_further. apply list_elem_of_here.
  - vm_compute. do 2 apply list_elem_of_further. apply list_elem_of_here.
Qed.

Lemma revenue_metrics_witness :
  let values := parsed_values Example.sales_table "amount" in
  Metric.mk "Total Revenue" (Num.sum values) (Some currency) (Some up)
    ∈ generateMetrics Sample.engine Example.sales_table
  /\ Metric.mk "Average Order Value"
       (if 0 <? length values
        then Num.over (Num.sum values) (Num.of_nat (length values))
        else Num.zero)
       (Some currency) None
       ∈ generateMetrics Sample.engine Example.sales_table.
Proof.
  destruct revenue_metrics as [H _].
  apply (H Sample.engine Example.sales_table
           (ColumnInfo.mk "amount" numeric 3 0 true (Some revenue)) []).
  reflexivity.
Defined.

(** C7 as stated fails: no value of [Example.unpriced] parses, the sum
    divided by the count is [NaN], and Average Order Value is 0. *)
Lemma average_of_no_value :
  parseCSV Example.unpriced = Ok Example.unpriced_table
  /\ generateMetrics Sample.engine Example.unpriced_table
     = [ Metric.mk "Total Records" (Num.of_Z 1) (Some number) None;
         Metric.mk "Data Columns" (Num.of_Z 1) (Some number) None;
         Metric.mk "Total Revenue" Num.zero (Some currency) (Some up);
         Metric.mk "Average Order Value" Num.zero (Some currency) None ]
  /\ (let values := parsed_values Example.unpriced_table "price" in
      Num.over (Num.sum values) (Num.of_nat (length values)) = NaN).
Proof. repeat split. Qed.

(** ** The histogram *)

(** *** Numbers *)

Section Arithmetic.


Lemma is_zero_spec (q : Q) : Num.is_zero q = true <-> (q == 0)%Q.
Proof.
  unfold Num.is_zero, Qeq. simpl. rewrite Z.eqb_eq. lia.
Qed.

Lemma sub_value (x y : num) :
  finite x -> finite y ->
  finite (Num.sub x y) /\ (value_of (Num.sub x y) == value_of x - value_of y)%Q.
Proof.
  destruct x as [| |a], y as [| |b]; try contradiction. intros _ _.
  unfold Num.sub, Num.neg, Num.add, Num.fin. simpl. split; [exact I|].
  rewrite !Qred_correct. reflexivity.
Qed.


Lemma min2_value (x y : num) :
  finite x -> finite y ->
  Num.min2 x y = (if Qle_bool (value_of x) (value_of y) then x else y).
Proof.
  destruct x as [| |a], y as [| |b]; try contradiction. intros _ _.
  unfold Num.min2, Num.ltb. simpl. now destruct (Qle_bool a b).
Qed.

Lemma max2_value (x y : num) :
  finite x -> finite y ->
  Num.max2 x y = (if Qle_bool (value_of y) (value_of x) then x else y).
Proof.
  destruct x as [| |a], y as [| |b]; try contradiction. intros _ _.
  unfold Num.max2, Num.ltb. simpl. now destruct (Qle_bool b a).
Qed.

End Arithmetic.

Section Extremes.

(** The fold of [Math.min] from a finite start: a finite number below
    the start and below every value, and one of them. *)
Lemma fold_min2 (values : list num) :
  forall acc : num,
    finite acc -> Forall finite values ->
    let m := fold_left Num.min2 values acc in
    finite m
    /\ (m = acc \/ m ∈ values)
    /\ (value_of m <= value_of acc)%Q
    /\ Forall (fun v => value_of m <= value_of v)%Q values.
Proof.
  induction values as [|x values IH]; intros acc Hacc Hall; simpl.
  - repeat split; auto. apply Qle_refl.
  - apply Forall_cons in Hall as [Hx Hall].
    assert (finite (Num.min2 acc x)) as Hm.
    { rewrite min2_value by assumption. now destruct (Qle_bool _ _). }
    destruct (IH (Num.min2 acc x) Hm Hall) as (Hf & Hin & Hle & Hbelow).
    assert (value_of (Num.min2 acc x) <= value_of acc
            /\ value_of (Num.min2 acc x) <= value_of x)%Q as [Ha Hxx].
    { rewrite min2_value by assumption.
      destruct (Qle_bool (value_of acc) (value_of x)) eqn:Hc.
      - apply Qle_bool_iff in Hc. split; [apply Qle_refl | exact Hc].
      - apply not_true_iff_false in Hc. rewrite Qle_bool_iff in Hc.
        split; [lra | apply Qle_refl]. }
    repeat split.
    + exact Hf.
    + destruct Hin as [->|Hin].
      * rewrite min2_value by assumption.
        destruct (Qle_bool _ _); [now left | right; apply list_elem_of_here].
      * right. now apply list_elem_of_further.
    + lra.
    + apply Forall_cons. split; [lra | exact Hbelow].
Qed.

Lemma fold_max2 (values : list num) :
  forall acc : num,
    finite acc -> Forall finite values ->
    let m := fold_left Num.max2 values acc in
    finite m
    /\ (m = acc \/ m ∈ values)
    /\ (value_of acc <= value_of m)%Q
    /\ Forall (fun v => value_of v <= value_of m)%Q values.
Proof.
  induction values as [|x values IH]; intros acc Hacc Hall; simpl.
  - repeat split; auto. apply Qle_refl.
  - apply Forall_cons in Hall as [Hx Hall].
    assert (finite (Num.max2 acc x)) as Hm.
    { rewrite max2_value by assumption. now destruct (Qle_bool _ _). }
    destruct (IH (Num.max2 acc x) Hm Hall) as (Hf & Hin & Hle & Habove).
    assert (value_of acc <= value_of (Num.max2 acc x)
            /\ value_of x <= value_of (Num.max2 acc x))%Q as [Ha Hxx].
    { rewrite max2_value by assumption.
      destruct (Qle_bool (value_of x) (value_of acc)) eqn:Hc.
      - apply Qle_bool_iff in Hc. split; [apply Qle_refl | exact Hc].
      - apply not_true_iff_false in Hc. rewrite Qle_bool_iff in Hc.
        split; [lra | apply Qle_refl]. }
    repeat split.
    + exact Hf.
    + destruct Hin as [->|Hin].
      * rewrite max2_value by assumption.
        destruct (Qle_bool _ _); [now left | right; apply list_elem_of_here].
      * right. now apply list_elem_of_further.
    + lra.
    + apply Forall_cons. split; [lra | exact Habove].
Qed.

Lemma min_of_finite (values : list num) :
  values <> [] -> Forall finite values ->
  finite (Num.min values)
  /\ Num.min values ∈ values
  /\ Forall (fun v => value_of (Num.min values) <= value_of v)%Q values.
Proof.
  destruct values as [|x values]; [congruence|]. intros _ Hall.
  apply Forall_cons in Hall as [Hx Hall].
  unfold Num.min. cbn [fold_left].
  assert (Num.min2 (Inf false) x = x) as -> by (destruct x; try contradiction; reflexivity).
  destruct (fold_min2 values x Hx Hall) as (Hf & Hin & Hle & Hbelow).
  split; [exact Hf|]. split.
  - destruct Hin as [->|Hin]; [apply list_elem_of_here | now apply list_elem_of_further].
  - apply Forall_cons. split; assumption.
Qed.

Lemma max_of_finite (values : list num) :
  values <> [] -> Forall finite values ->
  finite (Num.max values)
  /\ Num.max values ∈ values
  /\ Forall (fun v => value_of v <= value_of (Num.max values))%Q values.
Proof.
  destruct values as [|x values]; [congruence|]. intros _ Hall.
  apply Forall_cons in Hall as [Hx Hall].
  unfold Num.max. cbn [fold_left].
  assert (Num.max2 (Inf true) x = x) as -> by (destruct x; try contradiction; reflexivity).
  destruct (fold_max2 values x Hx Hall) as (Hf & Hin & Hle & Habove).
  split; [exact Hf|]. split.
  - destruct Hin as [->|Hin]; [apply list_elem_of_here | now apply list_elem_of_further].
  - apply Forall_cons. split; assumption.
Qed.

End Extremes.

Section Rounding.

Lemma nearest_even_nonneg (a b : Z) :
  (0 <= a)%Z -> (0 < b)%Z -> (0 <= Num.nearest_even a b)%Z.
Proof.
  intros Ha Hb. unfold Num.nearest_even.
  pose proof (Z.div_pos a b Ha Hb).
  destruct (2 * (a mod b) <? b)%Z; [assumption|].
  destruct (b <? 2 * (a mod b))%Z; [lia|].
  destruct (Z.even (a / b)); lia.
Qed.

(** Rounding keeps the sign: the nearest binary64 number to a positive
    quotient is positive, zero or [Infinity]. *)
Lemma double_pos_nonneg (n d : Z) :
  (0 < n)%Z -> (0 < d)%Z -> nonneg (Num.double_pos n d).
Proof.
  intros Hn Hd. unfold Num.double_pos. cbv zeta.
  match goal with |- context [Z.max ?a ?b] => generalize (Z.max a b) end.
  intros ulp.
  destruct (2 ^ (1024 - ulp) <=? _)%Z; [reflexivity|].
  destruct (0 <=? ulp)%Z eqn:Hu.
  - apply Z.leb_le in Hu.
    assert (0 < d * 2 ^ ulp)%Z as Hb
        by (apply Z.mul_pos_pos; [exact Hd | now apply Z.pow_pos_nonneg]).
    pose proof (nearest_even_nonneg n (d * 2 ^ ulp) ltac:(lia) Hb) as Hm.
    simpl. unfold Qle. simpl.
    pose proof (Z.pow_nonneg 2 ulp ltac:(lia)). nia.
  - apply Z.leb_gt in Hu.
    pose proof (Z.pow_pos_nonneg 2 (- ulp) ltac:(lia) ltac:(lia)) as Hp.
    pose proof (nearest_even_nonneg (n * 2 ^ (- ulp)) d ltac:(nia) Hd) as Hm.
    unfold Num.fin. simpl. rewrite Qred_correct. unfold Qle. simpl. lia.
Qed.

Lemma double_nonneg (x : num) : nonneg x -> nonneg (Num.double x).
Proof.
  destruct x as [|b|[n d]]; [contradiction | exact id |].
  destruct n as [|n|n]; intros H.
  - apply Qle_refl.
  - apply double_pos_nonneg; reflexivity.
  - unfold nonneg, Qle in H. simpl in H. lia.
Qed.

(** A result that is 0 is not changed by the rounding. *)
Lemma double_of_zero (x : num) :
  finite x -> (value_of x == 0)%Q -> Num.double x = Num.zero.
Proof.
  destruct x as [| |[n d]]; try contradiction. intros _ H.
  unfold Qeq in H. simpl in H.
  assert (n = 0%Z) as -> by lia. reflexivity.
Qed.

Lemma minus_nonneg (v m : num) :
  finite v -> finite m -> (value_of m <= value_of v)%Q ->
  nonneg (Num.minus v m).
Proof.
  intros Hv Hm Hle. unfold Num.minus. apply double_nonneg.
  destruct (sub_value v m Hv Hm) as [Hf Hs].
  destruct (Num.sub v m); try contradiction. simpl in *. lra.
Qed.

Lemma over_nonneg (x w : num) :
  nonneg x -> finite w -> (0 < value_of w)%Q -> nonneg (Num.over x w).
Proof.
  intros Hx Hw Hpos. unfold Num.over. apply double_nonneg.
  destruct w as [| |w]; try contradiction. simpl in Hpos.
  assert (Num.is_neg w = false) as Hneg.
  { unfold Num.is_neg. apply Z.ltb_ge. unfold Qlt in Hpos. simpl in Hpos. lia. }
  assert (Num.is_zero w = false) as Hzero.
  { apply not_true_iff_false. rewrite is_zero_spec. lra. }
  destruct x as [|b|t]; simpl in Hx; [contradiction| |].
  - subst b. simpl. now rewrite Hneg.
  - simpl. rewrite Hzero. unfold Num.fin. simpl. rewrite Qred_correct.
    apply Qle_shift_div_l; [exact Hpos | lra].
Qed.

Lemma minus_self (v : num) : finite v -> Num.minus v v = Num.zero.
Proof.
  intros Hv. unfold Num.minus.
  destruct (sub_value v v Hv Hv) as [Hf Hs].
  apply double_of_zero; [exact Hf | rewrite Hs; ring].
Qed.

End Rounding.

Section Histogram.

Lemma sum_list_alter (bins : list nat) (i : nat) :
  i < length bins -> sum_list (alter S i bins) = S (sum_list bins).
Proof.
  revert i. induction bins as [|b bins IH]; intros i Hi; simpl in Hi; [lia|].
  destruct i as [|i]; [simpl; lia|].
  change (alter S (S i) (b :: bins)) with (b :: alter S i bins).
  cbn [sum_list sum_list_with]. fold (sum_list (alter S i bins)).
  rewrite IH by lia. fold (sum_list bins). lia.
Qed.

(** The floor of a number that is 0 or more, capped at 9, is one of the
    indices 0 to 9. *)
Lemma capped_index (x : num) :
  nonneg x ->
  exists i, Num.to_index (Num.min2 (Num.floor x) (Fin (9 # 1))) = Some i
            /\ i < 10.
Proof.
  destruct x as [|b|t]; [contradiction| |].
  - intros Hb. simpl in Hb. subst b. exists 9. split; [reflexivity | lia].
  - intros Ht. simpl in Ht. cbn [Num.floor].
    assert (0 <= Qfloor t)%Z as Hz.
    { change 0%Z with (Qfloor 0). now apply Qfloor_resp_le. }
    rewrite min2_value by exact I.
    change (value_of (Num.of_Z (Qfloor t))) with (inject_Z (Qfloor t)).
    change (value_of (Fin (9 # 1))) with (9 # 1)%Q.
    destruct (Qle_bool (inject_Z (Qfloor t)) (9 # 1)) eqn:Hc.
    + apply Qle_bool_iff in Hc. unfold Qle in Hc. simpl in Hc.
      exists (Z.to_nat (Qfloor t)). split; [|lia].
      unfold Num.to_index, Num.of_Z. simpl.
      assert ((0 <=? Qfloor t)%Z = true) as -> by (apply Z.leb_le; lia).
      reflexivity.
    + exists 9. split; [reflexivity | lia].
Qed.

(** A finite value at or above the minimum falls into one of the bins
    0 to 9, when the width of the bins is finite and more than 0. *)
Lemma bin_of_in_range (m w v : num) :
  finite m -> finite w -> finite v ->
  (0 < value_of w)%Q -> (value_of m <= value_of v)%Q ->
  exists i, Num.to_index (bin_of m w 10 v) = Some i /\ i < 10.
Proof.
  intros Hm Hw Hv Hpos Hle. unfold bin_of.
  change (Num.minus (Num.of_nat 10) (Num.of_Z 1)) with (Fin (9 # 1)).
  apply capped_index, over_nonneg; [|assumption..].
  now apply minus_nonneg.
Qed.

Lemma fill_bins (m w : num) (values : list num) :
  finite m -> finite w -> (0 < value_of w)%Q ->
  Forall (fun v => finite v /\ value_of m <= value_of v)%Q values ->
  forall bins : list nat,
    length bins = 10 ->
    let bins' :=
      fold_left (fun bins value => increment bins (bin_of m w 10 value))
        values bins in
    length bins' = 10 /\ sum_list bins' = sum_list bins + length values.
Proof.
  intros Hm Hw Hpos.
  induction values as [|v values IH]; intros Hall bins Hlen;
    cbn [fold_left length].
  - split; [exact Hlen | lia].
  - apply Forall_cons in Hall as [[Hv Hle] Hall].
    destruct (bin_of_in_range m w v Hm Hw Hv Hpos Hle) as (i & Hi & Hlt).
    assert (increment bins (bin_of m w 10 v) = alter S i bins) as ->.
    { unfold increment. now rewrite Hi. }
    destruct (IH Hall (alter S i bins)) as [Hl Hs].
    + now rewrite length_alter.
    + split; [exact Hl|]. rewrite Hs, sum_list_alter by lia. lia.
Qed.

(** X17.  The histogram of finite values, when the width of the bins,
    a tenth of their range as binary64 computes it, is a finite number
    above 0: ten counts that sum to the number of values.  (The width is
    0 when the values are equal, or so close that a tenth of their range
    rounds to 0; it is infinite when the range is beyond the largest
    number.) *)
Lemma histogram_counts (values : list num) :
  Forall finite values ->
  finite (width values) -> (0 < value_of (width values))%Q ->
  let bins := snd (createHistogramBins values 10) in
  length bins = 10 /\ sum_list bins = length values.
Proof.
  intros Hall Hwf Hwpos.
  destruct values as [|v0 values'] eqn:Hvalues.
  { exfalso. vm_compute in Hwf. exact Hwf. }
  rewrite <- Hvalues in *.
  assert (values <> []) as Hne by (rewrite Hvalues; discriminate).
  destruct (min_of_finite values Hne Hall) as (Hmf & _ & Hmin).
  assert (Forall (fun v => finite v /\ value_of (Num.min values) <= value_of v)%Q
            values) as Hboth.
  { rewrite Forall_forall in *. intros v Hv. split; auto. }
  exact (fill_bins (Num.min values) (width values) values Hmf Hwf Hwpos Hboth
           (replicate 10 0) eq_refl).
Qed.

Lemma fold_min2_same (v : num) (n : nat) :
  finite v -> fold_left Num.min2 (replicate n v) v = v.
Proof.
  intros Hv. induction n as [|n IH]; [reflexivity|].
  cbn [replicate fold_left]. rewrite min2_value by assumption.
  now destruct (Qle_bool _ _).
Qed.

Lemma fold_max2_same (v : num) (n : nat) :
  finite v -> fold_left Num.max2 (replicate n v) v = v.
Proof.
  intros Hv. induction n as [|n IH]; [reflexivity|].
  cbn [replicate fold_left]. rewrite max2_value by assumption.
  now destruct (Qle_bool _ _).
Qed.

(** With a width of 0 the index of the minimum is [0 / 0]. *)
Lemma bin_of_zero_width (v : num) (binCount : nat) :
  finite v -> bin_of v Num.zero binCount v = NaN.
Proof.
  intros Hv. unfold bin_of. now rewrite minus_self.
Qed.

(** X18.  The histogram of equal finite values: the index of each is
    [NaN], and every count stays at 0. *)
Lemma histogram_flat (v : num) (n : nat) :
  finite v ->
  snd (createHistogramBins (replicate (S n) v) 10) = replicate 10 0.
Proof.
  intros Hv. unfold createHistogramBins. cbn [snd].
  assert (Num.min (replicate (S n) v) = v) as ->.
  { unfold Num.min. cbn [replicate fold_left].
    assert (Num.min2 (Inf false) v = v) as ->
        by (destruct v; try contradiction; reflexivity).
    now apply fold_min2_same. }
  assert (Num.max (replicate (S n) v) = v) as ->.
  { unfold Num.max. cbn [replicate fold_left].
    assert (Num.max2 (Inf true) v = v) as ->
        by (destruct v; try contradiction; reflexivity).
    now apply fold_max2_same. }
  rewrite minus_self by assumption.
  change (Num.over Num.zero (Num.of_nat 10)) with Num.zero.
  generalize (replicate 10 0) as bins.
  generalize (S n) as k.
  induction k as [|k IH]; intros bins; [reflexivity|].
  cbn [replicate fold_left].
  rewrite (bin_of_zero_width v 10) by assumption.
  apply IH.
Qed.

End Histogram.

Lemma histogram_counts_witness :
  sum_list (snd (createHistogramBins [Num.of_Z 10; Num.of_Z 20; Num.of_Z 30] 10))
  = 3.
Proof.
  destruct (histogram_counts [Num.of_Z 10; Num.of_Z 20; Num.of_Z 30])
    as [_ H].
  - repeat constructor.
  - exact I.
  - reflexivity.
  - exact H.
Defined.

Lemma histogram_flat_witness :
  snd (createHistogramBins [Num.of_Z 5; Num.of_Z 5] 10) = replicate 10 0.
Proof. apply (histogram_flat (Num.of_Z 5) 1). exact I. Defined.

(** C5 fails on the code.  The two values of [Example.flat] parse and are
    equal: the bin width is 0, the bin index of each value is [NaN], and
    the ten counts stay at 0, so they sum to 0 and not to 2. *)
Theorem histogram_of_equal_values :
  parseCSV Example.flat = Ok Example.flat_table
  /\ parsed_values Example.flat_table "amount" = [Num.of_Z 5; Num.of_Z 5]
  /\ snd (createHistogramBins [Num.of_Z 5; Num.of_Z 5] 10) = replicate 10 0
  /\ (exists result labels dataset,
        analyze Sample.engine Example.flat = Ok result
        /\ AnalysisResult.charts result
           = [ChartData.mk bar "amount Distribution" labels [dataset]]
        /\ Dataset.data dataset = replicate 10 (Numeric Num.zero)).
Proof.
  repeat split.
  eexists _, _, _. split; [vm_compute; reflexivity|]. split; reflexivity.
Qed.

(** ** The revenue trend *)

Section Trend.

Variable E : Engine.

Lemma toISOString_valid (tv : Z) :
  exists iso, JSDate.toISOString (Some tv) = Ok iso.
Proof.
  unfold JSDate.toISOString.
  destruct (JSDate.civil (tv / JSDate.msPerDay)) as [[y m] d]. eauto.
Qed.

(** The only exception of the loop body is the one of [toISOString]. *)
Lemma add_to_day_Throw (dateCol revenueCol : ColumnInfo.t)
    (timeData : Obj.t num) (r : row) (e : exn) :
  add_to_day E dateCol revenueCol timeData r = Throw e -> e = JSDate.invalid_time.
Proof.
  unfold add_to_day, day_key.
  destruct (JSDate.new E (cell r (ColumnInfo.name dateCol))) as [tv|].
  - destruct (toISOString_valid tv) as [iso ->]. simpl.
    destruct (negb _); discriminate.
  - simpl. now intros [= <-].
Qed.

Lemma add_to_day_invalid (dateCol revenueCol : ColumnInfo.t)
    (timeData : Obj.t num) (r : row) :
  JSDate.new E (cell r (ColumnInfo.name dateCol)) = None ->
  add_to_day E dateCol revenueCol timeData r = Throw JSDate.invalid_time.
Proof. unfold add_to_day, day_key. now intros ->. Qed.

Lemma add_to_day_valid (dateCol revenueCol : ColumnInfo.t)
    (timeData : Obj.t num) (r : row) :
  is_Some (JSDate.new E (cell r (ColumnInfo.name dateCol))) ->
  exists timeData', add_to_day E dateCol revenueCol timeData r = Ok timeData'.
Proof.
  unfold add_to_day, day_key. intros [tv ->].
  destruct (toISOString_valid tv) as [iso ->]. simpl.
  destruct (negb _); eauto.
Qed.

Lemma fill_throws (dateCol revenueCol : ColumnInfo.t) (rows : list row) :
  forall (timeData : Obj.t num) (r : row),
    r ∈ rows ->
    JSDate.new E (cell r (ColumnInfo.name dateCol)) = None ->
    forEachM (add_to_day E dateCol revenueCol) rows timeData
    = Throw JSDate.invalid_time.
Proof.
  induction rows as [|x rows IH]; intros timeData r Hin Hr.
  - now apply elem_of_nil in Hin.
  - simpl.
    destruct (add_to_day E dateCol revenueCol timeData x) as [t'|e] eqn:Hx.
    + simpl. apply elem_of_cons in Hin as [->|Hin].
      * rewrite add_to_day_invalid in Hx by assumption. discriminate.
      * now apply (IH t' r).
    + simpl. f_equal. eapply add_to_day_Throw, Hx.
Qed.

Lemma fill_returns (dateCol revenueCol : ColumnInfo.t) (rows : list row) :
  forall timeData : Obj.t num,
    Forall (fun r => is_Some (JSDate.new E (cell r (ColumnInfo.name dateCol)))) rows ->
    exists timeData',
      forEachM (add_to_day E dateCol revenueCol) rows timeData = Ok timeData'.
Proof.
  induction rows as [|x rows IH]; intros timeData Hall; simpl; [eauto|].
  apply Forall_cons in Hall as [Hx Hall].
  destruct (add_to_day_valid dateCol revenueCol timeData x Hx) as [t' ->].
  simpl. now apply IH.
Qed.

Lemma trend_chart_throws (this : DataAnalyzer)
    (dateCol revenueCol : ColumnInfo.t) (r : row) :
  r ∈ data this ->
  JSDate.new E (cell r (ColumnInfo.name dateCol)) = None ->
  trend_chart E this dateCol revenueCol = Throw JSDate.invalid_time.
Proof.
  intros Hin Hr. unfold trend_chart.
  now rewrite (fill_throws dateCol revenueCol (data this) Obj.empty r).
Qed.

Lemma trend_chart_returns (this : DataAnalyzer)
    (dateCol revenueCol : ColumnInfo.t) :
  Forall (fun r => is_Some (JSDate.new E (cell r (ColumnInfo.name dateCol))))
    (data this) ->
  exists chart, trend_chart E this dateCol revenueCol = Ok chart.
Proof.
  intros Hall. unfold trend_chart.
  destruct (fill_returns dateCol revenueCol (data this) Obj.empty Hall)
    as [t' ->].
  simpl. eauto.
Qed.

Lemma generateCharts_throws (this : DataAnalyzer)
    (dateCol revenueCol : ColumnInfo.t) (dates revenues : list ColumnInfo.t)
    (r : row) :
  List.filter is_date_column (DataOverview.columns (getDataOverview E this))
  = dateCol :: dates ->
  List.filter is_revenue_column (DataOverview.columns (getDataOverview E this))
  = revenueCol :: revenues ->
  r ∈ data this ->
  JSDate.new E (cell r (ColumnInfo.name dateCol)) = None ->
  generateCharts E this = Throw JSDate.invalid_time.
Proof.
  intros Hd Hr Hin Hnone. unfold generateCharts. rewrite Hd, Hr.
  now rewrite (trend_chart_throws this dateCol revenueCol r).
Qed.

Lemma generateCharts_Throw (this : DataAnalyzer) (e : exn) :
  generateCharts E this = Throw e -> e = JSDate.invalid_time.
Proof.
  unfold generateCharts.
  destruct (List.filter is_date_column _) as [|dateCol dates];
    [discriminate|].
  destruct (List.filter is_revenue_column _) as [|revenueCol revenues];
    [destruct (List.filter is_category_column _); discriminate|].
  unfold trend_chart.
  destruct (forEachM _ _ _) as [t'|e'] eqn:Hfill; simpl; [discriminate|].
  intros [= <-]. clear -Hfill.
  revert Hfill. generalize (@Obj.empty num).
  induction (data this) as [|x rows IH]; intros t0; simpl; [discriminate|].
  destruct (add_to_day E dateCol revenueCol t0 x) as [t1|e1] eqn:Hx; simpl.
  - apply IH.
  - intros [= <-]. eapply add_to_day_Throw, Hx.
Qed.

End Trend.

(** *** Objects and sorting *)

Section Objects.

Context {V : Type}.
Implicit Types (o : Obj.t V) (k : string) (v : V).

Lemma NoDup_keys_put o k v : NoDup (map fst o) -> NoDup (map fst (Obj.put o k v)).
Proof.
  induction o as [|[k' v'] o IH]; simpl; intros Hnd.
  - apply NoDup_singleton.
  - apply NoDup_cons in Hnd as [Hnot Hnd].
    destruct (String.eqb k' k) eqn:Hk; simpl.
    + apply NoDup_cons. split; assumption.
    + apply NoDup_cons. split; [|now apply IH].
      rewrite elem_of_keys_put. intros [->|Hin]; [|contradiction].
      now rewrite String.eqb_refl in Hk.
Qed.

Lemma NoDup_keys_set o k v : NoDup (map fst o) -> NoDup (map fst (Obj.set o k v)).
Proof.
  unfold Obj.set. destruct (String.eqb k Obj.proto); [trivial|].
  apply NoDup_keys_put.
Qed.

Lemma insert_index_perm (i : Z) (e : string * V) (l : list (Z * (string * V))) :
  Obj.insert_index i e l ≡ₚ (i, e) :: l.
Proof.
  induction l as [|[j e'] l IH]; simpl; [reflexivity|].
  destruct (i <? j)%Z; [reflexivity|].
  rewrite IH. apply Permutation_swap.
Qed.

Lemma indexed_perm o :
  map snd (Obj.indexed o) ≡ₚ List.filter (fun e => Obj.is_index (fst e)) o.
Proof.
  unfold Obj.indexed, Obj.is_index.
  induction o as [|e o IH]; simpl; [reflexivity|].
  destruct (Obj.array_index (fst e)) as [i|] eqn:Hi; simpl.
  - rewrite insert_index_perm. simpl. now rewrite IH.
  - exact IH.
Qed.

Lemma filter_split (P : string * V -> bool) o :
  List.filter P o ++ List.filter (fun e => negb (P e)) o ≡ₚ o.
Proof.
  induction o as [|e o IH]; simpl; [reflexivity|].
  destruct (P e); simpl.
  - now rewrite IH.
  - rewrite <- Permutation_middle. now rewrite IH.
Qed.

(** [Object.entries] lists every property once. *)
Lemma entries_perm o : Obj.entries o ≡ₚ o.
Proof.
  unfold Obj.entries. rewrite indexed_perm.
  apply (filter_split (fun e => Obj.is_index (fst e))).
Qed.

Lemma keys_perm o : Obj.keys o ≡ₚ map fst o.
Proof. unfold Obj.keys. now rewrite entries_perm. Qed.

End Objects.

Section Sorting.

Context {A : Type} (before : A -> A -> bool).

Lemma insert_sorted_perm (x : A) (l : list A) :
  insert_sorted before x l ≡ₚ x :: l.
Proof.
  induction l as [|y l IH]; simpl; [reflexivity|].
  destruct (before x y); [reflexivity|].
  rewrite IH. apply Permutation_swap.
Qed.

Lemma stable_sort_perm (l : list A) : stable_sort before l ≡ₚ l.
Proof.
  unfold stable_sort. induction l as [|x l IH]; simpl; [reflexivity|].
  now rewrite insert_sorted_perm, IH.
Qed.

Hypothesis total : forall a b, before a b = false -> before b a = true.

Let R (a b : A) : Prop := before a b = true.

Lemma insert_sorted_Sorted (x : A) (l : list A) :
  Sorted R l -> Sorted R (insert_sorted before x l).
Proof.
  induction l as [|y l IH]; simpl; intros Hs.
  - repeat constructor.
  - destruct (before x y) eqn:Hxy.
    + constructor; [exact Hs | constructor; exact Hxy].
    + apply Sorted_inv in Hs as [Hs Hhd].
      constructor; [now apply IH|].
      destruct l as [|z l]; simpl.
      * constructor. now apply total.
      * destruct (before x z); constructor.
        -- now apply total.
        -- now apply HdRel_inv in Hhd.
Qed.

Lemma stable_sort_Sorted (l : list A) : Sorted R (stable_sort before l).
Proof.
  unfold stable_sort. induction l as [|x l IH]; simpl; [constructor|].
  now apply insert_sorted_Sorted.
Qed.

End Sorting.

Section KeyOrder.

Lemma ltb_asym (a : string) : forall b, Str.ltb a b = true -> Str.ltb b a = false.
Proof.
  induction a as [|x a IH]; intros [|y b]; simpl; try congruence.
  destruct (Str.code x <? Str.code y)%N eqn:Hxy.
  - intros _. apply N.ltb_lt in Hxy.
    assert ((Str.code y <? Str.code x)%N = false) as -> by (apply N.ltb_ge; lia).
    reflexivity.
  - destruct (Str.code y <? Str.code x)%N; [discriminate|]. apply IH.
Qed.

Lemma leb_total (a b : string) : Str.leb a b = false -> Str.leb b a = true.
Proof.
  unfold Str.leb. rewrite negb_false_iff, negb_true_iff. apply ltb_asym.
Qed.

(** The labels of a chart come out in ascending code-unit order. *)
Lemma sort_keys_Sorted (l : list string) :
  Sorted (fun a b => Str.leb a b = true) (sort_keys l).
Proof. apply stable_sort_Sorted, leb_total. Qed.

Lemma sort_keys_perm (l : list string) : sort_keys l ≡ₚ l.
Proof. apply stable_sort_perm. Qed.

End KeyOrder.

Section DayKeys.

(** No member of [Object.prototype] starts with a digit or a sign. *)
Lemma inherited_head (c : ascii) (r : string) :
  (Str.code c <? 58)%N = true -> Obj.inherited (String c r) = false.
Proof.
  destruct c as [[] [] [] [] [] [] [] []]; intros H;
    try discriminate H; reflexivity.
Qed.

Lemma string_of_uint_head (u : Decimal.uint) (c : ascii) (r : string) :
  NilEmpty.string_of_uint u = String c r -> (Str.code c <? 58)%N = true.
Proof. destruct u; simpl; intros [= <- _]; reflexivity. Qed.

Lemma pad_head (width : nat) (n : Z) :
  0 < width ->
  exists c r, JSDate.pad width n = String c r /\ (Str.code c <? 58)%N = true.
Proof.
  intros Hw. unfold JSDate.pad.
  set (ds := NilEmpty.string_of_uint (N.to_uint (Z.to_N n))).
  destruct (width - String.length ds) as [|k] eqn:Hk.
  - destruct ds as [|c r] eqn:Hds; [simpl in Hk; lia|].
    exists c, r. split; [reflexivity|].
    apply (string_of_uint_head _ c r Hds).
  - simpl. rewrite append_cons. eexists _, _. split; reflexivity.
Qed.

Lemma year_string_head (y : Z) :
  exists c r, JSDate.year_string y = String c r
              /\ (Str.code c <? 58)%N = true.
Proof.
  unfold JSDate.year_string.
  destruct ((0 <=? y)%Z && (y <=? 9999)%Z); [apply pad_head; lia|].
  destruct (y <? 0)%Z; rewrite append_cons; eexists _, _; split; reflexivity.
Qed.

(** A day starts with a digit or a sign: it names no member of
    [Object.prototype], and [timeData] reads and keeps it as a property
    of its own. *)
Lemma day_key_own (E : Engine) (dateCol : ColumnInfo.t) (r : row) (d : string) :
  day_key E dateCol r = Ok d -> Obj.inherited d = false /\ d <> Obj.proto.
Proof.
  unfold day_key.
  destruct (JSDate.new E (cell r (ColumnInfo.name dateCol))) as [tv|];
    [|discriminate].
  unfold JSDate.toISOString.
  destruct (JSDate.civil (tv / JSDate.msPerDay)) as [[y m] dd].
  destruct (year_string_head y) as (c & rest & Hy & Hc).
  rewrite Hy, append_cons. simpl.
  assert (Str.char_eqb c "T" = false) as ->.
  { destruct (Str.char_eqb c "T") eqn:Heq; [|reflexivity].
    apply Ascii.eqb_eq in Heq. subst c. discriminate Hc. }
  destruct (Str.split "T" _) as [|h t]; intros [= <-].
  - split; [now apply inherited_head|]. intros [=].
  - split; [now apply inherited_head|]. intros [= -> _]. discriminate Hc.
Qed.

End DayKeys.

Section Totals.

Lemma Qred_zero (q : Q) : Qnum (Qred q) = 0%Z -> Qred q = 0%Q.
Proof.
  intros H. rewrite <- (Qred_complete _ _ (Qred_correct q)).
  change 0%Q with (Qred 0). apply Qred_complete.
  unfold Qeq. rewrite H. reflexivity.
Qed.

(** A result of [double] that is 0 is the term [Num.zero], and
    [x || 0] gives it back. *)
Lemma neg_zero (x : num) (q : Q) :
  Num.neg x = Fin q -> Num.is_zero q = true -> q = 0%Q.
Proof.
  destruct x as [| |p]; try discriminate. unfold Num.neg, Num.fin.
  intros [= <-] Hz. apply Qred_zero. now apply Z.eqb_eq in Hz.
Qed.

Lemma double_pos_zero (n d : Z) (q : Q) :
  Num.double_pos n d = Fin q -> Num.is_zero q = true -> q = 0%Q.
Proof.
  unfold Num.double_pos. cbv zeta.
  match goal with |- context [Z.max ?a ?b] => generalize (Z.max a b) end.
  intros ulp.
  destruct (2 ^ (1024 - ulp) <=? _)%Z; [discriminate|].
  destruct (0 <=? ulp)%Z.
  - intros [= <-] Hz. unfold Num.is_zero in Hz. simpl in Hz.
    apply Z.eqb_eq in Hz. now rewrite Hz.
  - unfold Num.fin. intros [= <-] Hz. apply Qred_zero. now apply Z.eqb_eq in Hz.
Qed.

Lemma double_zero (x : num) (q : Q) :
  Num.double x = Fin q -> Num.is_zero q = true -> q = 0%Q.
Proof.
  destruct x as [| |[n d]]; try discriminate.
  unfold Num.double. cbn [Qnum Qden].
  destruct n as [|n|n].
  - now intros [= <-].
  - apply double_pos_zero.
  - apply neg_zero.
Qed.

Lemma or_zero_double (x : num) :
  Num.isNaN (Num.double x) = false ->
  or_zero (Some (Num.double x)) = Num.double x.
Proof.
  destruct (Num.double x) as [| |q] eqn:Hd; [discriminate|reflexivity|].
  intros _. simpl. destruct (Num.is_zero q) eqn:Hz; [|reflexivity].
  now rewrite (double_zero x q Hd Hz).
Qed.

(** Adding a finite number to a number gives a number. *)
Lemma plus_finite (x y : num) :
  Num.isNaN x = false -> finite y -> Num.isNaN (Num.plus x y) = false.
Proof.
  destruct x as [|b|p], y as [| |q]; try discriminate; try contradiction;
    intros _ _; [reflexivity|].
  unfold Num.plus, Num.add, Num.fin, Num.double.
  destruct (Qnum (Qred (p + q))) as [|n|n]; [reflexivity| |].
  - pose proof (double_pos_nonneg (Zpos n) (Zpos (Qden (Qred (p + q))))
                  eq_refl eq_refl) as H.
    now destruct (Num.double_pos _ _).
  - pose proof (double_pos_nonneg (Zpos n) (Zpos (Qden (Qred (p + q))))
                  eq_refl eq_refl) as H.
    now destruct (Num.double_pos _ _).
Qed.

Lemma or_zero_not_NaN (x : option num) : Num.isNaN (or_zero x) = false.
Proof.
  destruct x as [[| |q]|]; try reflexivity.
  simpl. now destruct (Num.is_zero q).
Qed.

Lemma Qred_inject (z : Z) : Qred (inject_Z z) = inject_Z z.
Proof.
  unfold Qred, inject_Z.
  pose proof (Z.ggcd_gcd z 1) as Hg.
  pose proof (Z.ggcd_correct_divisors z 1) as Hd.
  destruct (Z.ggcd z 1) as [g [n d]]. simpl in Hg, Hd.
  rewrite Z.gcd_1_r in Hg. subst g. destruct Hd as [Hn Hd].
  assert (n = z) as -> by lia. assert (d = 1%Z) as -> by lia. reflexivity.
Qed.

Lemma nearest_even_pos (a b : Z) :
  (0 < b <= a)%Z -> (0 < Num.nearest_even a b)%Z.
Proof.
  intros Hab. unfold Num.nearest_even.
  pose proof (Z.div_str_pos a b Hab).
  destruct (2 * (a mod b) <? b)%Z; [assumption|].
  destruct (b <? 2 * (a mod b))%Z; [lia|].
  destruct (Z.even (a / b)); lia.
Qed.

Lemma gtb_zero (q : Q) : Num.gtb (Fin q) Num.zero = negb (Qle_bool q 0).
Proof. reflexivity. Qed.

(** A positive integer is rounded to a positive number. *)
Lemma double_pos_integer (n : Z) :
  (0 < n)%Z -> Num.gtb (Num.double_pos n 1) Num.zero = true.
Proof.
  intros Hn. unfold Num.double_pos. cbv zeta.
  change (Z.log2 1) with 0%Z. rewrite Z.sub_0_r.
  pose proof (Z.log2_nonneg n) as Hl.
  destruct (Z.log2_spec n Hn) as [Hlo _].
  replace (0 <=? Z.log2 n)%Z with true by (symmetry; now apply Z.leb_le).
  replace (1 * 2 ^ Z.log2 n <=? n)%Z with true
    by (symmetry; apply Z.leb_le; lia).
  set (ulp := Z.max (Z.log2 n - 52) (-1074)).
  destruct (2 ^ (1024 - ulp) <=? _)%Z; [reflexivity|].
  destruct (0 <=? ulp)%Z eqn:Hu.
  - apply Z.leb_le in Hu.
    assert (2 ^ ulp <= n)%Z as Hle.
    { etransitivity; [|exact Hlo]. apply Z.pow_le_mono_r; lia. }
    pose proof (Z.pow_pos_nonneg 2 ulp ltac:(lia) Hu) as Hp.
    pose proof (nearest_even_pos n (1 * 2 ^ ulp) ltac:(lia)) as Hm.
    rewrite gtb_zero. apply negb_true_iff, not_true_iff_false.
    rewrite Qle_bool_iff. unfold Qle, inject_Z. cbn [Qnum Qden]. nia.
  - apply Z.leb_gt in Hu.
    pose proof (Z.pow_pos_nonneg 2 (- ulp) ltac:(lia) ltac:(lia)) as Hp.
    pose proof (nearest_even_pos (n * 2 ^ (- ulp)) 1 ltac:(nia)) as Hm.
    unfold Num.fin. rewrite gtb_zero. apply negb_true_iff, not_true_iff_false.
    rewrite Qle_bool_iff, Qred_correct. unfold Qle. cbn [Qnum Qden]. lia.
Qed.

(** [b - a] on two counts is positive exactly when [a < b]. *)
Lemma minus_of_nat (a b : nat) :
  Num.gtb (Num.minus (Num.of_nat b) (Num.of_nat a)) Num.zero = (a <? b).
Proof.
  assert (Num.sub (Num.of_nat b) (Num.of_nat a)
          = Num.of_Z (Z.of_nat b - Z.of_nat a)) as Hsub.
  { unfold Num.sub, Num.neg, Num.add, Num.of_nat, Num.of_Z, Num.fin. f_equal.
    rewrite <- (Qred_inject (Z.of_nat b - Z.of_nat a)). apply Qred_complete.
    rewrite Qred_correct. unfold Qeq. simpl. lia. }
  unfold Num.minus. rewrite Hsub. unfold Num.of_Z, Num.double, inject_Z.
  cbn [Qnum Qden].
  destruct (Z.of_nat b - Z.of_nat a)%Z as [|p|p] eqn:Hz.
  - transitivity false; [reflexivity|]. symmetry. apply Nat.ltb_ge. lia.
  - rewrite double_pos_integer by lia. symmetry. apply Nat.ltb_lt. lia.
  - transitivity false; [|symmetry; apply Nat.ltb_ge; lia].
    pose proof (double_pos_nonneg (Zpos p) 1 eq_refl eq_refl) as H.
    destruct (Num.double_pos (Zpos p) 1) as [|negative|q];
      [contradiction| |].
    + simpl in H. now subst negative.
    + unfold Num.neg, Num.fin. rewrite gtb_zero.
      apply negb_false_iff, Qle_bool_iff. rewrite Qred_correct.
      simpl in H. lra.
Qed.

End Totals.

Section Days.

Variable E : Engine.
Variables dateCol revenueCol : ColumnInfo.t.

Local Abbreviation fill := (forEachM (add_to_day E dateCol revenueCol)).

(** One step of the loop on a row whose date is normalised to [d]. *)
Lemma add_to_day_Ok (timeData timeData' : Obj.t num) (r : row) :
  add_to_day E dateCol revenueCol timeData r = Ok timeData' ->
  exists d,
    day_key E dateCol r = Ok d
    /\ timeData'
       = if negb (Num.isNaN (revenue_of revenueCol r))
         then Obj.set timeData d
                (Num.plus (or_zero (Obj.own timeData d))
                   (revenue_of revenueCol r))
         else timeData.
Proof.
  unfold add_to_day.
  destruct (day_key E dateCol r) as [d|e]; simpl; [|discriminate].
  intros H. exists d. split; [reflexivity|].
  destruct (negb _); now injection H as <-.
Qed.

Lemma fill_get (rows : list row) :
  forall (timeData timeData' : Obj.t num) (d : string),
    fill rows timeData = Ok timeData' ->
    Obj.own timeData' d
    = day_total E dateCol revenueCol d rows (Obj.own timeData d).
Proof.
  induction rows as [|r rows IH]; intros t0 t' d; simpl.
  - now intros [= <-].
  - destruct (add_to_day E dateCol revenueCol t0 r) as [t1|e] eqn:Hr; simpl;
      [|discriminate].
    intros Hfill. rewrite (IH t1 t' d Hfill). f_equal.
    apply add_to_day_Ok in Hr as (d' & Hd' & ->).
    unfold counted. rewrite Hd'.
    destruct (day_key_own E dateCol r d' Hd') as [_ Hp].
    destruct (decide (d' = d)) as [->|Hne].
    + rewrite bool_decide_eq_true_2 by reflexivity. simpl.
      destruct (negb _); [now apply own_set_eq | reflexivity].
    + rewrite bool_decide_eq_false_2 by congruence. simpl.
      destruct (negb _); [now apply own_set_ne | reflexivity].
Qed.

Lemma fill_keys (rows : list row) :
  forall (timeData timeData' : Obj.t num) (d : string),
    fill rows timeData = Ok timeData' ->
    d ∈ map fst timeData'
    <-> d ∈ map fst timeData
        \/ exists r, r ∈ rows /\ counted E dateCol revenueCol d r = true.
Proof.
  induction rows as [|r rows IH]; intros t0 t' d; simpl.
  - intros [= <-]. split; [auto|]. intros [H|(r & Hr & _)]; [exact H|].
    now apply elem_of_nil in Hr.
  - destruct (add_to_day E dateCol revenueCol t0 r) as [t1|e] eqn:Hr; simpl;
      [|discriminate].
    intros Hfill. rewrite (IH t1 t' d Hfill).
    apply add_to_day_Ok in Hr as (d' & Hd' & ->).
    destruct (day_key_own E dateCol r d' Hd') as [_ Hp].
    assert (counted E dateCol revenueCol d r = true
            <-> d = d' /\ negb (Num.isNaN (revenue_of revenueCol r)) = true)
      as Hcount.
    { unfold counted. rewrite Hd', andb_true_iff, bool_decide_eq_true.
      split; intros [H1 H2]; split; congruence. }
    destruct (negb (Num.isNaN (revenue_of revenueCol r))) eqn:Hrev.
    + rewrite elem_of_keys_set. split.
      * intros [[[-> _]|H]|(r' & Hin & Hc)]; [right|now left|right].
        -- exists r. split; [apply list_elem_of_here | now apply Hcount].
        -- exists r'. split; [now apply list_elem_of_further | exact Hc].
      * intros [H|(r' & Hin & Hc)]; [now left; right|].
        apply elem_of_cons in Hin as [->|Hin].
        -- left; left. apply Hcount in Hc as [-> _]. now split.
        -- right. eauto.
    + split.
      * intros [H|(r' & Hin & Hc)]; [now left|right].
        exists r'. split; [now apply list_elem_of_further | exact Hc].
      * intros [H|(r' & Hin & Hc)]; [now left|].
        apply elem_of_cons in Hin as [->|Hin].
        -- apply Hcount in Hc as [_ Hc]. discriminate.
        -- right. eauto.
Qed.

Lemma fill_NoDup (rows : list row) :
  forall (timeData timeData' : Obj.t num),
    fill rows timeData = Ok timeData' ->
    NoDup (map fst timeData) -> NoDup (map fst timeData').
Proof.
  induction rows as [|r rows IH]; intros t0 t'; simpl.
  - now intros [= <-].
  - destruct (add_to_day E dateCol revenueCol t0 r) as [t1|e] eqn:Hr; simpl;
      [|discriminate].
    intros Hfill Hnd. apply (IH t1 t' Hfill).
    apply add_to_day_Ok in Hr as (d' & _ & ->).
    destruct (negb _); [now apply NoDup_keys_set | exact Hnd].
Qed.

(** The total the loop keeps for a day is the sum of the revenues of
    the day, each added to the sum of those before it, when none of them
    is infinite: [total || 0] then gives the total back. *)
Lemma day_total_sum (d : string) (rows : list row) :
  Forall (fun r => Num.isNaN (revenue_of revenueCol r) = false ->
                   finite (revenue_of revenueCol r)) rows ->
  forall start : option num,
    or_zero (Some (or_zero start)) = or_zero start ->
    day_total E dateCol revenueCol d rows start
    = match day_revenues E dateCol revenueCol d rows with
      | [] => start
      | revenues => Some (fold_left Num.plus revenues (or_zero start))
      end.
Proof.
  unfold day_total, day_revenues.
  induction rows as [|r rows IH]; intros Hall start Hstart; [reflexivity|].
  apply Forall_cons in Hall as [Hr Hall].
  cbn [fold_left List.filter].
  destruct (counted E dateCol revenueCol d r) eqn:Hc; [|now apply IH].
  assert (finite (revenue_of revenueCol r)) as Hfin.
  { apply Hr. unfold counted in Hc. apply andb_true_iff in Hc as [_ Hc].
    now apply negb_true_iff in Hc. }
  assert (or_zero (Some (Num.plus (or_zero start) (revenue_of revenueCol r)))
          = Num.plus (or_zero start) (revenue_of revenueCol r)) as Hnext.
  { apply or_zero_double.
    apply (plus_finite _ _ (or_zero_not_NaN start) Hfin). }
  rewrite IH; [|exact Hall|now rewrite Hnext].
  cbn [map fold_left]. rewrite Hnext.
  now destruct (map _ (List.filter _ rows)).
Qed.

(** X19.  When every date parses the trend chart is built: its labels
    are the days of the rows whose revenue parses, each once, in
    ascending order; and when no revenue is infinite, each point is the
    sum of the revenues of its day, added in the order of the rows. *)
Lemma trend_points (this : DataAnalyzer) :
  Forall (fun r => is_Some (JSDate.new E (cell r (ColumnInfo.name dateCol))))
    (data this) ->
  exists labels dataset,
    trend_chart E this dateCol revenueCol
    = Ok (ChartData.mk line "Revenue Trend Over Time" labels [dataset])
    /\ Sorted (fun a b => Str.leb a b = true) labels
    /\ NoDup labels
    /\ (forall d, d ∈ labels
                  <-> exists r, r ∈ data this
                                /\ counted E dateCol revenueCol d r = true)
    /\ (Forall (fun r => Num.isNaN (revenue_of revenueCol r) = false ->
                         finite (revenue_of revenueCol r)) (data this) ->
        Dataset.data dataset
        = map (fun d => Numeric (Num.sum (day_revenues E dateCol revenueCol d
                                            (data this))))
            labels).
Proof.
  intros Hall.
  destruct (fill_returns E dateCol revenueCol (data this) Obj.empty Hall)
    as [timeData Hfill].
  unfold trend_chart. rewrite Hfill. simpl.
  eexists _, _. split; [reflexivity|].
  assert (sort_keys (Obj.keys timeData) ≡ₚ map fst timeData) as Hperm.
  { etransitivity; [apply sort_keys_perm | apply keys_perm]. }
  assert (forall d, d ∈ sort_keys (Obj.keys timeData)
                    <-> exists r, r ∈ data this
                                  /\ counted E dateCol revenueCol d r = true)
    as Hlabels.
  { intros d. rewrite Hperm, (fill_keys _ _ _ d Hfill).
    unfold Obj.empty. simpl. rewrite elem_of_nil. tauto. }
  split; [apply sort_keys_Sorted|]. split; [|split; [exact Hlabels|]].
  - rewrite Hperm. apply (fill_NoDup _ _ _ Hfill). constructor.
  - intros Hfinite. simpl. apply map_ext_in. intros d Hd.
    apply list_elem_of_In, Hlabels in Hd as (r & Hr & Hc).
    rewrite (fill_get _ _ _ d Hfill). simpl.
    rewrite (day_total_sum d (data this) Hfinite None eq_refl).
    assert (revenue_of revenueCol r
            ∈ day_revenues E dateCol revenueCol d (data this)) as Hin.
    { unfold day_revenues. apply list_elem_of_fmap. exists r.
      split; [reflexivity|]. apply list_elem_of_In, filter_In.
      split; [now apply list_elem_of_In | exact Hc]. }
    destruct (day_revenues E dateCol revenueCol d (data this)) eqn:Hrev;
      [now apply elem_of_nil in Hin | reflexivity].
Qed.

End Days.

Lemma trend_points_witness :
  exists labels dataset,
    trend_chart Sample.engine Example.sales_table Cases.date Cases.amount
    = Ok (ChartData.mk line "Revenue Trend Over Time" labels [dataset])
    /\ Dataset.data dataset
       = map (fun d => Numeric (Num.sum (day_revenues Sample.engine Cases.date
                                           Cases.amount d
                                           (data Example.sales_table))))
           labels.
Proof.
  destruct (trend_points Sample.engine Cases.date Cases.amount
              Example.sales_table) as (labels & dataset & H & _ & _ & _ & Hsum).
  - repeat constructor; vm_compute; eauto.
  - exists labels, dataset. split; [exact H|]. apply Hsum.
    repeat constructor; intros _; exact I.
Defined.

(** C2 fails on the code.  When a date column and a revenue column
    exist and the date of some row does not parse, that row is not
    skipped: [toISOString] throws on it, the trend chart is not built,
    and [generateCharts] returns no chart at all. *)
Theorem trend_fails_on_unparsed_date (E : Engine) (this : DataAnalyzer)
    (dateCol revenueCol : ColumnInfo.t) (dates revenues : list ColumnInfo.t)
    (r : row) :
  List.filter is_date_column (DataOverview.columns (getDataOverview E this))
  = dateCol :: dates ->
  List.filter is_revenue_column (DataOverview.columns (getDataOverview E this))
  = revenueCol :: revenues ->
  r ∈ data this ->
  JSDate.new E (cell r (ColumnInfo.name dateCol)) = None ->
  trend_chart E this dateCol revenueCol = Throw JSDate.invalid_time
  /\ generateCharts E this = Throw JSDate.invalid_time.
Proof.
  intros Hd Hr Hin Hnone. split.
  - exact (trend_chart_throws E this dateCol revenueCol r Hin Hnone).
  - exact (generateCharts_throws E this dateCol revenueCol dates revenues r
             Hd Hr Hin Hnone).
Qed.

Lemma trend_fails_on_unparsed_date_witness :
  trend_chart Sample.engine Example.undated_table
    (ColumnInfo.mk "date" datetime 1 1 true (Some date))
    (ColumnInfo.mk "amount" numeric 2 0 true (Some revenue))
  = Throw JSDate.invalid_time
  /\ generateCharts Sample.engine Example.undated_table
     = Throw JSDate.invalid_time.
Proof.
  apply (trend_fails_on_unparsed_date Sample.engine Example.undated_table
           _ _ [] [] [("amount", "20"); ("date", "")]).
  - reflexivity.
  - reflexivity.
  - apply list_elem_of_further, list_elem_of_here.
  - reflexivity.
Defined.

(** The table of the design document, whose dates all parse: after the
    histogram comes the trend, with two points, 30 on 2024-01-01 and 30
    on 2024-01-02. *)
Lemma trend_of_sales :
  exists histogram dataset,
    generateCharts Sample.engine Example.sales_table
    = Ok [ histogram;
           ChartData.mk line "Revenue Trend Over Time"
             ["2024-01-01"; "2024-01-02"] [dataset] ]
    /\ Dataset.data dataset = [Numeric (Num.of_Z 30); Numeric (Num.of_Z 30)].
Proof. eexists _, _. split; [vm_compute; reflexivity | reflexivity]. Qed.

(** ** The orchestrator *)

Section Orchestrator.

Variable E : Engine.

Lemma analyze_parsed (text : string) (this : DataAnalyzer) :
  parseCSV text = Ok this ->
  analyze E text
  = (charts ← generateCharts E this;
     Ok (AnalysisResult.mk (getDataOverview E this) (generateMetrics E this)
           charts (generateInsights E this) (generateRecommendations E this))).
Proof. intros H. unfold analyze, analyze_in. now rewrite H. Qed.

Lemma parseCSV_Throw (text : string) :
  length (Str.split Str.newline (Str.trim text)) < 2 <->
  parseCSV text = Throw malformed.
Proof.
  unfold parseCSV.
  destruct (length (Str.split Str.newline (Str.trim text)) <? 2) eqn:Hlen.
  - apply Nat.ltb_lt in Hlen. tauto.
  - apply Nat.ltb_ge in Hlen.
    destruct (Str.split Str.newline (Str.trim text)); simpl in *; [lia|].
    split; [lia | discriminate].
Qed.

(** The malformed-input error is raised on the texts that, once
    trimmed, have fewer than two lines, and on no other. *)
Lemma analyze_malformed (text : string) :
  analyze E text = Throw malformed
  <-> length (Str.split Str.newline (Str.trim text)) < 2.
Proof.
  rewrite parseCSV_Throw. split.
  - intros H. destruct (parseCSV text) as [this|e] eqn:Hp.
    + rewrite (analyze_parsed text this Hp) in H.
      destruct (generateCharts E this) as [charts|e] eqn:Hc; [discriminate|].
      apply generateCharts_Throw in Hc. subst e. discriminate.
    + unfold analyze, analyze_in in H. rewrite Hp in H. simpl in H.
      now injection H as ->.
  - intros H. unfold analyze, analyze_in. now rewrite H.
Qed.

(** A table in which the trend chart meets no date it cannot parse is
    analysed to the end. *)
Lemma analyze_returns (text : string) (this : DataAnalyzer) :
  parseCSV text = Ok this ->
  (forall dateCol dates,
      List.filter is_date_column (DataOverview.columns (getDataOverview E this))
      = dateCol :: dates ->
      List.filter is_revenue_column (DataOverview.columns (getDataOverview E this))
      <> [] ->
      Forall (fun r => is_Some (JSDate.new E (cell r (ColumnInfo.name dateCol))))
        (data this)) ->
  exists result, analyze E text = Ok result.
Proof.
  intros Hp Hdates. rewrite (analyze_parsed text this Hp).
  assert (exists charts, generateCharts E this = Ok charts) as [charts ->];
    [|simpl; eauto].
  unfold generateCharts.
  destruct (List.filter is_date_column _) as [|dateCol dates] eqn:Hd; [eauto|].
  destruct (List.filter is_revenue_column _) as [|revenueCol revenues] eqn:Hr;
    [eauto|].
  destruct (trend_chart_returns E this dateCol revenueCol) as [chart ->].
  - apply (Hdates dateCol dates eq_refl). discriminate.
  - simpl. eauto.
Qed.

End Orchestrator.

(** C1 fails on the code.  A text that parses into a table with a date
    column and a revenue column, one of whose rows has a date that does
    not parse, has at least two lines and is not analysed: the
    exception of [toISOString] leaves [analyze], and it is not the
    malformed-input error. *)
Theorem analysis_fails_on_unparsed_date (E : Engine) (text : string)
    (this : DataAnalyzer) (dateCol revenueCol : ColumnInfo.t)
    (dates revenues : list ColumnInfo.t) (r : row) :
  parseCSV text = Ok this ->
  List.filter is_date_column (DataOverview.columns (getDataOverview E this))
  = dateCol :: dates ->
  List.filter is_revenue_column (DataOverview.columns (getDataOverview E this))
  = revenueCol :: revenues ->
  r ∈ data this ->
  JSDate.new E (cell r (ColumnInfo.name dateCol)) = None ->
  2 <= length (Str.split Str.newline (Str.trim text))
  /\ analyze E text = Throw JSDate.invalid_time
  /\ JSDate.invalid_time <> malformed.
Proof.
  intros Hp Hd Hr Hin Hnone. split; [|split].
  - apply parseCSV_Ok in Hp as (header & rest & -> & Hrest & _).
    destruct rest; [congruence | simpl; lia].
  - rewrite (analyze_parsed E text this Hp).
    now rewrite (generateCharts_throws E this dateCol revenueCol dates revenues r).
  - discriminate.
Qed.

Lemma analysis_fails_on_unparsed_date_witness :
  2 <= length (Str.split Str.newline (Str.trim Example.undated))
  /\ analyze Sample.engine Example.undated = Throw JSDate.invalid_time
  /\ JSDate.invalid_time <> malformed.
Proof.
  apply (analysis_fails_on_unparsed_date Sample.engine Example.undated
           Example.undated_table
           (ColumnInfo.mk "date" datetime 1 1 true (Some date))
           (ColumnInfo.mk "amount" numeric 2 0 true (Some revenue))
           [] [] [("amount", "20"); ("date", "")]).
  - reflexivity.
  - reflexivity.
  - reflexivity.
  - apply list_elem_of_further, list_elem_of_here.
  - reflexivity.
Defined.

(** * Further properties of the code *)

(** ** Failures of an analysis *)

Section Failures.

Variable E : Engine.

(** The row on which the loop stopped. *)
Lemma fill_Throw_row (dateCol revenueCol : ColumnInfo.t) (rows : list row) :
  forall (timeData : Obj.t num) (e : exn),
    forEachM (add_to_day E dateCol revenueCol) rows timeData = Throw e ->
    exists r, r ∈ rows /\ JSDate.new E (cell r (ColumnInfo.name dateCol)) = None.
Proof.
  induction rows as [|x rows IH]; intros timeData e; simpl; [discriminate|].
  destruct (add_to_day E dateCol revenueCol timeData x) as [t'|e'] eqn:Hx; simpl.
  - intros H. destruct (IH t' e H) as (r & Hin & Hr).
    exists r. split; [now apply list_elem_of_further | exact Hr].
  - intros _. exists x. split; [apply list_elem_of_here|].
    destruct (JSDate.new E (cell x (ColumnInfo.name dateCol))) as [tv|] eqn:Hnew;
      [|reflexivity].
    destruct (add_to_day_valid E dateCol revenueCol timeData x) as [t' Ht'].
    + rewrite Hnew. eauto.
    + congruence.
Qed.

Lemma generateCharts_Throw_row (this : DataAnalyzer) (e : exn) :
  generateCharts E this = Throw e ->
  exists dateCol dates revenueCol revenues r,
    List.filter is_date_column (DataOverview.columns (getDataOverview E this))
    = dateCol :: dates
    /\ List.filter is_revenue_column (DataOverview.columns (getDataOverview E this))
       = revenueCol :: revenues
    /\ r ∈ data this
    /\ JSDate.new E (cell r (ColumnInfo.name dateCol)) = None.
Proof.
  unfold generateCharts.
  destruct (List.filter is_date_column _) as [|dateCol dates] eqn:Hd;
    [discriminate|].
  destruct (List.filter is_revenue_column _) as [|revenueCol revenues] eqn:Hr;
    [destruct (List.filter is_category_column _); discriminate|].
  unfold trend_chart.
  destruct (forEachM _ _ _) as [t'|e'] eqn:Hfill; simpl; [discriminate|].
  intros _. apply fill_Throw_row in Hfill as (r & Hin & Hnone).
  exists dateCol, dates, revenueCol, revenues, r. auto.
Qed.

Lemma parseCSV_Throw_only (text : string) (e : exn) :
  parseCSV text = Throw e -> e = malformed.
Proof.
  unfold parseCSV. destruct (length _ <? 2); [now intros [= <-]|].
  destruct (Str.split _ _); [now intros [= <-] | discriminate].
Qed.

Lemma analyze_Throw (text : string) (e : exn) :
  analyze E text = Throw e ->
  (e = malformed /\ length (Str.split Str.newline (Str.trim text)) < 2)
  \/ (e = JSDate.invalid_time
      /\ 2 <= length (Str.split Str.newline (Str.trim text))).
Proof.
  intros H. destruct (parseCSV text) as [this|e'] eqn:Hp.
  - right. rewrite (analyze_parsed E text this Hp) in H.
    destruct (generateCharts E this) as [charts|e''] eqn:Hc; [discriminate|].
    simpl in H. injection H as <-. split; [eapply generateCharts_Throw, Hc|].
    apply parseCSV_Ok in Hp as (header & rest & -> & Hrest & _).
    destruct rest; [congruence | simpl; lia].
  - left. unfold analyze, analyze_in in H. rewrite Hp in H. simpl in H.
    injection H as <-. pose proof (parseCSV_Throw_only text e' Hp) as ->.
    split; [reflexivity|]. now apply parseCSV_Throw.
Qed.

End Failures.

(** X1.  The two ways an analysis fails.  [analyze] throws the
    malformed-input error exactly on the texts that, once trimmed, have
    fewer than two lines; any exception it throws is that error or the
    [RangeError] of [toISOString]. *)
Theorem analysis_exceptions (E : Engine) (text : string) :
  (analyze E text = Throw malformed
   <-> length (Str.split Str.newline (Str.trim text)) < 2)
  /\ (forall e : exn,
        analyze E text = Throw e -> e = malformed \/ e = JSDate.invalid_time).
Proof.
  split; [apply analyze_malformed|].
  intros e H. apply analyze_Throw in H as [[-> _]|[-> _]]; auto.
Qed.

Lemma analysis_exceptions_witness :
  analyze Sample.engine "header only" = Throw malformed.
Proof.
  destruct (analysis_exceptions Sample.engine "header only") as [[_ H] _].
  apply H. vm_compute. lia.
Defined.

(** X2.  When the trend chart stops an analysis, and when it does not.
    A text that parses is analysed to a result unless the first date
    column and the first revenue column both exist and the date cell of
    some row does not parse; in that case, and only then, [analyze]
    throws the [RangeError]. *)
Theorem analysis_result_or_invalid_time (E : Engine) (text : string)
    (this : DataAnalyzer) :
  parseCSV text = Ok this ->
  let bad_date :=
    exists dateCol dates revenueCol revenues r,
      List.filter is_date_column (DataOverview.columns (getDataOverview E this))
      = dateCol :: dates
      /\ List.filter is_revenue_column
           (DataOverview.columns (getDataOverview E this))
         = revenueCol :: revenues
      /\ r ∈ data this
      /\ JSDate.new E (cell r (ColumnInfo.name dateCol)) = None in
  (analyze E text = Throw JSDate.invalid_time <-> bad_date)
  /\ ((exists result, analyze E text = Ok result) <-> ~ bad_date).
Proof.
  intros Hp bad_date. rewrite (analyze_parsed E text this Hp).
  assert (generateCharts E this = Throw JSDate.invalid_time <-> bad_date) as Hiff.
  { split.
    - apply generateCharts_Throw_row.
    - intros (dateCol & dates & revenueCol & revenues & r & Hd & Hr & Hin & Hn).
      exact (generateCharts_throws E this dateCol revenueCol dates revenues r
               Hd Hr Hin Hn). }
  destruct (generateCharts E this) as [charts|e] eqn:Hc; simpl.
  - split.
    + split; [discriminate|]. intros Hb. apply Hiff in Hb. discriminate.
    + split; [|eauto]. intros _ Hb. apply Hiff in Hb. discriminate.
  - pose proof (generateCharts_Throw E this e Hc) as ->.
    split.
    + split; [intros _; now apply Hiff | reflexivity].
    + split; [intros [result H]; discriminate|].
      intros Hnot. exfalso. apply Hnot. now apply Hiff.
Qed.

Lemma analysis_result_or_invalid_time_witness :
  exists result, analyze Sample.engine Example.sales = Ok result.
Proof.
  destruct (analysis_result_or_invalid_time Sample.engine Example.sales
              Example.sales_table eq_refl) as [_ [_ H]].
  apply H.
  intros (dateCol & dates & revenueCol & revenues & r & Hd & _ & Hin & Hn).
  vm_compute in Hd. injection Hd as <- <-.
  repeat (apply elem_of_cons in Hin as [->|Hin]; [vm_compute in Hn; discriminate|]).
  now apply elem_of_nil in Hin.
Defined.

(** ** The parsed table *)

Section Shape.

Lemma length_split (sep : ascii) (s : string) :
  length (Str.split sep s) = S (Str.count sep s).
Proof.
  induction s as [|c s IH]; simpl; [reflexivity|].
  unfold Str.char_eqb in *.
  destruct (Ascii.eqb c sep); simpl; [now rewrite IH|].
  destruct (Str.split sep s); simpl in *; lia.
Qed.

Lemma make_row_own (cols : list string) (line : string) (i : nat)
    (col : string) :
  cols !! i = Some col -> col ∉ drop (S i) cols -> col <> Obj.proto ->
  cell (make_row cols line) col
  = Some (Text (or_empty (parseCSVLine line !! i))).
Proof.
  intros Hi Hlast Hp. apply cell_own. unfold make_row.
  now rewrite (fill_row_own_last cols 0 _ _ i col Hi Hlast Hp).
Qed.

Lemma make_row_proto (cols : list string) (line : string) :
  cell (make_row cols line) Obj.proto = Some (Member Obj.proto).
Proof.
  unfold cell, Obj.get, make_row. now rewrite fill_row_own_proto.
Qed.

Lemma make_row_absent (cols : list string) (line col : string) :
  col ∉ cols ->
  cell (make_row cols line) col
  = if Obj.inherited col then Some (Member col) else None.
Proof.
  intros H. unfold make_row. rewrite fill_row_other by assumption.
  unfold cell, Obj.get. simpl. now destruct (Obj.inherited col).
Qed.

Lemma header_no_quote (line : string) :
  Forall (fun col => Str.mem Str.quote col = false) (header_columns line).
Proof.
  unfold header_columns. apply Forall_forall. intros col Hin.
  apply list_elem_of_fmap in Hin as (piece & -> & _). apply mem_remove.
Qed.

End Shape.

(** X3.  The shape of a parsed table.  The table has one row for each
    line after the first of the trimmed text, and one column for each
    piece of the first line cut at its commas, every comma counting,
    quoted or not; no column name holds a quote; every row holds a text
    under every column but [__proto__], under which it reads
    [Object.prototype]; and the first two metrics are the two counts. *)
Theorem parsed_table_shape (E : Engine) (text : string) (this : DataAnalyzer) :
  parseCSV text = Ok this ->
  let lines := Str.split Str.newline (Str.trim text) in
  length (data this) = length lines - 1
  /\ length (columns this) = S (Str.count Str.comma (default EmptyString (head lines)))
  /\ Forall (fun col => Str.mem Str.quote col = false) (columns this)
  /\ Forall (fun r => forall col, col ∈ columns this ->
                if String.eqb col Obj.proto
                then cell r col = Some (Member Obj.proto)
                else exists s, cell r col = Some (Text s))
       (data this)
  /\ take 2 (generateMetrics E this)
     = [ Metric.mk "Total Records" (Num.of_nat (length lines - 1)) (Some number) None;
         Metric.mk "Data Columns"
           (Num.of_nat (S (Str.count Str.comma (default EmptyString (head lines)))))
           (Some number) None ].
Proof.
  intros Hp lines.
  apply parseCSV_Ok in Hp as (header & rest & Hlines & Hrest & ->).
  subst lines. rewrite Hlines. simpl.
  assert (length (header_columns header) = S (Str.count Str.comma header)) as Hc.
  { unfold header_columns. now rewrite length_map, length_split. }
  rewrite length_map, Nat.sub_0_r.
  split; [reflexivity|]. split; [exact Hc|]. split; [apply header_no_quote|].
  split.
  - apply Forall_forall. intros r Hin col Hcol.
    apply list_elem_of_fmap in Hin as (line & -> & _).
    destruct (String.eqb col Obj.proto) eqn:Heq.
    + apply String.eqb_eq in Heq. subst col. apply make_row_proto.
    + apply String.eqb_neq in Heq.
      destruct (fill_row_own_defined (header_columns header) 0
                  (parseCSVLine line) Obj.empty col Hcol Heq) as [v Hv].
      exists v. now apply cell_own.
  - unfold generateMetrics. simpl. rewrite length_map, Hc.
    destruct (List.filter _ _); destruct (_ <? _); reflexivity.
Qed.

Lemma parsed_table_shape_witness :
  length (data Example.sales_table) = 3
  /\ length (columns Example.sales_table) = 2
  /\ Forall (fun r => exists s, cell r "amount" = Some (Text s))
       (data Example.sales_table).
Proof.
  destruct (parsed_table_shape Sample.engine Example.sales Example.sales_table
              eq_refl) as (Hr & Hc & _ & Hcells & _).
  split; [exact Hr|]. split; [exact Hc|].
  eapply Forall_impl; [exact Hcells|]. intros r H.
  apply (H "amount"). apply list_elem_of_here.
Defined.

(** X4.  Reading a row.  A column other than [__proto__] whose name
    does not occur later in the header reads the field at its own
    position, or the empty string when the line has no field there; with
    a repeated name the last position wins.  [__proto__], in the header
    or not, reads [Object.prototype]: the assignment to it is ignored.
    Any other name that is not in the header reads the member of
    [Object.prototype] of that name, and is undefined when there is
    none. *)
Theorem row_lookup (cols : list string) (line : string) :
  (forall (i : nat) (col : string),
      cols !! i = Some col -> col ∉ drop (S i) cols -> col <> Obj.proto ->
      cell (make_row cols line) col
      = Some (Text (or_empty (parseCSVLine line !! i))))
  /\ cell (make_row cols line) Obj.proto = Some (Member Obj.proto)
  /\ (forall col : string,
        col ∉ cols ->
        cell (make_row cols line) col
        = if Obj.inherited col then Some (Member col) else None).
Proof.
  split; [|split].
  - intros i col. apply make_row_own.
  - apply make_row_proto.
  - intros col. apply make_row_absent.
Qed.

Lemma row_lookup_witness :
  cell (make_row ["id"; "city"; "id"] Example.city_line) "id" = Some (Text "12")
  /\ cell (make_row ["id"; "__proto__"] "7,8") "__proto__"
     = Some (Member "__proto__")
  /\ cell (make_row ["id"; "city"; "id"] Example.city_line) "zip" = None
  /\ cell (make_row ["id"; "city"; "id"] Example.city_line) "toString"
     = Some (Member "toString").
Proof.
  destruct (row_lookup ["id"; "city"; "id"] Example.city_line)
    as (Hlast & _ & Habs).
  destruct (row_lookup ["id"; "__proto__"] "7,8") as (_ & Hproto & _).
  assert (forall col : string,
             String.eqb col "id" = false -> String.eqb col "city" = false ->
             col ∉ ["id"; "city"; "id"]) as Hout.
  { intros col H1 H2 Hin.
    repeat (apply elem_of_cons in Hin as [->|Hin]; [discriminate|]).
    now apply elem_of_nil in Hin. }
  split; [|split; [exact Hproto|split]].
  - apply (Hlast 2 "id"); [reflexivity| |discriminate].
    simpl. apply not_elem_of_nil.
  - exact (Habs "zip" (Hout "zip" eq_refl eq_refl)).
  - exact (Habs "toString" (Hout "toString" eq_refl eq_refl)).
Defined.

(** ** Lines written and read back *)

Section RoundTrip.

Import TokenizerSpec.

Lemma raw_fields_comma (rest : string) :
  raw_fields false (String Str.comma rest) = EmptyString :: raw_fields false rest.
Proof. reflexivity. Qed.

(** Inside quotes, up to the closing quote. *)
Lemma raw_fields_inside (f rest : string) :
  Str.mem Str.quote f = false ->
  raw_fields true (f +:+ String Str.quote rest)
  = match raw_fields false rest with
    | p :: ps => (f +:+ String Str.quote p) :: ps
    | [] => []
    end.
Proof.
  induction f as [|c f IH]; intros Hf.
  - rewrite append_nil. simpl.
    pose proof (raw_fields_nonempty false rest).
    destruct (raw_fields false rest); [congruence | reflexivity].
  - simpl in Hf. apply orb_false_elim in Hf as [Hc Hf].
    rewrite append_cons. simpl. rewrite andb_false_r, Hc, (IH Hf).
    pose proof (raw_fields_nonempty false rest).
    destruct (raw_fields false rest); [congruence | reflexivity].
Qed.

Lemma in_quotes_app (f rest : string) :
  Example.in_quotes f +:+ rest = String Str.quote (f +:+ String Str.quote rest).
Proof. unfold Example.in_quotes. now rewrite append_assoc. Qed.

Lemma raw_fields_quoted (f rest : string) :
  Str.mem Str.quote f = false ->
  raw_fields false (Example.in_quotes f +:+ rest)
  = match raw_fields false rest with
    | p :: ps => (Example.in_quotes f +:+ p) :: ps
    | [] => []
    end.
Proof.
  intros Hf. rewrite in_quotes_app. simpl.
  rewrite (raw_fields_inside f rest Hf).
  pose proof (raw_fields_nonempty false rest).
  destruct (raw_fields false rest); [congruence|].
  now rewrite in_quotes_app.
Qed.

Lemma raw_fields_quoted_line (fields : list string) :
  fields <> [] ->
  Forall (fun f => Str.mem Str.quote f = false) fields ->
  raw_fields false (quoted_line fields) = map Example.in_quotes fields.
Proof.
  unfold quoted_line.
  induction fields as [|f fields IH]; [congruence|]. intros _ Hall.
  apply Forall_cons in Hall as [Hf Hall].
  destruct fields as [|g fields].
  - cbn [map JSON.join].
    rewrite <- (append_empty_r (Example.in_quotes f)) at 1.
    rewrite (raw_fields_quoted f EmptyString Hf). cbn [raw_fields].
    now rewrite append_empty_r.
  - change (map Example.in_quotes (f :: g :: fields))
      with (Example.in_quotes f :: map Example.in_quotes (g :: fields)).
    change (JSON.join "," (Example.in_quotes f :: map Example.in_quotes (g :: fields)))
      with (Example.in_quotes f
            +:+ String Str.comma
                  (JSON.join "," (map Example.in_quotes (g :: fields)))).
    rewrite raw_fields_quoted, raw_fields_comma by assumption.
    rewrite IH by (assumption || discriminate).
    now rewrite append_empty_r.
Qed.

Lemma raw_fields_plain (f rest : string) (q : bool) :
  Str.mem Str.quote f = false -> Str.mem Str.comma f = false ->
  raw_fields q (f +:+ rest)
  = match raw_fields q rest with
    | p :: ps => (f +:+ p) :: ps
    | [] => []
    end.
Proof.
  induction f as [|c f IH]; intros Hq Hc.
  - rewrite append_nil.
    pose proof (raw_fields_nonempty q rest).
    destruct (raw_fields q rest); [congruence | reflexivity].
  - simpl in Hq, Hc.
    apply orb_false_elim in Hq as [Hq1 Hq]. apply orb_false_elim in Hc as [Hc1 Hc].
    rewrite append_cons. simpl. rewrite Hc1, Hq1. simpl. rewrite (IH Hq Hc).
    pose proof (raw_fields_nonempty q rest).
    destruct (raw_fields q rest); [congruence | reflexivity].
Qed.

Lemma raw_fields_plain_line (fields : list string) :
  fields <> [] ->
  Forall (fun f => Str.mem Str.quote f = false /\ Str.mem Str.comma f = false)
    fields ->
  raw_fields false (plain_line fields) = fields.
Proof.
  unfold plain_line.
  induction fields as [|f fields IH]; [congruence|]. intros _ Hall.
  apply Forall_cons in Hall as [[Hq Hc] Hall].
  destruct fields as [|g fields].
  - cbn [JSON.join]. rewrite <- (append_empty_r f) at 1.
    rewrite (raw_fields_plain f EmptyString false Hq Hc). cbn [raw_fields].
    now rewrite append_empty_r.
  - change (JSON.join "," (f :: g :: fields))
      with (f +:+ String Str.comma (JSON.join "," (g :: fields))).
    rewrite raw_fields_plain, raw_fields_comma by assumption.
    rewrite IH by (assumption || discriminate).
    now rewrite append_empty_r.
Qed.

Lemma clean_in_quotes (f : string) :
  Str.mem Str.quote f = false -> Str.trim f = f -> clean (Example.in_quotes f) = f.
Proof.
  intros Hq Ht. unfold clean, Example.in_quotes.
  rewrite remove_append. simpl.
  rewrite (remove_absent _ _ Hq), append_empty_r. exact Ht.
Qed.

End RoundTrip.

(** X5.  Reading back a written line.  Fields that hold no quote and
    have no white space at either end come back unchanged from the line
    that joins them with commas, each put in quotes; commas inside the
    fields are kept.  Written without quotes, they come back unchanged
    when they hold no comma either. *)
Theorem parse_written_line (fields : list string) :
  fields <> [] ->
  Forall (fun f => Str.mem Str.quote f = false /\ Str.trim f = f) fields ->
  parseCSVLine (quoted_line fields) = fields
  /\ (Forall (fun f => Str.mem Str.comma f = false) fields ->
      parseCSVLine (plain_line fields) = fields).
Proof.
  intros Hne Hall. rewrite !parseCSVLine_spec. unfold TokenizerSpec.spec_fields.
  split.
  - rewrite raw_fields_quoted_line; [|assumption|].
    2:{ eapply Forall_impl; [exact Hall|]. now intros f [? _]. }
    clear Hne. induction Hall as [|f fields [Hq Ht] _ IH]; [reflexivity|].
    simpl. now rewrite clean_in_quotes, IH.
  - intros Hcomma. rewrite raw_fields_plain_line; [|assumption|].
    2:{ rewrite Forall_forall in *. intros f Hf.
        split; [apply (Hall f Hf) | apply (Hcomma f Hf)]. }
    clear Hne Hcomma. induction Hall as [|f fields [Hq Ht] _ IH]; [reflexivity|].
    simpl. rewrite IH. f_equal.
    unfold TokenizerSpec.clean. now rewrite (remove_absent _ _ Hq).
Qed.

Lemma parse_written_line_witness :
  parseCSVLine (quoted_line ["Smith, John"; ""; "New York, NY"])
  = ["Smith, John"; ""; "New York, NY"].
Proof.
  apply (parse_written_line ["Smith, John"; ""; "New York, NY"]);
    [discriminate|].
  repeat (apply Forall_cons; split; [split; reflexivity|]). apply Forall_nil.
  exact I.
Defined.

Section TrailingSpace.

Import TokenizerSpec.

Variable c : ascii.
Hypothesis c_ws : Str.is_ws c = true.

Lemma ws_not_comma : Str.char_eqb c Str.comma = false.
Proof.
  destruct (Str.char_eqb c Str.comma) eqn:H; [|reflexivity].
  apply Ascii.eqb_eq in H. subst c. discriminate c_ws.
Qed.

Lemma ws_not_quote : Str.char_eqb c Str.quote = false.
Proof.
  destruct (Str.char_eqb c Str.quote) eqn:H; [|reflexivity].
  apply Ascii.eqb_eq in H. subst c. discriminate c_ws.
Qed.

Lemma trimEnd_snoc (s : string) :
  Str.trimEnd (s +:+ String c EmptyString) = Str.trimEnd s.
Proof.
  induction s as [|a s IH].
  - rewrite append_nil. simpl. now rewrite c_ws.
  - rewrite append_cons. simpl. now rewrite IH.
Qed.

Lemma trim_snoc (s : string) :
  Str.trim (s +:+ String c EmptyString) = Str.trim s.
Proof.
  unfold Str.trim. induction s as [|a s IH].
  - rewrite append_nil. simpl. now rewrite c_ws.
  - rewrite append_cons. simpl. destruct (Str.is_ws a); [exact IH|].
    rewrite <- append_cons. apply trimEnd_snoc.
Qed.

Lemma extend_last_cons (p : string) (pieces : list string) :
  pieces <> [] -> extend_last c (p :: pieces) = p :: extend_last c pieces.
Proof. destruct pieces; [congruence | reflexivity]. Qed.

Lemma raw_fields_snoc (line : string) :
  forall q : bool,
    raw_fields q (line +:+ String c EmptyString) = extend_last c (raw_fields q line).
Proof.
  induction line as [|a line IH]; intros q.
  - rewrite append_nil. simpl. now rewrite ws_not_comma.
  - rewrite append_cons. simpl.
    destruct (Str.char_eqb a Str.comma && negb q).
    + rewrite IH. symmetry. apply extend_last_cons, raw_fields_nonempty.
    + rewrite IH.
      pose proof (raw_fields_nonempty
                    (if Str.char_eqb a Str.quote then negb q else q) line).
      destruct (raw_fields _ line) as [|p ps]; [congruence|].
      destruct ps; reflexivity.
Qed.

Lemma split_snoc (sep : ascii) (line : string) :
  Str.char_eqb c sep = false ->
  Str.split sep (line +:+ String c EmptyString)
  = extend_last c (Str.split sep line).
Proof.
  intros Hsep. induction line as [|a line IH].
  - rewrite append_nil. simpl. now rewrite Hsep.
  - rewrite append_cons. simpl.
    destruct (Str.char_eqb a sep).
    + rewrite IH. symmetry. apply extend_last_cons, split_nonempty.
    + rewrite IH. pose proof (split_nonempty sep line).
      destruct (Str.split sep line) as [|p ps]; [congruence|].
      destruct ps; reflexivity.
Qed.

Lemma map_extend_last {B} (g : string -> B) (pieces : list string) :
  (forall p, g (p +:+ String c EmptyString) = g p) ->
  map g (extend_last c pieces) = map g pieces.
Proof.
  intros Hg. induction pieces as [|p pieces IH]; [reflexivity|].
  destruct pieces as [|p' pieces]; simpl in *; [now rewrite Hg | now rewrite IH].
Qed.

Lemma parseCSVLine_snoc (line : string) :
  parseCSVLine (line +:+ String c EmptyString) = parseCSVLine line.
Proof.
  rewrite !parseCSVLine_spec. unfold spec_fields.
  rewrite raw_fields_snoc. apply map_extend_last.
  intros p. unfold clean. rewrite remove_append. simpl.
  rewrite ws_not_quote. apply trim_snoc.
Qed.

Lemma header_columns_snoc (line : string) :
  header_columns (line +:+ String c EmptyString) = header_columns line.
Proof.
  unfold header_columns. rewrite split_snoc by apply ws_not_comma.
  apply map_extend_last. intros p. now rewrite trim_snoc.
Qed.

End TrailingSpace.

(** X6.  White space at the end of a line is ignored.  A line followed
    by a white-space character, such as the carriage return that ends
    the lines of a Windows file, gives the same fields, the same header
    and the same row as the line alone. *)
Theorem trailing_white_space_ignored (line : string) (c : ascii) :
  Str.is_ws c = true ->
  parseCSVLine (line +:+ String c EmptyString) = parseCSVLine line
  /\ header_columns (line +:+ String c EmptyString) = header_columns line
  /\ (forall cols : list string,
        make_row cols (line +:+ String c EmptyString) = make_row cols line).
Proof.
  intros Hc. split; [|split].
  - now apply parseCSVLine_snoc.
  - now apply header_columns_snoc.
  - intros cols. unfold make_row. now rewrite parseCSVLine_snoc.
Qed.

Lemma trailing_white_space_ignored_witness :
  parseCSVLine ("10,2024-01-01" +:+ String "013" EmptyString)
  = parseCSVLine "10,2024-01-01".
Proof.
  apply (trailing_white_space_ignored "10,2024-01-01" "013"). reflexivity.
Defined.

(** ** The columns of the overview *)

Section Counts.

Lemma sum_list_bounded {A} (f : A -> nat) (bound : nat) (l : list A) :
  Forall (fun x => f x <= bound) l -> sum_list (map f l) <= bound * length l.
Proof.
  induction 1 as [|x l Hx _ IH]; simpl; [lia|].
  change (foldr plus 0 (map f l)) with (sum_list (map f l)). lia.
Qed.

Lemma nonEmpty_nil_unique {A} `{EqDecision A} (l : list A) :
  length (remove_dups l) = 0 <-> l = [].
Proof.
  split; [|now intros ->].
  destruct l as [|x l]; [reflexivity|]. intros H.
  pose proof (remove_dups_nonempty (x :: l) ltac:(discriminate)). lia.
Qed.

End Counts.

Section MissingValues.

Variable E : Engine.

Lemma nullCount_le_rows (this : DataAnalyzer) :
  Forall (fun col => ColumnInfo.nullCount col <= length (data this))
    (DataOverview.columns (getDataOverview E this)).
Proof.
  unfold getDataOverview. cbn [DataOverview.columns].
  apply Forall_forall. intros info Hin.
  apply list_elem_of_fmap in Hin as (col & -> & _).
  unfold detectColumnType, column_values. simpl. rewrite length_map. lia.
Qed.

Lemma missingValues_le_cells (this : DataAnalyzer) :
  DataOverview.missingValues (getDataOverview E this)
  <= length (data this) * length (columns this).
Proof.
  pose proof (sum_list_bounded ColumnInfo.nullCount _ _ (nullCount_le_rows this))
    as Hs.
  unfold getDataOverview in *. cbn [DataOverview.columns DataOverview.missingValues] in *.
  rewrite fold_left_sum. simpl. now rewrite length_map in Hs.
Qed.

End MissingValues.

(** X7.  The counts of a column.  The missing and the non-empty values
    of a column add up to its values; its distinct values are at most
    its non-empty values, and none only when the column is empty.  In an
    overview no column misses more values than there are rows, and
    [missingValues] is at most rows times columns. *)
Theorem column_counts :
  (forall (E : Engine) (name : string) (values : list (option value)),
      let info := detectColumnType E name values in
      ColumnInfo.nullCount info + length (nonEmpty values) = length values
      /\ ColumnInfo.uniqueValues info <= length (nonEmpty values)
      /\ (ColumnInfo.uniqueValues info = 0 <-> nonEmpty values = []))
  /\ (forall (E : Engine) (this : DataAnalyzer),
        let overview := getDataOverview E this in
        Forall (fun col => ColumnInfo.nullCount col
                           <= DataOverview.totalRows overview)
          (DataOverview.columns overview)
        /\ DataOverview.missingValues overview
           <= DataOverview.totalRows overview
              * DataOverview.totalColumns overview).
Proof.
  split.
  - intros E name values info. subst info. unfold detectColumnType. simpl.
    pose proof (length_nonEmpty values).
    split; [lia|]. split; [apply length_remove_dups_le|].
    apply nonEmpty_nil_unique.
  - intros E this overview. subst overview.
    split; [apply nullCount_le_rows | apply missingValues_le_cells].
Qed.

Lemma column_counts_witness :
  ColumnInfo.uniqueValues
    (detectColumnType Sample.engine "score" [Some (Text ""); None])
  = 0.
Proof.
  destruct column_counts as [H _].
  destruct (H Sample.engine "score" [Some (Text ""); None]) as (_ & _ & [_ Hz]).
  apply Hz. reflexivity.
Defined.

Section RowOrder.

Lemma nonEmpty_perm (values values' : list (option value)) :
  values ≡ₚ values' -> nonEmpty values ≡ₚ nonEmpty values'.
Proof.
  induction 1 as [|v l l' _ IH|v w l|l1 l2 l3 _ IH1 _ IH2].
  - reflexivity.
  - simpl. destruct v as [[s|k]|]; [destruct (Str.is_empty s)| |];
      now rewrite ?IH.
  - simpl. destruct v as [[s|k]|], w as [[t|j]|];
      repeat match goal with |- context [Str.is_empty ?x] => destruct (Str.is_empty x) end;
      try reflexivity; apply Permutation_swap.
  - now rewrite IH1.
Qed.

Lemma length_remove_dups_perm {A} `{EqDecision A} (l l' : list A) :
  l ≡ₚ l' -> length (remove_dups l) = length (remove_dups l').
Proof.
  intros Hp. apply Permutation_length, NoDup_Permutation.
  - apply NoDup_remove_dups.
  - apply NoDup_remove_dups.
  - intros x. rewrite !elem_of_remove_dups. now rewrite Hp.
Qed.

Lemma detect_perm (E : Engine) (name : string) (values values' : list (option value)) :
  values ≡ₚ values' ->
  detectColumnType E name values = detectColumnType E name values'.
Proof.
  intros Hp. pose proof (nonEmpty_perm _ _ Hp) as Hne.
  unfold detectColumnType.
  rewrite (Permutation_length Hp), (Permutation_length Hne).
  rewrite (length_remove_dups_perm _ _ Hne).
  rewrite (Permutation_length
             (filter_Permutation (fun v => is_numeric_value v = true) _ _ Hne)).
  rewrite (Permutation_length
             (filter_Permutation (fun v => is_date_value E v = true) _ _ Hne)).
  reflexivity.
Qed.

End RowOrder.

(** X8.  The order of the rows does not matter to the overview.  A
    column is classified the same whatever the order of its values; and
    two analyzers with the same header, the same rows in another order
    and raw texts of the same length have the same overview. *)
Theorem overview_ignores_row_order :
  (forall (E : Engine) (name : string) (values values' : list (option value)),
      values ≡ₚ values' ->
      detectColumnType E name values = detectColumnType E name values')
  /\ (forall (E : Engine) (this this' : DataAnalyzer),
        data this ≡ₚ data this' -> columns this = columns this' ->
        String.length (rawData this) = String.length (rawData this') ->
        getDataOverview E this = getDataOverview E this').
Proof.
  split; [exact detect_perm|].
  intros E [d c r] [d' c' r']; simpl. intros Hp <- Hlen.
  unfold getDataOverview. simpl.
  rewrite Hlen, (Permutation_length Hp).
  rewrite (length_remove_dups_perm (map JSON.stringify d) (map JSON.stringify d'))
    by now apply Permutation_map.
  assert (map (fun col => detectColumnType E col
                            (column_values {| data := d; columns := c; rawData := r |} col)) c
          = map (fun col => detectColumnType E col
                              (column_values {| data := d'; columns := c; rawData := r' |} col)) c)
    as ->; [|reflexivity].
  apply map_ext. intros col. apply detect_perm.
  unfold column_values. simpl. now apply Permutation_map.
Qed.

Lemma overview_ignores_row_order_witness :
  detectColumnType Sample.engine "n"
    [Some (Text "1"); Some (Text ""); Some (Text "x")]
  = detectColumnType Sample.engine "n"
      [Some (Text "x"); Some (Text "1"); Some (Text "")].
Proof.
  destruct overview_ignores_row_order as [H _]. apply H.
  etransitivity; [apply Permutation_swap|].
  etransitivity; [apply perm_skip, Permutation_swap|].
  etransitivity; [apply Permutation_swap|]. apply perm_skip, Permutation_swap.
Defined.

Section Names.

Lemma lower_char_idem (c : ascii) : Str.lower_char (Str.lower_char c) = Str.lower_char c.
Proof. destruct c as [[] [] [] [] [] [] [] []]; reflexivity. Qed.

Lemma toLowerCase_idem (s : string) :
  Str.toLowerCase (Str.toLowerCase s) = Str.toLowerCase s.
Proof.
  induction s as [|c s IH]; simpl; [reflexivity|].
  now rewrite lower_char_idem, IH.
Qed.

(** Every prefix that makes a column relevant gives it a role. *)
Lemma relevant_has_role (s : string) :
  Str.test_prefix relevant_prefixes s = true ->
  Str.test_prefix revenue_prefixes s = true
  \/ Str.test_prefix customer_prefixes s = true
  \/ Str.test_prefix date_prefixes s = true.
Proof.
  unfold Str.test_prefix. intros H.
  apply existsb_exists in H as (w & Hin & Hw).
  assert (In w revenue_prefixes \/ In w customer_prefixes \/ In w date_prefixes)
    as Hwhere.
  { simpl in Hin. simpl.
    repeat (destruct Hin as [<-|Hin]; [tauto|]). contradiction. }
  rewrite !existsb_exists.
  destruct Hwhere as [Hr|[Hc|Hd]]; [left|right; left|right; right]; eauto.
Qed.

Lemma value_not_relevant (s : string) :
  String.prefix "value" s = true ->
  Str.test_prefix relevant_prefixes s = false
  /\ Str.test_prefix revenue_prefixes s = true.
Proof.
  intros H. destruct s as [|c s]; [discriminate|].
  cbn [String.prefix] in H.
  destruct (ascii_dec "v" c) as [<-|]; [|discriminate H].
  split; [reflexivity|].
  unfold Str.test_prefix, revenue_prefixes. cbn [existsb].
  replace (String.prefix "value" (String "v" s)) with true.
  now rewrite !orb_true_r.
Qed.

End Names.

(** X9.  Names, roles and relevance.  The role and the relevance of a
    column follow the lower-cased name, so two names that differ only
    in case give the same column but for its name; a business-relevant
    column always has one of the roles [revenue], [customer] and [date];
    and a column whose name starts with "value" has role [revenue]
    without being business-relevant. *)
Theorem names_and_roles :
  (forall (E : Engine) (name name' : string) (values : list (option value)),
      Str.toLowerCase name = Str.toLowerCase name' ->
      let info := detectColumnType E name values in
      let info' := detectColumnType E name' values in
      ColumnInfo.type info = ColumnInfo.type info'
      /\ ColumnInfo.uniqueValues info = ColumnInfo.uniqueValues info'
      /\ ColumnInfo.nullCount info = ColumnInfo.nullCount info'
      /\ ColumnInfo.isBusinessRelevant info = ColumnInfo.isBusinessRelevant info'
      /\ ColumnInfo.businessType info = ColumnInfo.businessType info')
  /\ (forall (E : Engine) (name : string) (values : list (option value)),
        let info := detectColumnType E name values in
        ColumnInfo.isBusinessRelevant info = true ->
        ColumnInfo.businessType info = Some revenue
        \/ ColumnInfo.businessType info = Some customer
        \/ ColumnInfo.businessType info = Some date)
  /\ (forall (E : Engine) (name : string) (values : list (option value)),
        let info := detectColumnType E name values in
        String.prefix "value" (Str.toLowerCase name) = true ->
        ColumnInfo.businessType info = Some revenue
        /\ ColumnInfo.isBusinessRelevant info = false).
Proof.
  split; [|split].
  - intros E name name' values Hcase info info'. subst info info'.
    unfold detectColumnType. simpl. rewrite Hcase. repeat split.
  - intros E name values info. subst info. unfold detectColumnType.
    cbn [ColumnInfo.isBusinessRelevant ColumnInfo.businessType].
    intros H. apply relevant_has_role in H.
    destruct (Str.test_prefix revenue_prefixes _); [now left|].
    destruct (Str.test_prefix customer_prefixes _); [now right; left|].
    destruct (Str.test_prefix date_prefixes _); [now right; right|].
    destruct H as [H|[H|H]]; discriminate.
  - intros E name values info H. subst info.
    apply value_not_relevant in H as [Hrel Hrev].
    unfold detectColumnType.
    cbn [ColumnInfo.isBusinessRelevant ColumnInfo.businessType].
    now rewrite Hrel, Hrev.
Qed.

Lemma names_and_roles_witness :
  ColumnInfo.businessType (detectColumnType Sample.engine "Value_USD" [])
  = Some revenue
  /\ ColumnInfo.isBusinessRelevant (detectColumnType Sample.engine "Value_USD" [])
     = false.
Proof.
  destruct names_and_roles as (_ & _ & H).
  apply (H Sample.engine "Value_USD" []). reflexivity.
Defined.

Section RevenueColumns.

Variable E : Engine.

Lemma revenue_filters_agree (name : string) (values : list (option value)) :
  is_revenue_column (detectColumnType E name values)
  = has_role revenue (detectColumnType E name values).
Proof.
  unfold is_revenue_column, has_role, detectColumnType.
  cbn [ColumnInfo.businessType ColumnInfo.type ColumnInfo.name].
  destruct (Str.test_prefix revenue_prefixes (Str.toLowerCase name)) eqn:Hrev.
  - reflexivity.
  - now rewrite andb_false_r, orb_false_r.
Qed.

Lemma revenue_columns_agree (this : DataAnalyzer) :
  List.filter is_revenue_column (DataOverview.columns (getDataOverview E this))
  = List.filter (has_role revenue) (DataOverview.columns (getDataOverview E this)).
Proof.
  unfold getDataOverview. cbn [DataOverview.columns].
  induction (columns this) as [|col cols IH]; [reflexivity|].
  cbn [map List.filter]. rewrite revenue_filters_agree, IH. reflexivity.
Qed.

End RevenueColumns.

(** X10.  One revenue column for the whole analysis.  The metrics and
    the charts look for a column with role [revenue] or a numeric column
    with a revenue name, the insights and the recommendations for a
    column with role [revenue]: on an overview the two searches find the
    same columns.  So when the metrics show a total revenue, the
    insights state the same total and the recommendations end with the
    advice on high-value transactions. *)
Theorem one_revenue_column (E : Engine) (this : DataAnalyzer) :
  List.filter is_revenue_column (DataOverview.columns (getDataOverview E this))
  = List.filter (has_role revenue) (DataOverview.columns (getDataOverview E this))
  /\ (forall (col : ColumnInfo.t) (others : list ColumnInfo.t),
        List.filter is_revenue_column
          (DataOverview.columns (getDataOverview E this))
        = col :: others ->
        let total := Num.sum (parsed_values this (ColumnInfo.name col)) in
        Metric.mk "Total Revenue" total (Some currency) (Some up)
          ∈ generateMetrics E this
        /\ ("Total revenue across all records is $" +:+ toLocaleString E total)
             ∈ generateInsights E this
        /\ last (generateRecommendations E this)
           = Some "Focus on high-value transactions to maximize revenue impact").
Proof.
  split; [apply revenue_columns_agree|].
  intros col others Hcols total.
  pose proof Hcols as Hrole. rewrite revenue_columns_agree in Hrole.
  split; [|split].
  - unfold generateMetrics. rewrite Hcols. fold total.
    destruct (0 <? _); rewrite ?elem_of_app, !elem_of_cons; tauto.
  - unfold generateInsights. rewrite Hrole. fold total.
    destruct (List.filter (has_role customer) _);
      rewrite !elem_of_app, !list_elem_of_singleton; tauto.
  - unfold generateRecommendations. rewrite Hrole. apply last_snoc.
Qed.

Lemma one_revenue_column_witness :
  last (generateRecommendations Sample.engine Example.sales_table)
  = Some "Focus on high-value transactions to maximize revenue impact".
Proof.
  destruct (one_revenue_column Sample.engine Example.sales_table) as [_ H].
  apply (H (ColumnInfo.mk "amount" numeric 3 0 true (Some revenue)) []).
  reflexivity.
Defined.

(** ** Charts *)

Section HistogramShape.

Lemma sum_list_alter_le (bins : list nat) (i : nat) :
  sum_list (alter S i bins) <= S (sum_list bins).
Proof.
  revert i. induction bins as [|b bins IH]; intros i; [simpl; lia|].
  destruct i as [|i]; [simpl; lia|].
  change (alter S (S i) (b :: bins)) with (b :: alter S i bins).
  cbn [sum_list sum_list_with]. fold (sum_list (alter S i bins)).
  fold (sum_list bins). specialize (IH i). lia.
Qed.

Lemma increment_shape (bins : list nat) (binIndex : num) :
  length (increment bins binIndex) = length bins
  /\ sum_list (increment bins binIndex) <= S (sum_list bins).
Proof.
  unfold increment. destruct (Num.to_index binIndex) as [i|]; [|lia].
  rewrite length_alter. split; [reflexivity | apply sum_list_alter_le].
Qed.

End HistogramShape.

(** X11.  The histogram always has its bins.  Whatever the values, not
    a number or infinite ones included, [createHistogramBins] returns
    as many labels and as many counts as bins were asked for, and the
    counts never sum to more than the number of values. *)
Theorem histogram_shape (values : list num) (binCount : nat) :
  length (fst (createHistogramBins values binCount)) = binCount
  /\ length (snd (createHistogramBins values binCount)) = binCount
  /\ sum_list (snd (createHistogramBins values binCount)) <= length values.
Proof.
  unfold createHistogramBins. cbn [fst snd].
  split; [now rewrite length_map, length_seq|].
  set (step := fun bins value => increment bins (bin_of _ _ binCount value)).
  assert (forall vs bins,
             length (fold_left step vs bins) = length bins
             /\ sum_list (fold_left step vs bins) <= sum_list bins + length vs)
    as Hfold.
  { induction vs as [|v vs IH]; intros bins; cbn [fold_left length]; [lia|].
    destruct (IH (step bins v)) as [Hl Hs].
    destruct (increment_shape bins (bin_of (Num.min values)
                (Num.over (Num.minus (Num.max values) (Num.min values))
                   (Num.of_nat binCount)) binCount v)) as [Hl' Hs'].
    subst step. cbn beta in *. split; [congruence | lia]. }
  destruct (Hfold values (replicate binCount 0)) as [Hl Hs].
  rewrite length_replicate in Hl. split; [exact Hl|].
  assert (sum_list (replicate binCount 0) = 0) as H0.
  { clear. induction binCount; simpl; [reflexivity | assumption]. }
  lia.
Qed.

Section Entries.

Context {V : Type}.

Lemma own_In (o : Obj.t V) (k : string) (v : V) :
  Obj.own o k = Some v -> (k, v) ∈ o.
Proof.
  induction o as [|[k' v'] o IH]; simpl; [discriminate|].
  destruct (String.eqb k' k) eqn:Hk.
  - apply String.eqb_eq in Hk. subst k'. intros [= ->]. apply list_elem_of_here.
  - intros H. apply list_elem_of_further, IH, H.
Qed.

Lemma own_lookup (o : Obj.t V) (k : string) (v : V) :
  NoDup (map fst o) -> (k, v) ∈ o <-> Obj.own o k = Some v.
Proof.
  induction o as [|[k' v'] o IH]; simpl; intros Hnd.
  - rewrite elem_of_nil. split; [contradiction | discriminate].
  - apply NoDup_cons in Hnd as [Hnot Hnd]. rewrite elem_of_cons.
    destruct (String.eqb k' k) eqn:Hk.
    + apply String.eqb_eq in Hk. subst k'. split.
      * intros [[= ->]|Hin]; [reflexivity|].
        exfalso. apply Hnot. apply list_elem_of_fmap. now exists (k, v).
      * intros [= ->]. now left.
    + rewrite <- (IH Hnd). split; [|tauto].
      intros [[= -> ->]|Hin]; [|exact Hin].
      now rewrite String.eqb_refl in Hk.
Qed.

Lemma Forall_put (P : string * V -> Prop) (o : Obj.t V) (k : string) (v : V) :
  Forall P o -> P (k, v) -> Forall P (Obj.put o k v).
Proof.
  intros Ho Hv. induction Ho as [|[k' v'] o Hx Ho IH]; simpl.
  - now constructor.
  - destruct (String.eqb k' k) eqn:Hk.
    + apply String.eqb_eq in Hk. subst k'. now constructor.
    + now constructor.
Qed.

Lemma Forall_set (P : string * V -> Prop) (o : Obj.t V) (k : string) (v : V) :
  Forall P o -> P (k, v) -> Forall P (Obj.set o k v).
Proof.
  intros Ho Hv. unfold Obj.set.
  destruct (String.eqb k Obj.proto); [exact Ho | now apply Forall_put].
Qed.

End Entries.

Section SortedImages.

Context {A B : Type} (g : A -> B).
Context (before : A -> A -> bool) (before' : B -> B -> bool).
Hypothesis agree : forall x y, before' (g x) (g y) = before x y.

Lemma insert_sorted_fmap (x : A) (l : list A) :
  insert_sorted before' (g x) (map g l) = map g (insert_sorted before x l).
Proof.
  induction l as [|y l IH]; simpl; [reflexivity|].
  rewrite agree. destruct (before x y); simpl; [reflexivity | now rewrite IH].
Qed.

Lemma stable_sort_fmap (l : list A) :
  stable_sort before' (map g l) = map g (stable_sort before l).
Proof.
  unfold stable_sort. induction l as [|x l IH]; simpl; [reflexivity|].
  rewrite IH. apply insert_sorted_fmap.
Qed.

End SortedImages.

Section Categories.

Variable col : string.

Lemma occurrences_cons (v : string) (r : row) (rows : list row) :
  occurrences col v (r :: rows)
  = (if String.eqb (ToString (cell r col)) v then 1 else 0)
    + occurrences col v rows.
Proof.
  unfold occurrences. simpl.
  destruct (String.eqb (ToString (cell r col)) v); reflexivity.
Qed.

(** What the loop leaves when no cell of the column names a member of
    [Object.prototype]: every count is a number, and under a key there
    is nothing new when no row holds the key, and else the count so far
    plus the rows that hold it. *)
Lemma tally_own (rows : list row) :
  forall (counts : Obj.t count) (v : string),
    Forall (fun r => Obj.inherited (ToString (cell r col)) = false) rows ->
    Forall (fun e => exists n, snd e = Tally n) counts ->
    Forall (fun e => exists n, snd e = Tally n) (tally col rows counts)
    /\ Obj.own (tally col rows counts) v
       = if occurrences col v rows =? 0 then Obj.own counts v
         else Some (Tally (tallied (Obj.own counts v)
                           + occurrences col v rows)).
Proof.
  unfold tally.
  induction rows as [|r rows IH]; intros counts v Hrows Hcounts;
    [split; [exact Hcounts | reflexivity]|].
  apply Forall_cons in Hrows as [Hr Hrows].
  cbn [fold_left]. rewrite occurrences_cons.
  set (key := ToString (cell r col)) in *.
  assert (key <> Obj.proto) as Hkey
      by (intros Heq; rewrite Heq in Hr; discriminate Hr).
  assert (counted_once key (Obj.get counts key)
          = Tally (tallied (Obj.own counts key) + 1)) as Hstep.
  { unfold Obj.get. rewrite Hr.
    destruct (Obj.own counts key) as [c|] eqn:Hown; [|reflexivity].
    apply own_In in Hown. rewrite Forall_forall in Hcounts.
    destruct (Hcounts _ Hown) as [n Hn]. simpl in Hn. now subst c. }
  rewrite Hstep.
  destruct (IH (Obj.set counts key (Tally (tallied (Obj.own counts key) + 1)))
              v Hrows) as [Hall Hown].
  { apply Forall_set; [exact Hcounts | eauto]. }
  split; [exact Hall|]. rewrite Hown.
  destruct (String.eqb key v) eqn:Hv.
  - apply String.eqb_eq in Hv. subst v. rewrite own_set_eq by assumption.
    destruct (occurrences col key rows =? 0) eqn:Hz.
    + apply Nat.eqb_eq in Hz. rewrite Hz. reflexivity.
    + simpl. do 2 f_equal. lia.
  - assert (key <> v) as Hne
        by (intros Heq; rewrite Heq, String.eqb_refl in Hv; discriminate Hv).
    now rewrite (own_set_ne _ _ _ _ Hne).
Qed.

Lemma tally_NoDup (rows : list row) :
  forall counts : Obj.t count,
    NoDup (map fst counts) -> NoDup (map fst (tally col rows counts)).
Proof.
  unfold tally.
  induction rows as [|r rows IH]; intros counts Hnd; [exact Hnd|].
  cbn [fold_left]. apply IH, NoDup_keys_set, Hnd.
Qed.

End Categories.

Lemma by_count_desc_tally (x y : string * nat) :
  by_count_desc (entry_tally x) (entry_tally y) = by_number_desc x y.
Proof.
  unfold by_count_desc, by_number_desc, entry_tally. cbn [snd count_number].
  rewrite minus_of_nat, Nat.ltb_antisym. apply negb_involutive.
Qed.

#[local] Instance by_number_desc_trans :
  Transitive (fun x y : string * nat => by_number_desc x y = true).
Proof.
  intros x y z. unfold by_number_desc. rewrite !Nat.leb_le. lia.
Qed.

Lemma by_number_desc_total (x y : string * nat) :
  by_number_desc x y = false -> by_number_desc y x = true.
Proof. unfold by_number_desc. rewrite Nat.leb_gt, Nat.leb_le. lia. Qed.

(** X12.  The category breakdown.  When no cell of the column names a
    member of [Object.prototype], the doughnut chart shows at most ten
    values of the column, each once, each with the number of rows that
    hold it, in descending order of that number; and a value of the
    column that is not shown is held by no more rows than any value
    shown. *)
Theorem category_breakdown (this : DataAnalyzer) (categoryCol : ColumnInfo.t) :
  let chart := category_chart this categoryCol in
  let held v := occurrences (ColumnInfo.name categoryCol) v (data this) in
  Forall (fun r => Obj.inherited
                     (ToString (cell r (ColumnInfo.name categoryCol))) = false)
    (data this) ->
  exists top : list (string * nat),
    ChartData.labels chart = map fst top
    /\ map Dataset.data (ChartData.datasets chart)
       = [map (fun e => Numeric (Num.of_nat (snd e))) top]
    /\ length top <= 10
    /\ NoDup (map fst top)
    /\ Forall (fun e => snd e = held (fst e) /\ 0 < snd e) top
    /\ Sorted (fun x y => snd y <= snd x) top
    /\ (forall v, 0 < held v -> v ∉ map fst top ->
                  length top = 10 /\ Forall (fun e => held v <= snd e) top).
Proof.
  intros chart held Hplain.
  set (counts := tally (ColumnInfo.name categoryCol) (data this) Obj.empty).
  assert (Forall (fun e => exists n, snd e = Tally n) counts) as Hall.
  { apply (tally_own _ (data this) Obj.empty EmptyString Hplain). constructor. }
  assert (forall v, Obj.own counts v
                    = if held v =? 0 then None else Some (Tally (held v)))
    as Hown.
  { intros v.
    destruct (tally_own (ColumnInfo.name categoryCol) (data this) Obj.empty v
                Hplain) as [_ H]; [constructor | exact H]. }
  set (numbers := map entry_number (Obj.entries counts)).
  assert (Obj.entries counts = map entry_tally numbers) as Hentries.
  { subst numbers. rewrite map_map.
    transitivity (map id (Obj.entries counts)); [now rewrite map_id|].
    apply map_ext_in. intros [k c] Hin.
    apply list_elem_of_In in Hin. rewrite entries_perm in Hin.
    rewrite Forall_forall in Hall. destruct (Hall _ Hin) as [n Hn].
    simpl in Hn. now subst c. }
  set (sorted := stable_sort by_number_desc numbers).
  exists (take 10 sorted).
  assert (take 10 (stable_sort by_count_desc (Obj.entries counts))
          = map entry_tally (take 10 sorted)) as Hchart.
  { rewrite Hentries.
    rewrite (stable_sort_fmap entry_tally by_number_desc by_count_desc
               by_count_desc_tally).
    apply firstn_map. }
  assert (sorted ≡ₚ map entry_number counts) as Hperm.
  { etransitivity; [apply stable_sort_perm|].
    apply Permutation_map, entries_perm. }
  assert (NoDup (map fst counts)) as Hnd by (apply tally_NoDup; constructor).
  assert (forall k n, (k, n) ∈ sorted <-> 0 < held k /\ n = held k) as Hcount.
  { intros k n. rewrite Hperm, list_elem_of_fmap. split.
    - intros ([k' c] & Heq & Hin).
      apply (own_lookup counts k' c Hnd) in Hin. rewrite Hown in Hin.
      unfold entry_number in Heq. simpl in Heq. injection Heq as -> ->.
      destruct (held k' =? 0) eqn:Hz; [discriminate|].
      injection Hin as <-. apply Nat.eqb_neq in Hz. simpl. lia.
    - intros [Hpos ->]. exists (k, Tally (held k)). split; [reflexivity|].
      apply (own_lookup counts k _ Hnd). rewrite Hown.
      destruct (held k =? 0) eqn:Hz; [|reflexivity].
      apply Nat.eqb_eq in Hz. lia. }
  assert (StronglySorted (fun x y => by_number_desc x y = true) sorted) as Hss.
  { apply Sorted_StronglySorted; [apply _|].
    apply stable_sort_Sorted, by_number_desc_total. }
  assert (ChartData.labels chart
          = map fst (take 10 (stable_sort by_count_desc (Obj.entries counts))))
    as -> by reflexivity.
  assert (map Dataset.data (ChartData.datasets chart)
          = [map (fun e => count_datum (snd e))
               (take 10 (stable_sort by_count_desc (Obj.entries counts)))])
    as -> by reflexivity.
  rewrite Hchart, !map_map.
  split; [reflexivity|]. split; [reflexivity|].
  split; [rewrite length_take; lia|].
  split.
  { apply (sublist_NoDup _ (map fst sorted)).
    - rewrite Hperm, map_map. exact Hnd.
    - apply fmap_sublist, sublist_take. }
  split.
  { apply Forall_take, Forall_forall. intros [k n] Hin.
    apply Hcount in Hin as [Hpos ->]. simpl. auto. }
  split.
  { rewrite <- (take_drop 10 sorted) in Hss.
    apply StronglySorted_app_1_l in Hss. apply StronglySorted_Sorted in Hss.
    eapply Sorted_ind with (P := Sorted (fun x y => snd y <= snd x)); [| |exact Hss].
    - constructor.
    - intros a l _ IH Hhd. constructor; [exact IH|].
      destruct Hhd as [|b l Hab]; constructor.
      unfold by_number_desc in Hab. now apply Nat.leb_le in Hab. }
  intros v Hv Hnot.
  assert ((v, held v) ∈ sorted) as Hin by now apply Hcount.
  rewrite <- (take_drop 10 sorted) in Hin, Hss.
  apply elem_of_app in Hin as [Hin|Hin].
  { exfalso. apply Hnot. apply list_elem_of_fmap. now exists (v, held v). }
  split.
  - rewrite length_take. apply list_elem_of_lookup in Hin as [i Hi].
    apply lookup_lt_Some in Hi. rewrite length_drop in Hi. lia.
  - apply Forall_forall. intros e He.
    pose proof (StronglySorted_app_1_elem_of _ _ _ e (v, held v) Hss He Hin) as H.
    unfold by_number_desc in H. now apply Nat.leb_le in H.
Qed.

Lemma category_breakdown_witness :
  length (ChartData.labels (category_chart Cases.regions_table Cases.region))
  = 10.
Proof.
  destruct (category_breakdown Cases.regions_table Cases.region)
    as (top & Hl & _ & _ & _ & _ & _ & Hrest).
  - repeat constructor.
  - rewrite Hl, length_map.
    apply (Hrest "k").
    + vm_compute. lia.
    + rewrite <- Hl. vm_compute. intros Hin.
      repeat (apply elem_of_cons in Hin as [Hin|Hin]; [discriminate|]).
      now apply elem_of_nil in Hin.
Defined.

(** A cell that names a member of [Object.prototype] is not counted:
    [categoryCounts] reads the member, and [+ 1] joins a 1 to its text
    for each row that holds the cell.  The point of the chart is that
    text, and the comparison with it orders nothing. *)
Lemma category_of_member :
  ChartData.labels (category_chart Cases.kinds_table Cases.kind)
  = ["constructor"; "a"]
  /\ map Dataset.data
       (ChartData.datasets (category_chart Cases.kinds_table Cases.kind))
     = [[Textual "function Object() { [native code] }11";
         Numeric (Num.of_Z 1)]].
Proof. split; reflexivity. Qed.

(** ** The completeness metric *)

Section Completeness.





End Completeness.



(** ** The customers of the insights *)

Section Customers.

Lemma elem_of_nonEmpty (values : list (option value)) (v : value) :
  v ∈ nonEmpty values <-> Some v ∈ values /\ v <> Text EmptyString.
Proof.
  induction values as [|w values IH]; simpl.
  - rewrite !elem_of_nil. tauto.
  - destruct w as [[t|k]|].
    + destruct t as [|c t]; simpl.
      * rewrite IH, elem_of_cons. split; [tauto|].
        intros [[[= ->]|H] Hne]; [congruence | tauto].
      * rewrite !elem_of_cons, IH. split.
        -- intros [->|[H Hne]]; [split; [now left | discriminate] | tauto].
        -- intros [[[= ->]|H] Hne]; [now left | tauto].
    + rewrite !elem_of_cons, IH. split.
      * intros [->|[H Hne]]; [split; [now left | discriminate] | tauto].
      * intros [[[= ->]|H] Hne]; [now left | tauto].
    + rewrite IH, elem_of_cons. split; [tauto|].
      intros [[H|H] Hne]; [discriminate | tauto].
Qed.

(** The distinct cells of a column are its distinct non-empty values,
    and the empty string and [undefined] when they occur. *)
Lemma distinct_cells (values : list (option value)) :
  length (remove_dups values)
  = length (remove_dups (nonEmpty values))
    + (if bool_decide (Some (Text EmptyString) ∈ values) then 1 else 0)
    + (if bool_decide (None ∈ values) then 1 else 0).
Proof.
  set (empties := if bool_decide (Some (Text EmptyString) ∈ values)
                  then [Some (Text EmptyString)] else []).
  set (undefineds := if bool_decide (None ∈ values)
                     then [@None value] else []).
  assert (remove_dups values
          ≡ₚ (Some <$> remove_dups (nonEmpty values)) ++ empties ++ undefineds)
    as Hperm.
  { apply NoDup_Permutation.
    - apply NoDup_remove_dups.
    - apply NoDup_app. split; [|split].
      + apply NoDup_fmap_2; [intros ? ? [=]; assumption | apply NoDup_remove_dups].
      + intros x Hx. apply list_elem_of_fmap in Hx as (s & -> & Hs).
        apply elem_of_remove_dups, elem_of_nonEmpty in Hs as [_ Hne].
        subst empties undefineds. rewrite elem_of_app.
        intros [H|H]; repeat case_bool_decide;
          rewrite ?list_elem_of_singleton, ?elem_of_nil in H; congruence.
      + subst empties undefineds. apply NoDup_app. split; [|split].
        * case_bool_decide; [apply NoDup_singleton | constructor].
        * intros x Hx. repeat case_bool_decide;
            rewrite ?list_elem_of_singleton, ?elem_of_nil in *; congruence.
        * case_bool_decide; [apply NoDup_singleton | constructor].
    - intros x. rewrite elem_of_remove_dups, !elem_of_app, list_elem_of_fmap.
      subst empties undefineds. split.
      + intros Hin. destruct x as [v|].
        * destruct (decide (v = Text EmptyString)) as [->|Hne].
          -- right; left. rewrite bool_decide_eq_true_2 by assumption.
             apply list_elem_of_here.
          -- left. exists v. split; [reflexivity|].
             now apply elem_of_remove_dups, elem_of_nonEmpty.
        * right; right. rewrite bool_decide_eq_true_2 by assumption.
          apply list_elem_of_here.
      + intros [(s & -> & Hs)|[H|H]].
        * now apply elem_of_remove_dups, elem_of_nonEmpty in Hs as [Hs _].
        * case_bool_decide; [|now apply elem_of_nil in H].
          apply list_elem_of_singleton in H. now subst x.
        * case_bool_decide; [|now apply elem_of_nil in H].
          apply list_elem_of_singleton in H. now subst x. }
  rewrite (Permutation_length Hperm), !length_app, length_fmap.
  subst empties undefineds. repeat case_bool_decide; simpl; lia.
Qed.

End Customers.

(** X14.  The count of customers in the insights.  For the first column
    with role [customer] of a parsed table the insights state its
    distinct non-empty values, plus one when some row has no value
    there: the empty cell counts as one more customer. *)
Theorem customers_insight (E : Engine) (text : string) (this : DataAnalyzer)
    (col : ColumnInfo.t) (others : list ColumnInfo.t) :
  parseCSV text = Ok this ->
  List.filter (has_role customer) (DataOverview.columns (getDataOverview E this))
  = col :: others ->
  let cells := column_values this (ColumnInfo.name col) in
  let customers :=
    ColumnInfo.uniqueValues col
    + (if bool_decide (Some (Text EmptyString) ∈ cells) then 1 else 0) in
  ("Dataset includes " +:+ toLocaleString E (Num.of_nat customers)
   +:+ " unique customers")
    ∈ generateInsights E this.
Proof.
  intros Hp Hcols cells customers.
  assert (col ∈ DataOverview.columns (getDataOverview E this)) as Hin.
  { apply list_elem_of_In. eapply (proj1 (filter_In _ _ _)).
    rewrite Hcols. now left. }
  unfold getDataOverview in Hin. cbn [DataOverview.columns] in Hin.
  apply list_elem_of_fmap in Hin as (name & Hcol & Hname).
  assert (ColumnInfo.name col = name) as Hn by now rewrite Hcol.
  assert (ColumnInfo.uniqueValues col = length (remove_dups (nonEmpty cells)))
    as Hu by (subst cells; rewrite Hn, Hcol; reflexivity).
  assert (None ∉ cells) as Hdef.
  { subst cells. rewrite Hn. unfold column_values.
    intros Hnone. apply list_elem_of_fmap in Hnone as (r & Hr & Hrin).
    apply parseCSV_Ok in Hp as (header & rest & _ & _ & ->).
    simpl in Hrin, Hname.
    apply list_elem_of_fmap in Hrin as (line & -> & _).
    destruct (fill_row_defined (header_columns header) 0 (parseCSVLine line)
                Obj.empty name Hname) as [v Hv].
    unfold make_row in Hr. congruence. }
  assert (length (remove_dups cells) = customers) as Hcount.
  { rewrite distinct_cells, (bool_decide_eq_false_2 _ Hdef).
    subst customers. rewrite Hu. lia. }
  unfold generateInsights. rewrite Hcols. fold cells. rewrite Hcount.
  rewrite elem_of_app, list_elem_of_singleton. now right.
Qed.

Lemma customers_insight_witness :
  "Dataset includes 2 unique customers"
    ∈ generateInsights Sample.engine Cases.orders_table.
Proof.
  exact (customers_insight Sample.engine Cases.orders Cases.orders_table
           Cases.customer_id [] eq_refl eq_refl).
Defined.

(** ** The application *)

(** X15.  What an upload leads to.  From a state without a result, an
    upload ends on the dashboard of the file's analysis without a
    banner, or on the upload form under one of two banners: the
    malformed-input message when the trimmed text has fewer than two
    lines, and "Invalid time value" otherwise.  The form's reset then
    brings back the initial state. *)
Theorem upload_outcome (E : Engine) (file : DataFile.t) (s : App.state) :
  App.analysisResult s = None ->
  let s' := App.handleFileUpload E file s in
  let lines := length (Str.split Str.newline (Str.trim (DataFile.data file))) in
  ((exists result,
       analyze E (DataFile.data file) = Ok result
       /\ App.render s'
          = App.Dashboard None result
              (if Str.is_empty (DataFile.name file) then "Unknown"
               else DataFile.name file))
   \/ (lines < 2
       /\ App.render s'
          = App.FileUpload
              (Some "CSV file must have at least header and one data row"))
   \/ (2 <= lines
       /\ App.render s' = App.FileUpload (Some "Invalid time value")))
  /\ App.handleReset s' = App.initial.
Proof.
  intros Hnone s' lines. subst s'. unfold App.handleFileUpload.
  split.
  - destruct (analyze E (DataFile.data file)) as [result|e] eqn:Ha.
    + left. exists result. split; reflexivity.
    + right. apply analyze_Throw in Ha as [[-> Hl]|[-> Hl]].
      * left. split; [exact Hl|]. unfold App.render. simpl. now rewrite Hnone.
      * right. split; [exact Hl|]. unfold App.render. simpl. now rewrite Hnone.
  - destruct (analyze E (DataFile.data file)); reflexivity.
Qed.

Lemma upload_outcome_witness :
  App.render
    (App.handleFileUpload Sample.engine
       (DataFile.mk "sales.csv" 11 "text/csv" "amount,date") App.initial)
  = App.FileUpload (Some "CSV file must have at least header and one data row").
Proof.
  destruct (upload_outcome Sample.engine
              (DataFile.mk "sales.csv" 11 "text/csv" "amount,date") App.initial
              eq_refl) as [[(result & Ha & _)|[[_ H]|[Hl _]]] _].
  - vm_compute in Ha. discriminate Ha.
  - exact H.
  - vm_compute in Hl. lia.
Defined.

(** ** Duplicate rows *)

Section Signatures.

Lemma unescape_escape (c : ascii) (r : string) :
  unescape (JSON.escape c +:+ r) = Some (c, r).
Proof. destruct c as [[] [] [] [] [] [] [] []]; reflexivity. Qed.

Lemma escape_head (c : ascii) (r : string) :
  exists h t, JSON.escape c +:+ r = String h t /\ h <> Str.quote.
Proof.
  destruct c as [[] [] [] [] [] [] [] []];
    eexists _, _; (split; [reflexivity | discriminate]).
Qed.

Lemma escape_inj (c d : ascii) (r s : string) :
  JSON.escape c +:+ r = JSON.escape d +:+ s -> c = d /\ r = s.
Proof.
  intros H. pose proof (unescape_escape c r) as Hc.
  rewrite H, unescape_escape in Hc. now injection Hc as -> ->.
Qed.

(** An escaped string is closed by the first quote that follows it. *)
Lemma escape_all_inj (a : string) :
  forall (b x y : string),
    JSON.escape_all a +:+ String Str.quote x
    = JSON.escape_all b +:+ String Str.quote y ->
    a = b /\ x = y.
Proof.
  induction a as [|c a IH]; intros b x y H.
  - destruct b as [|d b]; simpl in H.
    + rewrite !append_nil in H. now injection H as ->.
    + rewrite append_nil, append_assoc in H.
      destruct (escape_head d (JSON.escape_all b +:+ String Str.quote y))
        as (h & t & Heq & Hne).
      rewrite Heq in H. injection H as <- _. congruence.
  - destruct b as [|d b]; simpl in H.
    + rewrite append_nil, append_assoc in H.
      destruct (escape_head c (JSON.escape_all a +:+ String Str.quote x))
        as (h & t & Heq & Hne).
      rewrite Heq in H. injection H as -> _. congruence.
    + rewrite !append_assoc in H. apply escape_inj in H as [-> H].
      apply IH in H as [-> ->]. auto.
Qed.

Lemma quoted_inj (a b x y : string) :
  JSON.quoted a +:+ x = JSON.quoted b +:+ y -> a = b /\ x = y.
Proof.
  unfold JSON.quoted. rewrite !append_cons, !append_assoc, !append_cons, !append_nil.
  intros [= H]. now apply escape_all_inj in H.
Qed.

Lemma join_rest (e : string * string) (entries : list (string * string)) :
  JSON.join "," (map encode (e :: entries)) +:+ "}"
  = encode e +:+ rest_of entries.
Proof.
  destruct entries as [|e' entries]; [reflexivity|].
  change (JSON.join "," (map encode (e :: e' :: entries)))
    with (encode e +:+ "," +:+ JSON.join "," (map encode (e' :: entries))).
  now rewrite !append_assoc.
Qed.

Lemma join_inj (entries : list (string * string)) :
  forall entries' : list (string * string),
    JSON.join "," (map encode entries) +:+ "}"
    = JSON.join "," (map encode entries') +:+ "}" ->
    entries = entries'.
Proof.
  induction entries as [|[k v] entries IH]; intros [|[k' v'] entries'] H.
  - reflexivity.
  - rewrite join_rest in H. discriminate H.
  - rewrite join_rest in H. discriminate H.
  - rewrite !join_rest in H. unfold encode in H. simpl fst in H. simpl snd in H.
    rewrite !append_assoc in H.
    apply quoted_inj in H as [-> H].
    rewrite append_cons, append_nil in H. injection H as H.
    rewrite !append_assoc, !append_cons, !append_nil in H.
    apply escape_all_inj in H as [-> H]. f_equal.
    destruct entries as [|e entries], entries' as [|e' entries'];
      try discriminate H; [reflexivity|].
    unfold rest_of in H. injection H as H. now apply IH.
Qed.

Lemma stringify_inj (r r' : row) :
  JSON.stringify r = JSON.stringify r' -> Obj.entries r = Obj.entries r'.
Proof.
  unfold JSON.stringify. intros [= H]. now apply (join_inj _ _ H).
Qed.

End Signatures.

Section Duplicates.

Lemma keys_put_same (r r' : row) (k v v' : string) :
  map fst r = map fst r' ->
  map fst (Obj.put r k v) = map fst (Obj.put r' k v').
Proof.
  revert r'. induction r as [|[k1 v1] r IH]; intros [|[k2 v2] r'] H;
    try discriminate H; [reflexivity|].
  simpl in H. injection H as <- H. simpl.
  destruct (String.eqb k1 k); simpl; f_equal; [exact H | now apply IH].
Qed.

Lemma keys_set_same (r r' : row) (k v v' : string) :
  map fst r = map fst r' ->
  map fst (Obj.set r k v) = map fst (Obj.set r' k v').
Proof.
  intros H. unfold Obj.set.
  destruct (String.eqb k Obj.proto); [exact H | now apply keys_put_same].
Qed.

Lemma fill_row_same_keys (cols : list string) :
  forall (index : nat) (values values' : list string) (r r' : row),
    map fst r = map fst r' ->
    map fst (fill_row cols index values r)
    = map fst (fill_row cols index values' r').
Proof.
  induction cols as [|c cols IH]; intros index values values' r r' H; simpl;
    [exact H|].
  apply IH, keys_set_same, H.
Qed.

Lemma fill_row_NoDup (cols : list string) :
  forall (index : nat) (values : list string) (r : row),
    NoDup (map fst r) -> NoDup (map fst (fill_row cols index values r)).
Proof.
  induction cols as [|c cols IH]; intros index values r H; simpl; [exact H|].
  apply IH, NoDup_keys_set, H.
Qed.

(** Two objects with the same keys in the same order are equal when
    they agree at every key. *)
Lemma same_reads (r : row) :
  forall r' : row,
    map fst r = map fst r' -> NoDup (map fst r) ->
    (forall k, k ∈ map fst r -> Obj.own r k = Obj.own r' k) ->
    r = r'.
Proof.
  induction r as [|[k v] r IH]; intros [|[k' v'] r'] Hk Hnd H;
    try discriminate Hk; [reflexivity|].
  simpl in Hk. injection Hk as <- Hk.
  apply NoDup_cons in Hnd as [Hnot Hnd].
  pose proof (H k ltac:(simpl; left)) as Hv.
  simpl in Hv. rewrite String.eqb_refl in Hv. injection Hv as <-.
  f_equal. apply IH; [exact Hk | exact Hnd |].
  intros k2 Hin. specialize (H k2 ltac:(simpl; now right)).
  simpl in H.
  destruct (String.eqb k k2) eqn:Heq; [|exact H].
  apply String.eqb_eq in Heq. subst k2. contradiction.
Qed.

Lemma reads_of_entries (r r' : row) :
  NoDup (map fst r) -> NoDup (map fst r') ->
  Obj.entries r = Obj.entries r' ->
  forall k, k ∈ map fst r -> Obj.own r k = Obj.own r' k.
Proof.
  intros Hnd Hnd' He k Hin.
  apply list_elem_of_fmap in Hin as ([k0 v] & -> & Hin). simpl.
  assert ((k0, v) ∈ r') as Hin'.
  { rewrite <- (entries_perm r'), <- He, entries_perm. exact Hin. }
  apply (own_lookup _ _ _ Hnd) in Hin.
  apply (own_lookup _ _ _ Hnd') in Hin'. congruence.
Qed.

(** Rows of one table: equal signatures, equal rows, equal cells. *)
Lemma signature_inj (cols : list string) (line line' : string) :
  JSON.stringify (make_row cols line) = JSON.stringify (make_row cols line') ->
  make_row cols line = make_row cols line'.
Proof.
  intros H. apply stringify_inj in H. unfold make_row in *.
  apply same_reads.
  - now apply fill_row_same_keys.
  - apply fill_row_NoDup, NoDup_nil_2.
  - apply reads_of_entries; [| |exact H]; apply fill_row_NoDup, NoDup_nil_2.
Qed.

Lemma same_cells (cols : list string) (line line' : string) :
  (forall col, col ∈ cols ->
     cell (make_row cols line) col = cell (make_row cols line') col) ->
  make_row cols line = make_row cols line'.
Proof.
  intros H. unfold make_row in *. apply same_reads.
  - now apply fill_row_same_keys.
  - apply fill_row_NoDup, NoDup_nil_2.
  - intros k Hin. apply fill_row_keys in Hin as [[Hin Hp]|Hin];
      [|now apply elem_of_nil in Hin].
    destruct (fill_row_own_defined cols 0 (parseCSVLine line) Obj.empty k
                Hin Hp) as [v Hv].
    destruct (fill_row_own_defined cols 0 (parseCSVLine line') Obj.empty k
                Hin Hp) as [v' Hv'].
    pose proof (H k Hin) as Hc.
    rewrite (cell_own _ _ _ Hv), (cell_own _ _ _ Hv') in Hc. congruence.
Qed.

Lemma length_remove_dups_inj {A B : Type} `{EqDecision A} `{EqDecision B}
    (f : A -> B) (l : list A) :
  (forall x y, x ∈ l -> y ∈ l -> f x = f y -> x = y) ->
  length (remove_dups (map f l)) = length (remove_dups l).
Proof.
  induction l as [|x l IH]; intros Hinj; [reflexivity|].
  assert (length (remove_dups (map f l)) = length (remove_dups l)) as IH'.
  { apply IH. intros a b Ha Hb. apply Hinj; now right. }
  cbn [map remove_dups].
  destruct (decide_rel elem_of (f x) (map f l)) as [Hin|Hnot];
    destruct (decide_rel elem_of x l) as [Hx|Hx]; simpl; try lia.
  - exfalso. apply list_elem_of_fmap in Hin as (y & Heq & Hy).
    apply Hinj in Heq; [subst y; contradiction | now left | now right].
  - exfalso. apply Hnot, list_elem_of_fmap. now exists x.
Qed.

End Duplicates.

(** X16.  In a table that parses, two rows have the same signature
    exactly when they read the same under every column of the header,
    and [duplicateRows] is the row count less the number of distinct
    rows.  The fields under a column [__proto__] are not kept, and rows
    that differ only there are duplicates. *)
Theorem duplicate_rows_exact (E : Engine) (text : string) (this : DataAnalyzer) :
  parseCSV text = Ok this ->
  (forall r r' : row, r ∈ data this -> r' ∈ data this ->
     (JSON.stringify r = JSON.stringify r'
      <-> forall col, col ∈ columns this -> cell r col = cell r' col))
  /\ DataOverview.duplicateRows (getDataOverview E this)
     = length (data this) - length (remove_dups (data this)).
Proof.
  intros H. apply parseCSV_Ok in H as (header & rest & _ & _ & ->).
  cbn [data columns getDataOverview DataOverview.duplicateRows].
  split.
  - intros r r' Hr Hr'.
    apply list_elem_of_fmap in Hr as (line & -> & _).
    apply list_elem_of_fmap in Hr' as (line' & -> & _).
    split.
    + intros Hs col _. now rewrite (signature_inj _ _ _ Hs).
    + intros Hc. now rewrite (same_cells _ _ _ Hc).
  - f_equal. apply length_remove_dups_inj.
    intros r r' Hr Hr' Hs.
    apply list_elem_of_fmap in Hr as (line & -> & _).
    apply list_elem_of_fmap in Hr' as (line' & -> & _).
    now apply signature_inj.
Qed.

Lemma duplicate_rows_exact_witness :
  DataOverview.duplicateRows
    (getDataOverview Sample.engine Example.flat_table) = 1
  /\ DataOverview.duplicateRows
       (getDataOverview Sample.engine Cases.shadowed_table) = 1.
Proof.
  destruct (duplicate_rows_exact Sample.engine Example.flat Example.flat_table
              eq_refl) as [_ H].
  destruct (duplicate_rows_exact Sample.engine Cases.shadowed
              Cases.shadowed_table eq_refl) as [_ H'].
  rewrite H, H'. split; reflexivity.
Defined.
